(** * ui-testing-tools: crawl-and-compare engine

    A shallow embedding of the three scripts of the repository:

    - the page reporter ([Reporter], first script of [src/unnamed/part_000]):
      [categorizePage], [createSafeFileName], [generatePageReport];
    - the baseline tester ([Baseline], second script of
      [src/unnamed/part_000]): [createSafeFileName], [normalizeUrl],
      [getDomain], [getPathDepth], [crawlAndScreenshot], [compareMenu];
    - the reduced tester ([UiTester], [src/ui-tester.js]):
      [createSafeFileName], [compareMenu].

    Strings are byte strings.  The browser, the file system, the URL
    class and the pixel comparison of [pixelmatch] are the environment:
    the browser is an oracle, the URL class and the pixel counter are
    parameters of the functions that call them, and the file system is
    a finite map. *)

From Stdlib Require Import String Ascii List ZArith QArith Lia Bool.
From Stdlib Require Import DecimalString.
From stdpp Require Import base decidable option list strings gmap sorting.

Local Open Scope string_scope.

(** ** JavaScript string primitives *)

Module Js.

(** [s.startsWith(p)] *)
Definition startsWith (s p : string) : bool := String.prefix p s.

(** [s.endsWith(p)] *)
Definition endsWith (s p : string) : bool :=
  String.prefix (String.rev p) (String.rev s).

Definition code (c : ascii) : nat := nat_of_ascii c.

Definition between (lo hi : nat) (c : ascii) : bool :=
  (lo <=? code c)%nat && (code c <=? hi)%nat.

Definition isUpper : ascii -> bool := between 65 90.
Definition isLower : ascii -> bool := between 97 122.
Definition isDigit : ascii -> bool := between 48 57.
Definition isAlpha (c : ascii) : bool := isUpper c || isLower c.
(** the character class [[a-zA-Z0-9]] *)
Definition isAlnum (c : ascii) : bool := isAlpha c || isDigit c.

Definition isChar (d c : ascii) : bool := Ascii.eqb c d.

Definition toLower (c : ascii) : ascii :=
  if isUpper c then ascii_of_nat (code c + 32) else c.

Fixpoint mapStr (f : ascii -> ascii) (s : string) : string :=
  match s with
  | EmptyString => EmptyString
  | String c s' => String (f c) (mapStr f s')
  end.

Fixpoint allStr (p : ascii -> bool) (s : string) : bool :=
  match s with
  | EmptyString => true
  | String c s' => p c && allStr p s'
  end.

Fixpoint filterStr (p : ascii -> bool) (s : string) : string :=
  match s with
  | EmptyString => EmptyString
  | String c s' => if p c then String c (filterStr p s') else filterStr p s'
  end.

(** [s.replace(/[^K]/g, '_')] for a character class [K] given as [keep] *)
Definition replaceOutside (keep : ascii -> bool) (s : string) : string :=
  mapStr (fun c => if keep c then c else "_"%char) s.

(** [s.replace(/_+/g, '_')] *)
Fixpoint collapseUnderscores (s : string) : string :=
  match s with
  | EmptyString => EmptyString
  | String c s' =>
      if isChar "_" c then
        match s' with
        | String c' _ =>
            if isChar "_" c' then collapseUnderscores s'
            else String c (collapseUnderscores s')
        | EmptyString => String c EmptyString
        end
      else String c (collapseUnderscores s')
  end.

Definition dropLeading (d : ascii) (s : string) : string :=
  match s with
  | String c s' => if isChar d c then s' else s
  | EmptyString => EmptyString
  end.

Fixpoint dropTrailing (d : ascii) (s : string) : string :=
  match s with
  | EmptyString => EmptyString
  | String c EmptyString => if isChar d c then EmptyString else s
  | String c s' => String c (dropTrailing d s')
  end.

(** [s.replace(/^_|_$/g, '')]: one underscore at the start and one at
    the end (a different one) are removed. *)
Definition trimUnderscore (s : string) : string :=
  dropTrailing "_" (dropLeading "_" s).

(** [s.substring(0, n)] *)
Definition substring0 (n : nat) (s : string) : string := String.substring 0 n s.

(** [s || d] on strings: the empty string is falsy *)
Definition orElse (s d : string) : string :=
  match s with EmptyString => d | _ => s end.

(** [s.split(sep)] for a one-character separator *)
Fixpoint split (sep : ascii -> bool) (s : string) : list string :=
  match s with
  | EmptyString => [EmptyString]
  | String c s' =>
      if sep c then EmptyString :: split sep s'
      else match split sep s' with
           | seg :: segs => String c seg :: segs
           | [] => [String c EmptyString]
           end
  end.

Definition nonEmpty (s : string) : bool :=
  match s with EmptyString => false | _ => true end.

(** the prefix of [s] before the first character satisfying [stop],
    and the rest, which starts with that character *)
Fixpoint breakAt (stop : ascii -> bool) (s : string) : string * string :=
  match s with
  | EmptyString => (EmptyString, EmptyString)
  | String c s' =>
      if stop c then (EmptyString, s)
      else let '(a, b) := breakAt stop s' in (String c a, b)
  end.

Definition hexDigit (n : nat) : ascii :=
  if (n <? 10)%nat then ascii_of_nat (48 + n) else ascii_of_nat (55 + n).

(** [String(n)] for a natural number *)
Definition ofNat (n : nat) : string := NilEmpty.string_of_uint (Nat.to_uint n).

(** [x.toFixed(2)] on a non-negative rational: two decimals, rounded
    half up (the script applies it to the nearest double) *)
Definition toFixed2 (q : Q) : string :=
  let n := Z.to_nat ((Qnum q * 200 + Zpos (Qden q)) / (2 * Zpos (Qden q))) in
  let cents := (n mod 100)%nat in
  ofNat (n / 100) +:+ "." +:+ (if (cents <? 10)%nat then "0" else "") +:+ ofNat cents.

(** decimal value of a string of digits *)
Definition toNat (s : string) : nat :=
  fold_left (fun acc c => (10 * acc + (code c - 48))%nat) (list_ascii_of_string s) 0%nat.

(** [xs.includes(x)] on an array of strings, [set.has(x)] on a [Set] *)
Definition includes (xs : list string) (x : string) : bool :=
  existsb (String.eqb x) xs.

(** [set.add(x)]: a [Set] keeps its elements in insertion order and
    adding a member again changes nothing *)
Definition setAdd (xs : list string) (x : string) : list string :=
  if includes xs x then xs else (xs ++ [x])%list.

(** one iteration of a [while] loop body: the next state, the loop
    condition being false, or an exception nothing catches *)
Inductive Step (S : Type) : Type :=
| Next (s : S)
| Exit
| Throw.
Arguments Next {S} s.
Arguments Exit {S}.
Arguments Throw {S}.

(** the state after [n] iterations, when the loop runs that long *)
Fixpoint iterate {S : Type} (body : S -> Step S) (n : nat) (s : S) : option S :=
  match n with
  | O => Some s
  | Datatypes.S n' =>
      match body s with
      | Next s' => iterate body n' s'
      | Exit | Throw => None
      end
  end.

End Js.

(** ** The URL class

    [URL] holds the components of a parsed URL; the getters are the
    properties the scripts read ([protocol], [host], [hostname],
    [pathname], [href]) and [clearHash] is the assignment [u.hash = '']. *)

Module Url.

Record URL := mkURL {
  scheme : string;             (* lower case, without the colon *)
  hostName : option string;    (* None: the URL has no authority *)
  portNum : option nat;        (* None: default port *)
  pathname : string;
  query : option string;
  fragment : option string }.

Definition protocol (u : URL) : string := scheme u +:+ ":".

Definition hostname (u : URL) : string := default "" (hostName u).

Definition host (u : URL) : string :=
  match portNum u with
  | Some p => hostname u +:+ ":" +:+ Js.ofNat p
  | None => hostname u
  end.

Definition href (u : URL) : string :=
  protocol u
  +:+ match hostName u with Some _ => "//" +:+ host u | None => "" end
  +:+ pathname u
  +:+ match query u with Some q => "?" +:+ q | None => "" end
  +:+ match fragment u with Some f => "#" +:+ f | None => "" end.

Definition clearHash (u : URL) : URL :=
  mkURL (scheme u) (hostName u) (portNum u) (pathname u) (query u) None.

(** *** A parser for the common forms

    [parse] follows the URL Standard on the forms the scripts meet:
    [scheme://host[:port]/path?query#fragment] for the schemes with an
    authority (http, https, ws, wss, ftp), [scheme:opaque] for the
    others, and scheme-relative, path-absolute, path-relative,
    query-only and fragment-only references against a base.  Forms it
    does not cover (credentials, IP literals, punycode labels, the
    file scheme, a special scheme not followed by two slashes, a
    circumflex, which the editions of the standard treat differently)
    give [None].  The functions of the scripts take the parser as a
    parameter; this one serves to evaluate them at concrete links. *)

Definition isC0OrSpace (c : ascii) : bool := (Js.code c <=? 32)%nat.

Definition isTabOrNewline (c : ascii) : bool :=
  (Js.code c =? 9)%nat || (Js.code c =? 10)%nat || (Js.code c =? 13)%nat.

Fixpoint dropWhile (p : ascii -> bool) (s : string) : string :=
  match s with
  | String c s' => if p c then dropWhile p s' else s
  | EmptyString => EmptyString
  end.

Definition cleanInput (s : string) : string :=
  let s1 := dropWhile isC0OrSpace s in
  let s2 := String.rev (dropWhile isC0OrSpace (String.rev s1)) in
  Js.filterStr (fun c => negb (isTabOrNewline c)) s2.

Definition isSchemeChar (c : ascii) : bool :=
  Js.isAlnum c || Js.isChar "+" c || Js.isChar "-" c || Js.isChar "." c.

(** [Some (scheme, rest)] when the input starts with [scheme:] *)
Definition splitScheme (s : string) : option (string * string) :=
  match s with
  | String c _ =>
      if Js.isAlpha c then
        let '(sch, rest) := Js.breakAt (fun c => negb (isSchemeChar c)) s in
        match rest with
        | String ":" rest' => Some (Js.mapStr Js.toLower sch, rest')
        | _ => None
        end
      else None
  | EmptyString => None
  end.

Definition defaultPort (sch : string) : option nat :=
  if String.eqb sch "http" then Some 80
  else if String.eqb sch "https" then Some 443
  else if String.eqb sch "ws" then Some 80
  else if String.eqb sch "wss" then Some 443
  else if String.eqb sch "ftp" then Some 21
  else None.

Definition isSpecial (sch : string) : bool :=
  match defaultPort sch with Some _ => true | None => false end.

Definition isSlash (c : ascii) : bool := Js.isChar "/" c || Js.isChar "\" c.

Definition isQueryOrHash (c : ascii) : bool := Js.isChar "?" c || Js.isChar "#" c.

Definition percentEncode (inSet : ascii -> bool) (s : string) : string :=
  String.concat ""
    (map (fun c =>
            if inSet c
            then String "%" (String (Js.hexDigit (Js.code c / 16))
                                    (String (Js.hexDigit (Js.code c mod 16)) ""))
            else String c "")
         (list_ascii_of_string s)).

Definition c0Set (c : ascii) : bool := (Js.code c <? 32)%nat || (126 <? Js.code c)%nat.

Definition fragmentSet (c : ascii) : bool :=
  c0Set c || Js.isChar " " c || Js.isChar (ascii_of_nat 34) c || Js.isChar "<" c
  || Js.isChar ">" c || Js.isChar "`" c.

Definition querySet (c : ascii) : bool :=
  c0Set c || Js.isChar " " c || Js.isChar (ascii_of_nat 34) c || Js.isChar "#" c
  || Js.isChar "<" c || Js.isChar ">" c.

Definition specialQuerySet (c : ascii) : bool := querySet c || Js.isChar "'" c.

Definition pathSet (c : ascii) : bool :=
  querySet c || Js.isChar "?" c || Js.isChar "`" c || Js.isChar "{" c
  || Js.isChar "}" c.

Definition lower (s : string) : string := Js.mapStr Js.toLower s.

Definition isSingleDot (seg : string) : bool :=
  String.eqb seg "." || String.eqb (lower seg) "%2e".

Definition isDoubleDot (seg : string) : bool :=
  String.eqb seg ".." || String.eqb (lower seg) ".%2e"
  || String.eqb (lower seg) "%2e." || String.eqb (lower seg) "%2e%2e".

(** the path state: [acc] is the path so far, [pieces] the remaining
    input split at the slashes *)
Fixpoint pathState (acc : list string) (pieces : list string) : list string :=
  match pieces with
  | [] => acc
  | seg :: rest =>
      let isLast := match rest with [] => true | _ => false end in
      let acc' :=
        if isDoubleDot seg
        then (removelast acc ++ if isLast then [""] else [])%list
        else if isSingleDot seg
             then (acc ++ if isLast then [""] else [])%list
             else (acc ++ [percentEncode pathSet seg])%list in
      pathState acc' rest
  end.

Definition serializePath (segs : list string) : string :=
  String.concat "" (map (fun seg => "/" +:+ seg) segs).

(** the segments of a serialized path *)
Definition pathSegments (p : string) : list string :=
  match Js.split (Js.isChar "/") p with
  | _ :: segs => segs
  | [] => []
  end.

Definition hostCharOk (c : ascii) : bool :=
  Js.isLower c || Js.isDigit c || Js.isChar "." c || Js.isChar "-" c
  || Js.isChar "_" c.

Definition labelOk (l : string) : bool :=
  match l with
  | String c _ => Js.isLower c && negb (Js.startsWith l "xn--")
  | EmptyString => false
  end.

Definition hostOk (h : string) : bool :=
  Js.allStr hostCharOk h
  && match rev (Js.split (Js.isChar ".") h) with
     | l :: _ => labelOk l
     | [] => false
     end.

(** host and port of an authority *)
Definition parseAuthority (sch auth : string) : option (string * option nat) :=
  let '(h, p) := Js.breakAt (Js.isChar ":") auth in
  let h := lower h in
  if hostOk h then
    match p with
    | EmptyString | String _ EmptyString => Some (h, None)
    | String _ digits =>
        if Js.allStr Js.isDigit digits && (String.length digits <=? 5)%nat
           && (N.of_nat (Js.toNat digits) <=? 65535)%N
        then Some (h, if decide (Some (Js.toNat digits) = defaultPort sch)
                      then None else Some (Js.toNat digits))
        else None
    end
  else None.

(** query and fragment of the input from its first [?] or [#] on *)
Definition parseTail (special : bool) (s : string) : option string * option string :=
  let '(q, f) :=
    match s with
    | String "?" s' =>
        let '(q, f) := Js.breakAt (Js.isChar "#") s' in
        (Some (percentEncode (if special then specialQuerySet else querySet) q), f)
    | _ => (None, s)
    end in
  (q, match f with
      | String "#" f' => Some (percentEncode fragmentSet f')
      | _ => None
      end).

(** the pieces of a path that starts with a slash (or is empty) *)
Definition pathPieces (p : string) : list string :=
  match Js.split isSlash p with
  | _ :: (_ :: _) as pieces => pieces
  | pieces => pieces
  end.

(** authority, path, query and fragment of a special URL, after the
    slashes that follow the scheme *)
Definition parseHier (sch : string) (s : string) : option URL :=
  let '(auth, rest) := Js.breakAt (fun c => isQueryOrHash c || isSlash c) s in
  let '(p, tail) := Js.breakAt isQueryOrHash rest in
  let '(q, f) := parseTail true tail in
  match parseAuthority sch auth with
  | Some (h, port) =>
      Some (mkURL sch (Some h) port (serializePath (pathState [] (pathPieces p))) q f)
  | None => None
  end.

Definition startsWithTwoSlashes (s : string) : bool :=
  match s with
  | String a (String b _) => isSlash a && isSlash b
  | _ => false
  end.

Definition parseAbsolute (sch rest : string) : option URL :=
  if isSpecial sch then
    if startsWithTwoSlashes rest then parseHier sch (dropWhile isSlash rest) else None
  else
    match rest with
    | String "/" _ => None
    | _ =>
        let '(p, tail) := Js.breakAt isQueryOrHash rest in
        let '(q, f) := parseTail false tail in
        Some (mkURL sch None None (percentEncode c0Set p) q f)
    end.

Definition parseRelative (base : URL) (s : string) : option URL :=
  match hostName base with
  | Some bh =>
      let sch := scheme base in
      if negb (isSpecial sch) then None
      else if startsWithTwoSlashes s then parseHier sch (dropWhile isSlash s)
      else
        let '(p, tail) := Js.breakAt isQueryOrHash s in
        let '(q, f) := parseTail true tail in
        let mk path q := Some (mkURL sch (Some bh) (portNum base) path q f) in
        match p with
        | EmptyString =>
            mk (pathname base) (match q with Some _ => q | None => query base end)
        | String a _ =>
            if isSlash a
            then mk (serializePath (pathState [] (pathPieces p))) q
            else mk (serializePath
                       (pathState (removelast (pathSegments (pathname base)))
                                  (Js.split isSlash p))) q
        end
  | None => None
  end.

Definition parseWith (base : option URL) (input : string) : option URL :=
  let s := cleanInput input in
  if Js.allStr (fun c => negb (Js.isChar "^" c)) s then
    match splitScheme s with
    | Some (sch, rest) => parseAbsolute sch rest
    | None =>
        match base with
        | Some b => parseRelative b s
        | None => None
        end
    end
  else None.

(** [new URL(url)] and [new URL(url, base)]; [None] is the [TypeError]
    the constructor throws *)
Definition parse (url : string) (base : option string) : option URL :=
  match base with
  | None => parseWith None url
  | Some b =>
      match parseWith None b with
      | Some bu => parseWith (Some bu) url
      | None => None
      end
  end.

End Url.


(** ** The page reporter (first script of [src/unnamed/part_000]) *)

Module Reporter.

Inductive PageType := main | sub.
Inductive Status := pending | success | error.

Record PageDetail := mkPageDetail {
  url : string;
  type : PageType;
  pathDepth : nat;
  path : string;
  status : Status;
  title : option string;
  canonical : option string;
  screenshotPath : option string;
  errorMessage : option string }.

(** what the browser does with one URL: [page.goto] or
    [page.evaluate] throws, or the page loads with its title,
    canonical link and [document.links]; [shot] tells whether
    [page.screenshot] succeeded *)
Inductive Visit :=
| LoadFailed (message : string)
| Loaded (pageTitle : string) (canonicalUrl : option string)
         (links : list string) (shot : bool).

Record State := mkState {
  visited : list string;
  toVisit : list string;
  mainPages : list string;
  subPages : list string;
  errorPages : list string;
  pageDetails : list PageDetail;
  processedCount : nat }.

Section WithEnvironment.

Variable newURL : string -> option string -> option Url.URL.
Variable browser : nat -> string -> Visit.
(** [Some folder] when screenshots are taken and the folder exists *)
Variable screenshotFolder : option string.

(** [pathname.replace(/\/$/, '').split('/').filter(s => s.length > 0)] *)
Definition pathSegments (pathname : string) : list string :=
  List.filter Js.nonEmpty (Js.split (Js.isChar "/") (Js.dropTrailing "/" pathname)).

Definition categorizePage (url hostname : string) : PageType :=
  match newURL url None with
  | Some urlObj =>
      if (length (pathSegments (Url.pathname urlObj)) <=? 1)%nat then main else sub
  | None => main
  end.

Definition createSafeFileName (url : string) : string :=
  match newURL url None with
  | Some urlObj =>
      let fileName := Url.hostname urlObj +:+ Url.pathname urlObj in
      let fileName := Js.replaceOutside Js.isAlnum fileName in
      let fileName := Js.trimUnderscore (Js.collapseUnderscores fileName) in
      let fileName :=
        if (100 <? String.length fileName)%nat
        then Js.substring0 100 fileName else fileName in
      Js.orElse fileName "homepage"
  | None => "invalid_url"
  end.

Definition isInternal (hostname link : string) : bool :=
  match newURL link None with
  | Some u => String.eqb (Url.hostname u) hostname
  | None => false
  end.

(** the record pushed as [pending] and what the [try] block makes
    of it before the iteration ends *)
Definition settle (currentUrl : string) (v : Visit) (d : PageDetail) : PageDetail :=
  match v with
  | Loaded t c _ shot =>
      mkPageDetail (url d) (type d) (pathDepth d) (path d) success (Some t) c
        (match screenshotFolder with
         | Some folder =>
             if shot
             then Some (folder +:+ "/" +:+ createSafeFileName currentUrl +:+ ".png")
             else None
         | None => None
         end)
        None
  | LoadFailed msg =>
      mkPageDetail (url d) (type d) (pathDepth d) (path d) error (title d)
        (canonical d) (screenshotPath d) (Some msg)
  end.

(** one iteration of [while (toVisit.length > 0)] *)
Definition step (hostname : string) (st : State) : Js.Step State :=
  match toVisit st with
  | [] => Js.Exit
  | currentUrl :: rest =>
      if Js.includes (visited st) currentUrl
      then Js.Next (mkState (visited st) rest (mainPages st) (subPages st)
                      (errorPages st) (pageDetails st) (processedCount st))
      else
        let visited' := Js.setAdd (visited st) currentUrl in
        let pageType := categorizePage currentUrl hostname in
        match newURL currentUrl None with
        | None => Js.Throw
        | Some urlObj =>
            let segs := pathSegments (Url.pathname urlObj) in
            let detail :=
              mkPageDetail currentUrl pageType (length segs) (Url.pathname urlObj)
                pending None None None None in
            let v := browser (processedCount st) currentUrl in
            let newLinks :=
              match v with
              | Loaded _ _ links _ =>
                  let internalLinks := List.filter (isInternal hostname) links in
                  let filteredLinks :=
                    List.filter (fun link => negb (Js.endsWith link "#")) internalLinks in
                  List.filter (fun link => negb (Js.includes visited' link)) filteredLinks
              | LoadFailed _ => []
              end in
            Js.Next
              (mkState visited' (rest ++ newLinks)
                 (match pageType with
                  | main => Js.setAdd (mainPages st) currentUrl
                  | sub => mainPages st
                  end)
                 (match pageType with
                  | main => subPages st
                  | sub => Js.setAdd (subPages st) currentUrl
                  end)
                 (match v with
                  | LoadFailed _ => Js.setAdd (errorPages st) currentUrl
                  | Loaded _ _ _ _ => errorPages st
                  end)
                 (pageDetails st ++ [settle currentUrl v detail])
                 (S (processedCount st)))
        end
  end.

(** the state before the loop; [None] when [new URL(startUrl)] throws *)
Definition start (startUrl : string) : option (string * State) :=
  match newURL startUrl None with
  | Some u => Some (Url.hostname u, mkState [] [startUrl] [] [] [] [] 0)
  | None => None
  end.

(** the state of [generatePageReport] after [n] iterations *)
Definition generatePageReport (startUrl : string) (n : nat) : option State :=
  match start startUrl with
  | Some (hostname, st) => Js.iterate (step hostname) n st
  | None => None
  end.

End WithEnvironment.

End Reporter.

(** ** Images and [pixelmatch]

    A decoded PNG as [pngjs] returns it: its dimensions and the RGBA
    bytes.  [pixelmatch] is the library's entry point: its two size
    checks are written out; the count of the pixels it holds to differ
    (colour distance against the threshold, anti-aliasing detection: a
    floating-point computation) is the parameter [countDiff]. *)

Module Png.

Record PNG := mkPNG {
  width : nat;
  height : nat;
  data : list N }.

(** [PNG.sync.read] returns four bytes per pixel *)
Definition wellFormed (img : PNG) : Prop :=
  length (data img) = (4 * (width img * height img))%nat.

(** [new PNG({ width, height })] *)
Definition blank (w h : nat) : PNG := mkPNG w h (repeat 0%N (4 * (w * h))).

Definition pixelmatch (countDiff : list N -> list N -> nat -> nat -> nat)
    (img1 img2 output : list N) (width height : nat) : string + nat :=
  if negb (length img1 =? length img2)%nat || negb (length output =? length img1)%nat
  then inl "Image sizes do not match."
  else if negb (length img1 =? width * height * 4)%nat
       then inl "Image data size does not match width/height."
       else inr (countDiff img1 img2 width height).

(** a pixel counter for evaluating examples: the pixels whose four
    bytes are not all equal; it agrees with the library on identical
    buffers (no pixel differs) *)
Fixpoint countUnequal (a b : list N) : nat :=
  match a, b with
  | r1 :: g1 :: b1 :: a1 :: a', r2 :: g2 :: b2 :: a2 :: b' =>
      ((if (r1 =? r2)%N && (g1 =? g2)%N && (b1 =? b2)%N && (a1 =? a2)%N
        then 0 else 1) + countUnequal a' b')%nat
  | _, _ => 0%nat
  end.

Definition exactCount (a b : list N) (w h : nat) : nat := countUnequal a b.

End Png.

(** a file on disk: an image, the manifest [pages.json], or anything else *)
Inductive File (Manifest : Type) :=
| PngFile (img : Png.PNG)
| JsonFile (pages : Manifest)
| OtherFile.
Arguments PngFile {Manifest} img.
Arguments JsonFile {Manifest} pages.
Arguments OtherFile {Manifest}.

(** ** The baseline tester (second script of [src/unnamed/part_000]) *)

Module Baseline.

Inductive PageType := main | sub.
Inductive Status := success | error.

Record PageInfo := mkPageInfo {
  url : string;
  type : PageType;
  pathDepth : nat;
  path : string;
  status : Status;
  title : option string;
  screenshotPath : option string;
  errorMessage : option string;
  canonical : string }.

Abbreviation Disk := (gmap string (File (list PageInfo))).

(** what the browser does with one URL during the crawl: one of the
    calls before the record is pushed throws ([page.goto],
    [page.title], the canonical lookup, [page.screenshot]); or the
    page is captured and the extraction of its links throws; or the
    page is captured with its links *)
Inductive Capture :=
| Failed (message : string)
| LinksFailed (pageTitle : string) (canonicalUrl : option string)
              (img : Png.PNG) (message : string)
| Captured (pageTitle : string) (canonicalUrl : option string)
           (img : Png.PNG) (links : list string).

Record Crawl := mkCrawl {
  visitedUrls : list string;
  urlsToVisit : list string;
  pages : list PageInfo;
  disk : Disk }.

(** what the browser does with one URL during the comparison:
    [page.goto] or [page.screenshot] throws, or the new screenshot is
    taken *)
Inductive Shot :=
| ShotFailed (message : string)
| ShotTaken (img : Png.PNG).

Record ChangedPage := mkChanged {
  changedUrl : string;
  diff : string;
  changedPercent : string }.

Record UnchangedPage := mkUnchanged {
  unchangedUrl : string;
  unchangedTitle : option string;
  unchangedPercent : string }.

Record ErrorPage := mkErrorPage {
  errorUrl : string;
  errorText : string }.

Record Comparison := mkComparison {
  matchCount : nat;
  changeCount : nat;
  errorCount : nat;
  changedPages : list ChangedPage;
  unchangedPages : list UnchangedPage;
  errorPages : list ErrorPage;
  totalPixelsCompared : nat;
  totalDiffPixels : nat;
  successfulComparisons : nat;
  processedCount : nat }.

(** [d / n < 0.01] on the numbers of the script: exact on pixel
    counts, and false when [n] is zero (the quotient is then [NaN] or
    [Infinity]) *)
Definition belowOnePercent (d n : nat) : bool := (100 * d <? n)%nat.

(** [(d / n) * 100] as a rational (for [n] positive) *)
Definition percentOf (d n : nat) : Q :=
  (inject_Z (Z.of_nat d) / inject_Z (Z.of_nat n) * 100)%Q.

Definition newline : string := String (ascii_of_nat 10) EmptyString.

(** the lines [[i + 1] ...] written by a [forEach] over a listing *)
Definition numbered {A : Type} (item : A -> string) (xs : list A) : list string :=
  imap (fun i x => "  [" +:+ Js.ofNat (i + 1) +:+ "] " +:+ item x) xs.

(** [path.join(dir, name)] for a normalized directory and a plain name *)
Definition pathJoin (dir name : string) : string := dir +:+ "/" +:+ name.

Section WithEnvironment.

Variable newURL : string -> option string -> option Url.URL.
Variable browser : nat -> string -> Capture.
(** [BASELINE_DIR] and the value of [getLocalTimestamp()] *)
Variable BASELINE_DIR : string.
Variable timestamp : string.

(** the character class [[a-zA-Z0-9.-]] *)
Definition isSafeChar (c : ascii) : bool :=
  Js.isAlnum c || Js.isChar "." c || Js.isChar "-" c.

Definition createSafeFileName (url : string) : string :=
  match newURL url None with
  | Some urlObj =>
      let filename := Url.hostname urlObj +:+ Url.pathname urlObj in
      let filename := Js.replaceOutside isSafeChar filename in
      let filename := Js.collapseUnderscores filename in
      let filename := Js.trimUnderscore filename in
      Js.orElse filename "index"
  | None => "invalid_url"
  end.

Definition isValidUrl (s : string) : bool :=
  match newURL s None with Some _ => true | None => false end.

Definition getDomain (url : string) : option string :=
  match newURL url None with
  | Some u => Some (Url.hostname u)
  | None => None
  end.

Definition normalizeUrl (url baseUrl : string) : option string :=
  if Js.startsWith url "/" then
    match newURL baseUrl None with
    | Some base => Some (Url.protocol base +:+ "//" +:+ Url.host base +:+ url)
    | None => None
    end
  else if Js.startsWith url "#" then None
  else if Js.startsWith url "mailto:" || Js.startsWith url "tel:"
          || Js.startsWith url "javascript:" then None
  else
    match newURL url (Some baseUrl) with
    | Some fullUrl => Some (Url.href (Url.clearHash fullUrl))
    | None => None
    end.

Definition getPathDepth (url : string) : nat :=
  match newURL url None with
  | Some urlObj =>
      length (List.filter Js.nonEmpty (Js.split (Js.isChar "/") (Url.pathname urlObj)))
  | None => 0
  end.

Definition pageTypeOf (currentUrl startUrl : string) : PageType :=
  if String.eqb currentUrl startUrl then main else sub.

(** the folder of the run: [path.join(BASELINE_DIR, safeDomain-timestamp)] *)
Definition folderPath (domain : string) : string :=
  pathJoin BASELINE_DIR (Js.replaceOutside isSafeChar domain +:+ "-" +:+ timestamp).

(** the body of the loop over the discovered links *)
Definition offer (domain currentUrl : string) (visited : list string)
    (queue : list string) (link : string) : list string :=
  match normalizeUrl link currentUrl with
  | Some normalizedUrl =>
      if Js.nonEmpty normalizedUrl
         && bool_decide (getDomain normalizedUrl = Some domain)
         && negb (Js.includes visited normalizedUrl)
         && negb (Js.includes queue normalizedUrl)
      then queue ++ [normalizedUrl]
      else queue
  | None => queue
  end.

(** the record of the [catch] block; [None] when
    [new URL(currentUrl)] throws there *)
Definition errorInfo (startUrl currentUrl message : string) : option PageInfo :=
  match newURL currentUrl None with
  | Some u =>
      Some (mkPageInfo currentUrl (pageTypeOf currentUrl startUrl)
              (getPathDepth currentUrl) (Url.pathname u) error None None
              (Some message) currentUrl)
  | None => None
  end.

(** the record of the [try] block *)
Definition successInfo (startUrl currentUrl pageTitle : string)
    (canonicalUrl : option string) (shotPath : string) : option PageInfo :=
  match newURL currentUrl None with
  | Some u =>
      Some (mkPageInfo currentUrl (pageTypeOf currentUrl startUrl)
              (getPathDepth currentUrl) (Url.pathname u) success (Some pageTitle)
              (Some shotPath) None
              (match canonicalUrl with
               | Some c => Js.orElse c currentUrl
               | None => currentUrl
               end))
  | None => None
  end.

(** one iteration of [while (urlsToVisit.length > 0)] *)
Definition step (startUrl domain : string) (st : Crawl) : Js.Step Crawl :=
  match urlsToVisit st with
  | [] => Js.Exit
  | currentUrl :: rest =>
      if Js.includes (visitedUrls st) currentUrl
      then Js.Next (mkCrawl (visitedUrls st) rest (pages st) (disk st))
      else
        let visited' := Js.setAdd (visitedUrls st) currentUrl in
        let shotPath :=
          pathJoin (folderPath domain) (createSafeFileName currentUrl +:+ ".png") in
        let caught message pages' disk' :=
          match errorInfo startUrl currentUrl message with
          | Some info => Js.Next (mkCrawl visited' rest (pages' ++ [info])%list disk')
          | None => Js.Throw
          end in
        match browser (length (visitedUrls st)) currentUrl with
        | Failed message => caught message (pages st) (disk st)
        | LinksFailed t c img message =>
            let disk' := <[shotPath := PngFile img]> (disk st) in
            match successInfo startUrl currentUrl t c shotPath with
            | Some info => caught message (pages st ++ [info])%list disk'
            | None => Js.Throw
            end
        | Captured t c img links =>
            let disk' := <[shotPath := PngFile img]> (disk st) in
            match successInfo startUrl currentUrl t c shotPath with
            | Some info =>
                Js.Next (mkCrawl visited'
                           (fold_left (offer domain currentUrl visited') links rest)
                           (pages st ++ [info]) disk')
            | None => Js.Throw
            end
        end
  end.

(** the state before the loop; [None] when the start URL has no domain *)
Definition start (startUrl : string) (disk0 : Disk) : option (string * Crawl) :=
  match getDomain startUrl with
  | Some domain =>
      if Js.nonEmpty domain
      then Some (domain, mkCrawl [] [startUrl] [] disk0)
      else None
  | None => None
  end.

(** the state of [crawlAndScreenshot] after [n] iterations *)
Definition crawlAndScreenshot (startUrl : string) (disk0 : Disk) (n : nat)
  : option Crawl :=
  match start startUrl disk0 with
  | Some (domain, st) => Js.iterate (step startUrl domain) n st
  | None => None
  end.

(** the end of [crawlAndScreenshot]: once the queue is empty the
    manifest is written to [pages.json]; the file holds the array of
    records ([JSON.stringify] and [JSON.parse] are not modelled) *)
Definition saveManifest (domain : string) (st : Crawl) : Disk :=
  <[pathJoin (folderPath domain) "pages.json" := JsonFile (pages st)]> (disk st).

(** [crawlAndScreenshot] run to completion in [n] iterations *)
Definition baseline (startUrl : string) (disk0 : Disk) (n : nat) : option Disk :=
  match start startUrl disk0 with
  | Some (domain, st) =>
      match Js.iterate (step startUrl domain) n st with
      | Some st' =>
          match urlsToVisit st' with
          | [] => Some (saveManifest domain st')
          | _ => None
          end
      | None => None
      end
  | None => None
  end.

(** [JSON.parse(fs.readFileSync(pagesPath))] in [compareMenu] *)
Definition loadManifest (d : Disk) (folder : string) : option (list PageInfo) :=
  match d !! pathJoin folder "pages.json" with
  | Some (JsonFile pages) => Some pages
  | _ => None
  end.

(** *** The comparison pass *)

Variable camera : nat -> string -> Shot.
Variable countDiff : list N -> list N -> nat -> nat -> nat.
(** [x.toFixed(2)] *)
Variable toFixed2 : Q -> string.
(** the folder of the new screenshots and of the diff images *)
Variable tempFolder : string.
(** the selected baseline and the time of the report *)
Variables (website date comparedAt : string).

Definition successPages (baselinePages : list PageInfo) : list PageInfo :=
  List.filter (fun p => match status p with success => true | error => false end)
    baselinePages.

(** [errorCount++; errorPages.push(...)], in the [else] branch and
    in the [catch] block *)
Definition errored (st : Comparison) (p : PageInfo) (message : string) : Comparison :=
  mkComparison (matchCount st) (changeCount st) (S (errorCount st))
    (changedPages st) (unchangedPages st)
    (errorPages st ++ [mkErrorPage (url p) message])
    (totalPixelsCompared st) (totalDiffPixels st) (successfulComparisons st)
    (S (processedCount st)).

(** the body of [for (const p of successPages)]; the new screenshot
    and the diff image go to [tempFolder], the baseline files are
    only read *)
Definition comparePage (d : Disk) (st : Comparison) (p : PageInfo) : Comparison :=
  match camera (processedCount st) (url p) with
  | ShotFailed message => errored st p message
  | ShotTaken imgB =>
      match screenshotPath p ≫= (d !!.) with
      | None => errored st p "Baseline screenshot not found"
      | Some (PngFile imgA) =>
          let width := Png.width imgA in
          let height := Png.height imgA in
          let diffImg := Png.blank width height in
          match Png.pixelmatch countDiff (Png.data imgA) (Png.data imgB)
                  (Png.data diffImg) width height with
          | inl message => errored st p message
          | inr diffPixels =>
              let diffPath :=
                pathJoin tempFolder (createSafeFileName (url p) +:+ "_diff.png") in
              let percent := toFixed2 (percentOf diffPixels (width * height)) in
              let matched := belowOnePercent diffPixels (width * height) in
              mkComparison
                (if matched then S (matchCount st) else matchCount st)
                (if matched then changeCount st else S (changeCount st))
                (errorCount st)
                (if matched then changedPages st
                 else changedPages st ++ [mkChanged (url p) diffPath percent])
                (if matched
                 then unchangedPages st ++ [mkUnchanged (url p) (title p) percent]
                 else unchangedPages st)
                (errorPages st)
                (totalPixelsCompared st + width * height)
                (totalDiffPixels st + diffPixels)
                (S (successfulComparisons st))
                (S (processedCount st))
          end
      | Some _ => errored st p "Invalid file signature"
      end
  end.

Definition noComparison : Comparison := mkComparison 0 0 0 [] [] [] 0 0 0 0.

(** the loop of [compareMenu] over the success pages of the manifest *)
Definition compareMenu (d : Disk) (baselinePages : list PageInfo) : Comparison :=
  fold_left (comparePage d) (successPages baselinePages) noComparison.

(** [overallDiffPercentage] before and after [toFixed(2)] *)
Definition overallDiff (st : Comparison) : Q :=
  if (0 <? successfulComparisons st)%nat
  then percentOf (totalDiffPixels st) (totalPixelsCompared st)
  else 0%Q.

Definition overallDiffPercentage (st : Comparison) : string :=
  if (0 <? successfulComparisons st)%nat
  then toFixed2 (percentOf (totalDiffPixels st) (totalPixelsCompared st))
  else "0.00".

(** the lines of the report file *)
Definition reportLines (baselinePages : list PageInfo) (st : Comparison) : list string :=
  [ "=== Compare Report ===";
    "Baseline: " +:+ website +:+ " (" +:+ date +:+ ")";
    "Compared at: " +:+ comparedAt;
    "Total pages compared: " +:+ Js.ofNat (length (successPages baselinePages));
    "Pages matched: " +:+ Js.ofNat (matchCount st);
    "Pages changed: " +:+ Js.ofNat (changeCount st);
    "Pages with errors: " +:+ Js.ofNat (errorCount st);
    "Overall difference: " +:+ overallDiffPercentage st +:+ "%" ]
  ++ match changedPages st with
     | [] => []
     | cs => (newline +:+ "Changed pages:")
             :: numbered (fun c => changedUrl c +:+ " (diff: " +:+ diff c
                                   +:+ ", diff: " +:+ changedPercent c +:+ "%)") cs
     end
  ++ match unchangedPages st with
     | [] => []
     | us => (newline +:+ "Unchanged pages:")
             :: numbered (fun u => unchangedUrl u +:+ " ("
                                   +:+ match unchangedTitle u with
                                       | Some t => Js.orElse t "No title"
                                       | None => "No title"
                                       end
                                   +:+ ", diff: " +:+ unchangedPercent u +:+ "%)") us
     end
  ++ match errorPages st with
     | [] => []
     | es => (newline +:+ "Pages with errors:")
             :: numbered (fun e => errorUrl e +:+ " (Error: " +:+ errorText e +:+ ")") es
     end.

Definition report (baselinePages : list PageInfo) (st : Comparison) : string :=
  String.concat "" (map (fun line => line +:+ newline) (reportLines baselinePages st)).

End WithEnvironment.

End Baseline.

(** ** The reduced tester ([src/ui-tester.js])

    It reads the manifests the baseline tester writes; its comparison
    keeps two counters and the list of changed pages, and writes the
    failures of a page to the console. *)

Module UiTester.

Record ChangedPage := mkChanged {
  changedUrl : string;
  diff : string;
  changedPercent : string }.

Record Comparison := mkComparison {
  matchCount : nat;
  changeCount : nat;
  changedPages : list ChangedPage;
  console : list string;
  processed : nat }.

Section WithEnvironment.

Variable newURL : string -> option string -> option Url.URL.
Variable camera : nat -> string -> Baseline.Shot.
Variable countDiff : list N -> list N -> nat -> nat -> nat.
Variable toFixed2 : Q -> string.
Variable tempFolder : string.
Variables (website date comparedAt : string).

Definition createSafeFileName (url : string) : string :=
  match newURL url None with
  | Some urlObj =>
      let filename := Url.hostname urlObj +:+ Url.pathname urlObj in
      let filename := Js.replaceOutside Baseline.isSafeChar filename in
      let filename := Js.collapseUnderscores filename in
      let filename := Js.trimUnderscore filename in
      Js.orElse filename "index"
  | None => "invalid_url"
  end.

Definition successPages (baselinePages : list Baseline.PageInfo)
  : list Baseline.PageInfo :=
  List.filter
    (fun p => match Baseline.status p with
              | Baseline.success => true
              | Baseline.error => false
              end)
    baselinePages.

(** a branch that only calls [log] *)
Definition logged (st : Comparison) (line : string) : Comparison :=
  mkComparison (matchCount st) (changeCount st) (changedPages st)
    (console st ++ [line]) (S (processed st)).

(** the body of [for (const p of successPages)] *)
Definition comparePage (d : Baseline.Disk) (st : Comparison) (p : Baseline.PageInfo)
  : Comparison :=
  let failed message :=
    logged st ("Error comparing " +:+ Baseline.url p +:+ ": " +:+ message) in
  match camera (processed st) (Baseline.url p) with
  | Baseline.ShotFailed message => failed message
  | Baseline.ShotTaken imgB =>
      match Baseline.screenshotPath p ≫= (d !!.) with
      | None => logged st ("Baseline screenshot not found for " +:+ Baseline.url p)
      | Some (PngFile imgA) =>
          let width := Png.width imgA in
          let height := Png.height imgA in
          let diffImg := Png.blank width height in
          match Png.pixelmatch countDiff (Png.data imgA) (Png.data imgB)
                  (Png.data diffImg) width height with
          | inl message => failed message
          | inr diffPixels =>
              let diffPath :=
                Baseline.pathJoin tempFolder
                  (createSafeFileName (Baseline.url p) +:+ "_diff.png") in
              let percent :=
                toFixed2 (Baseline.percentOf diffPixels (width * height)) in
              if Baseline.belowOnePercent diffPixels (width * height)
              then mkComparison (S (matchCount st)) (changeCount st) (changedPages st)
                     (console st) (S (processed st))
              else mkComparison (matchCount st) (S (changeCount st))
                     (changedPages st ++ [mkChanged (Baseline.url p) diffPath percent])
                     (console st) (S (processed st))
          end
      | Some _ => failed "Invalid file signature"
      end
  end.

Definition noComparison : Comparison := mkComparison 0 0 [] [] 0.

Definition compareMenu (d : Baseline.Disk) (baselinePages : list Baseline.PageInfo)
  : Comparison :=
  fold_left (comparePage d) (successPages baselinePages) noComparison.

(** the lines of the report file *)
Definition reportLines (baselinePages : list Baseline.PageInfo) (st : Comparison)
  : list string :=
  [ "=== Compare Report ===";
    "Baseline: " +:+ website +:+ " (" +:+ date +:+ ")";
    "Compared at: " +:+ comparedAt;
    "Total pages compared: " +:+ Js.ofNat (length (successPages baselinePages));
    "Pages matched: " +:+ Js.ofNat (matchCount st);
    "Pages changed: " +:+ Js.ofNat (changeCount st) ]
  ++ match changedPages st with
     | [] => []
     | cs => (Baseline.newline +:+ "Changed pages:")
             :: Baseline.numbered
                  (fun c => changedUrl c +:+ " (diff: " +:+ diff c
                            +:+ ", diff: " +:+ changedPercent c +:+ "%)") cs
     end.

End WithEnvironment.

End UiTester.

(** ** What the specification says of the comparison pass

    The Diff Engine of the specification gives, for one page, a count of
    differing pixels over [width * height] pixels, or fails; the
    Aggregator sums over the pages that were compared. *)

Module Spec.

Inductive PageResult :=
| Compared (diffPixels pixels : nat)
| Errored.

Section DiffEngine.

Variable camera : nat -> string -> Baseline.Shot.
Variable countDiff : list N -> list N -> nat -> nat -> nat.

(** the page at position [i] of the pass *)
Definition diffEngine (d : Baseline.Disk) (i : nat) (p : Baseline.PageInfo)
  : PageResult :=
  match camera i (Baseline.url p), Baseline.screenshotPath p ≫= (d !!.) with
  | Baseline.ShotTaken imgB, Some (PngFile imgA) =>
      match Png.pixelmatch countDiff (Png.data imgA) (Png.data imgB)
              (Png.data (Png.blank (Png.width imgA) (Png.height imgA)))
              (Png.width imgA) (Png.height imgA) with
      | inr n => Compared n (Png.width imgA * Png.height imgA)
      | inl _ => Errored
      end
  | _, _ => Errored
  end.

(** the results of the pages from position [i] on *)
Fixpoint pageResultsFrom (d : Baseline.Disk) (i : nat) (ps : list Baseline.PageInfo)
  : list PageResult :=
  match ps with
  | [] => []
  | p :: ps' => diffEngine d i p :: pageResultsFrom d (S i) ps'
  end.

Definition pageResults (d : Baseline.Disk) (baselinePages : list Baseline.PageInfo)
  : list PageResult :=
  pageResultsFrom d 0 (Baseline.successPages baselinePages).

End DiffEngine.

Definition diffOf (r : PageResult) : nat :=
  match r with Compared n _ => n | Errored => 0 end.

Definition pixelsOf (r : PageResult) : nat :=
  match r with Compared _ n => n | Errored => 0 end.

Definition isCompared (r : PageResult) : bool :=
  match r with Compared _ _ => true | Errored => false end.

Definition isMatched (r : PageResult) : bool :=
  match r with Compared n m => Baseline.belowOnePercent n m | Errored => false end.

Definition isChanged (r : PageResult) : bool :=
  match r with Compared n m => negb (Baseline.belowOnePercent n m) | Errored => false end.

(** total differing pixels, total compared pixels, compared pages *)
Definition sumDiff (rs : list PageResult) : nat := sum_list_with diffOf rs.
Definition sumPixels (rs : list PageResult) : nat := sum_list_with pixelsOf rs.
Definition comparedCount (rs : list PageResult) : nat :=
  length (List.filter isCompared rs).

(** the pixel-weighted percentage, and the mean of the per-page
    percentages it is contrasted with *)
Definition weightedPercent (rs : list PageResult) : Q :=
  if (0 <? comparedCount rs)%nat
  then Baseline.percentOf (sumDiff rs) (sumPixels rs)
  else 0%Q.

Definition meanPercent (rs : list PageResult) : Q :=
  (fold_right Qplus 0
     (map (fun r => Baseline.percentOf (diffOf r) (pixelsOf r))
          (List.filter isCompared rs))
   / inject_Z (Z.of_nat (comparedCount rs)))%Q.

(** *** The frontier of a crawl

    The visited set lists the URLs in the order of their navigation:
    both crawlers add a URL to it right before [page.goto]. *)

(** the baseline crawl: no URL is navigated twice, no URL is queued
    twice, no queued URL was visited, every record belongs to a
    visited URL, and no URL has two success records *)
Definition baselineFrontier (st : Baseline.Crawl) : Prop :=
  NoDup (Baseline.visitedUrls st)
  ∧ NoDup (Baseline.urlsToVisit st)
  ∧ (∀ u, u ∈ Baseline.urlsToVisit st → u ∉ Baseline.visitedUrls st)
  ∧ (∀ p, p ∈ Baseline.pages st → Baseline.url p ∈ Baseline.visitedUrls st)
  ∧ NoDup (map Baseline.url (Baseline.successPages (Baseline.pages st))).

(** the page reporter: no URL is navigated twice, and the records are
    those of the visited URLs, one each *)
Definition reporterFrontier (st : Reporter.State) : Prop :=
  NoDup (Reporter.visited st)
  ∧ map Reporter.url (Reporter.pageDetails st) = Reporter.visited st.

(** between two moments of a crawl: what was visited stays visited, and
    what was pending is visited or still pending *)
Definition keeps (visited queue visited' queue' : list string) : Prop :=
  (∀ u, u ∈ visited → u ∈ visited')
  ∧ (∀ u, u ∈ queue → u ∈ visited' ∨ u ∈ queue').

(** *** Shape of a snapshot file name *)

Definition isUnderscore : ascii -> bool := Js.isChar "_".

(** every character is in the class [keep] or is an underscore *)
Definition madeOf (keep : ascii -> bool) (s : string) : bool :=
  Js.allStr (fun c => keep c || isUnderscore c) s.

Definition firstChar (s : string) : option ascii :=
  match s with String c _ => Some c | EmptyString => None end.

Fixpoint lastChar (s : string) : option ascii :=
  match s with
  | EmptyString => None
  | String c EmptyString => Some c
  | String _ s' => lastChar s'
  end.

Definition isUnderscoreAt (o : option ascii) : bool :=
  match o with Some c => isUnderscore c | None => false end.

(** no two underscores in a row *)
Fixpoint noUnderscoreRun (s : string) : bool :=
  match s with
  | EmptyString => true
  | String c s' =>
      negb (isUnderscore c && isUnderscoreAt (firstChar s')) && noUnderscoreRun s'
  end.

End Spec.

(** ** A small site and a few disks, to run the scripts on *)

Module Scenario.

Definition black : list N := [0; 0; 0; 255]%N.
Definition white : list N := [255; 255; 255; 255]%N.

(** an image of one colour *)
Definition solid (w h : nat) (px : list N) : Png.PNG :=
  Png.mkPNG w h (concat (repeat px (w * h))).

Definition home : string := "https://h.com/".
Definition p1 : string := "https://h.com/p?x=1".
Definition p2 : string := "https://h.com/p?x=2".

Definition imgHome : Png.PNG := solid 2 1 white.
Definition img1 : Png.PNG := solid 1 1 black.
Definition img2 : Png.PNG := solid 1 1 white.

(** the site as the baseline crawl sees it: the home page links to two
    product pages, to another site and to a mail address *)
Definition shop (i : nat) (url : string) : Baseline.Capture :=
  if String.eqb url home
  then Baseline.Captured "Home" None imgHome
         [p1; p2; "https://other.com/"; "mailto:x@h.com"]
  else if String.eqb url p1
  then Baseline.Captured "One" None img1 [p2; home; "https://h.com/p?x=1#top"]
  else if String.eqb url p2
  then Baseline.Captured "Two" None img2 [home]
  else Baseline.Failed "net::ERR_ABORTED".

(** the same site at comparison time, unchanged *)
Definition shopCamera (i : nat) (url : string) : Baseline.Shot :=
  match shop i url with
  | Baseline.Captured _ _ img _ => Baseline.ShotTaken img
  | Baseline.LinksFailed _ _ img _ => Baseline.ShotTaken img
  | Baseline.Failed message => Baseline.ShotFailed message
  end.

Definition shopCrawl (n : nat) : option Baseline.Crawl :=
  Baseline.crawlAndScreenshot Url.parse shop "baseline" "2024-05-01T10-00-00" home ∅ n.

Definition shopBaseline : option Baseline.Disk :=
  Baseline.baseline Url.parse shop "baseline" "2024-05-01T10-00-00" home ∅ 3.

Definition shopFolder : string := "baseline/h.com-2024-05-01T10-00-00".

(** a site for the page reporter: the home page links to [/a] and
    [/b], and [/a] links to [/b] *)
Definition blog (i : nat) (url : string) : Reporter.Visit :=
  if String.eqb url home
  then Reporter.Loaded "Home" None ["https://h.com/a"; "https://h.com/b"] false
  else if String.eqb url "https://h.com/a"
  then Reporter.Loaded "A" None ["https://h.com/b"] false
  else Reporter.Loaded "B" None [] false.

Definition blogCrawl (n : nat) : option Reporter.State :=
  Reporter.generatePageReport Url.parse blog None home n.

(** one baseline page and its stored screenshot *)
Definition pageAt (url shot : string) : Baseline.PageInfo :=
  Baseline.mkPageInfo url Baseline.sub 1 "/a" Baseline.success (Some "A") (Some shot)
    None url.

Definition pageA : Baseline.PageInfo := pageAt "https://h.com/a" "baseline/run/h.com_a.png".
Definition pageB : Baseline.PageInfo := pageAt "https://h.com/b" "baseline/run/h.com_b.png".

(** the baseline of [/a] is one pixel wide and two high, the new
    screenshot two wide and one high, every pixel black *)
Definition tallDisk : Baseline.Disk := {[ "baseline/run/h.com_a.png" := PngFile (solid 1 2 black) ]}.
Definition wideCamera (i : nat) (url : string) : Baseline.Shot :=
  Baseline.ShotTaken (solid 2 1 black).

(** [/a] went from black to white (one pixel), [/b] is three black
    pixels as before *)
Definition twoDisk : Baseline.Disk :=
  {[ "baseline/run/h.com_a.png" := PngFile (solid 1 1 black);
     "baseline/run/h.com_b.png" := PngFile (solid 1 3 black) ]}.
Definition twoCamera (i : nat) (url : string) : Baseline.Shot :=
  if String.eqb url "https://h.com/a"
  then Baseline.ShotTaken (solid 1 1 white)
  else Baseline.ShotTaken (solid 1 3 black).

(** a run whose only page has no stored screenshot *)
Definition emptyDisk : Baseline.Disk := ∅.

(** a page whose links differ by their fragment only *)
Definition anchors (i : nat) (url : string) : Reporter.Visit :=
  if String.eqb url home
  then Reporter.Loaded "Home" None
         ["https://h.com/a#x"; "https://h.com/a#y"; "https://h.com/a#"] false
  else Reporter.Loaded "A" None [] false.

(** a new screenshot of three pixels *)
Definition longCamera (i : nat) (url : string) : Baseline.Shot :=
  Baseline.ShotTaken (solid 1 3 black).

Definition compareBaseline (camera : nat -> string -> Baseline.Shot)
    (d : Baseline.Disk) (ps : list Baseline.PageInfo) : Baseline.Comparison :=
  Baseline.compareMenu Url.parse camera Png.exactCount Js.toFixed2 "baseline/run/compare_1"
    d ps.

Definition compareUiTester (camera : nat -> string -> Baseline.Shot)
    (d : Baseline.Disk) (ps : list Baseline.PageInfo) : UiTester.Comparison :=
  UiTester.compareMenu Url.parse camera Png.exactCount Js.toFixed2 "baseline/run/compare_1"
    d ps.

End Scenario.

(** ** The listing of the baselines (both testers)

    [categorizeFolders] and the loop of [compareMenu] that flattens its
    result into the options of the menu; [getLocalTimestamp] and the
    folder name of [crawlAndScreenshot]. *)

Module Folders.

(** [parts.join(sep)] *)
Fixpoint join (sep : string) (parts : list string) : string :=
  match parts with
  | [] => EmptyString
  | [p] => p
  | p :: ps => p +:+ sep +:+ join sep ps
  end.

Definition isDash : ascii -> bool := Js.isChar "-".

(** the own properties of an object whose values are arrays of strings,
    in the order of their creation *)
Abbreviation Obj := (list (string * list string)).

Fixpoint get (o : Obj) (k : string) : option (list string) :=
  match o with
  | [] => None
  | (k', vs) :: o' => if String.eqb k' k then Some vs else get o' k
  end.

(** [o[k].push(v)] when [k] is an own property, [o[k] = [v]] otherwise *)
Fixpoint push (o : Obj) (k v : string) : Obj :=
  match o with
  | [] => [(k, [v])]
  | (k', vs) :: o' =>
      if String.eqb k' k then (k', (vs ++ [v])%list) :: o' else (k', vs) :: push o' k v
  end.

(** the names an object literal inherits from [Object.prototype]; all
    of them hold a function or an object, none of which has [push] *)
Definition inherited : list string :=
  [ "constructor"; "__defineGetter__"; "__defineSetter__"; "hasOwnProperty";
    "__lookupGetter__"; "__lookupSetter__"; "isPrototypeOf";
    "propertyIsEnumerable"; "toString"; "valueOf"; "__proto__"; "toLocaleString" ].

(** decimal value of a string of digits *)
Definition toN (s : string) : N :=
  fold_left (fun acc c => (10 * acc + (N.of_nat (Js.code c) - 48))%N)
    (list_ascii_of_string s) 0%N.

(** a property name that is an array index: the decimal form of an
    integer below [2^32 - 1] *)
Definition isArrayIndex (k : string) : bool :=
  match k with
  | EmptyString => false
  | String c _ =>
      Js.allStr Js.isDigit k
      && (String.eqb k "0" || negb (Js.isChar "0" c))
      && (String.length k <=? 10)%nat
      && (toN k <=? 4294967294)%N
  end.

(** the order of array indices *)
Definition indexLe (a b : string) : Prop := (toN a <= toN b)%N.

#[global] Instance indexLe_dec : RelDecision indexLe :=
  fun a b => decide (toN a <= toN b)%N.

(** the order of [for (const k in o)]: the array indices in ascending
    order, then the other names in the order of their creation *)
Definition keys (o : Obj) : list string :=
  (merge_sort indexLe (List.filter isArrayIndex (map fst o))
   ++ List.filter (fun k => negb (isArrayIndex k)) (map fst o))%list.

(** the callback of [folders.forEach]; [None] is the [TypeError] of a
    call of [push] on an inherited property *)
Definition addFolder (categorized : option Obj) (folder : string) : option Obj :=
  match categorized with
  | None => None
  | Some o =>
      let parts := Js.split isDash folder in
      if (2 <=? length parts)%nat then
        let date := List.last parts EmptyString in
        let website := join "-" (removelast parts) in
        match get o website with
        | Some _ => Some (push o website date)
        | None =>
            if Js.includes inherited website then None
            else Some (push o website date)
        end
      else Some o
  end.

Definition categorizeFolders (folders : list string) : option Obj :=
  fold_left addFolder folders (Some []).

(** the options of [compareMenu]: one per date of each website *)
Definition options (categorized : Obj) : list (string * string) :=
  flat_map (fun website =>
              map (fun date => (website, date)) (default [] (get categorized website)))
    (keys categorized).

(** the folder [compareMenu] opens for a selected option *)
Definition folderName (selected : string * string) : string :=
  fst selected +:+ "-" +:+ snd selected.

(** the readings of a [Date] of the common era: [getFullYear()],
    [getMonth()], [getDate()], [getHours()], [getMinutes()],
    [getSeconds()] *)
Record Date := mkDate {
  fullYear : nat;
  month : nat;
  date : nat;
  hours : nat;
  minutes : nat;
  seconds : nat }.

(** [String(n).padStart(2, '0')] *)
Definition pad2 (n : nat) : string :=
  let s := Js.ofNat n in
  if (String.length s <? 2)%nat then "0" +:+ s else s.

Definition getLocalTimestamp (now : Date) : string :=
  Js.ofNat (fullYear now) +:+ "-" +:+ pad2 (month now + 1) +:+ "-" +:+ pad2 (date now)
  +:+ "T" +:+ pad2 (hours now) +:+ "-" +:+ pad2 (minutes now) +:+ "-" +:+ pad2 (seconds now).

(** the name of the folder [crawlAndScreenshot] creates *)
Definition baselineFolderName (domain : string) (now : Date) : string :=
  Js.replaceOutside Baseline.isSafeChar domain +:+ "-" +:+ getLocalTimestamp now.

Definition containsDash (s : string) : bool := negb (Js.allStr (fun c => negb (isDash c)) s).

(** the website and the date [categorizeFolders] reads from a folder
    name: what stands before and after its last dash *)
Definition splitFolder (folder : string) : string * string :=
  let parts := Js.split isDash folder in
  (join "-" (removelast parts), List.last parts EmptyString).

(** the pairs of a property name and an element of its array *)
Definition entries (o : Obj) : list (string * string) :=
  flat_map (fun kv => map (fun v => (fst kv, v)) (snd kv)) o.

End Folders.

(** ** The progress line of the page reporter *)

Module Progress.

(** the URL shown by [showLoadingIndicator] *)
Definition shortUrl (currentUrl : string) : string :=
  if (50 <? String.length currentUrl)%nat
  then Js.substring0 47 currentUrl +:+ "..."
  else currentUrl.

(** the index of the frame it shows, among the ten of [loadingFrames] *)
Definition frameIndex (currentFrame : nat) : nat := (currentFrame mod 10)%nat.

End Progress.

(** ** The result and the report of the page reporter

    The object [generatePageReport] returns, and the listings and
    counts [generateReport] prints from it. *)

Module Report.

Record ReportData := mkReportData {
  totalPages : nat;
  mainPages : nat;
  subPages : nat;
  errorPages : nat;
  successfulPages : nat;
  pageDetails : list Reporter.PageDetail }.

(** the return value of [generatePageReport] *)
Definition reportData (st : Reporter.State) : ReportData :=
  mkReportData (length (Reporter.visited st)) (length (Reporter.mainPages st))
    (length (Reporter.subPages st)) (length (Reporter.errorPages st))
    (length (Reporter.visited st) - length (Reporter.errorPages st))
    (Reporter.pageDetails st).

Definition isMain (page : Reporter.PageDetail) : bool :=
  match Reporter.type page with Reporter.main => true | Reporter.sub => false end.

Definition isSub (page : Reporter.PageDetail) : bool :=
  match Reporter.type page with Reporter.sub => true | Reporter.main => false end.

Definition isSuccess (page : Reporter.PageDetail) : bool :=
  match Reporter.status page with Reporter.success => true | _ => false end.

Definition isError (page : Reporter.PageDetail) : bool :=
  match Reporter.status page with Reporter.error => true | _ => false end.

Definition mainPageDetails (details : list Reporter.PageDetail) := List.filter isMain details.
Definition subPageDetails (details : list Reporter.PageDetail) := List.filter isSub details.
Definition errorPageDetails (details : list Reporter.PageDetail) := List.filter isError details.

(** [depthStats[page.pathDepth] = (depthStats[page.pathDepth] || 0) + 1] *)
Definition countDepth (depthStats : gmap nat nat) (page : Reporter.PageDetail)
  : gmap nat nat :=
  <[Reporter.pathDepth page := (default 0 (depthStats !! Reporter.pathDepth page) + 1)%nat]>
    depthStats.

Definition depthStats (details : list Reporter.PageDetail) : gmap nat nat :=
  fold_left countDepth details ∅.

(** the lines [Depth d: n pages], in the order of
    [Object.keys(depthStats).sort((a, b) => parseInt(a) - parseInt(b))] *)
Definition depthLines (details : list Reporter.PageDetail) : list (nat * nat) :=
  let stats := depthStats details in
  map (fun d => (d, default 0 (stats !! d)))
    (merge_sort Nat.le (map fst (map_to_list stats))).

(** truthiness of [page.canonical] *)
Definition hasCanonical (page : Reporter.PageDetail) : bool :=
  match Reporter.canonical page with
  | Some c => Js.nonEmpty c
  | None => false
  end.

Definition hasDifferentCanonical (page : Reporter.PageDetail) : bool :=
  match Reporter.canonical page with
  | Some c => Js.nonEmpty c && negb (String.eqb c (Reporter.url page))
  | None => false
  end.

Record CanonicalAnalysis := mkCanonicalAnalysis {
  allSuccessfulPages : list Reporter.PageDetail;
  pagesWithCanonical : list Reporter.PageDetail;
  pagesWithDifferentCanonical : list Reporter.PageDetail;
  pagesWithoutCanonical : list Reporter.PageDetail;
  (** the pages listed as missing a canonical tag, and the number
      announced by [... and n more pages] *)
  listedWithout : list Reporter.PageDetail;
  moreWithout : option nat }.

Definition canonicalAnalysis (details : list Reporter.PageDetail) : CanonicalAnalysis :=
  let successful := List.filter isSuccess details in
  let without := List.filter (fun page => negb (hasCanonical page)) successful in
  mkCanonicalAnalysis successful
    (List.filter hasCanonical successful)
    (List.filter hasDifferentCanonical successful)
    without
    (take 10 without)
    (if (10 <? length without)%nat then Some (length without - 10)%nat else None).

End Report.

(** ** Properties of a run *)

Module Run.

Section WithParser.

Variable newURL : string -> option string -> option Url.URL.

(** a URL of the crawled site *)
Definition inDomain (domain url : string) : Prop :=
  Baseline.getDomain newURL url = Some domain.

(** a URL of the site the page reporter crawls *)
Definition onHost (hostname url : string) : Prop :=
  ∃ o, newURL url None = Some o ∧ Url.hostname o = hostname.

(** the shape of a record of the manifest *)
Definition recordShape (dir ts startUrl domain : string) (p : Baseline.PageInfo) : Prop :=
  Baseline.type p = Baseline.pageTypeOf (Baseline.url p) startUrl
  ∧ Baseline.pathDepth p = Baseline.getPathDepth newURL (Baseline.url p)
  ∧ match Baseline.status p with
    | Baseline.success =>
        Baseline.title p ≠ None
        ∧ Baseline.screenshotPath p
          = Some (Baseline.pathJoin (Baseline.folderPath dir ts domain)
                    (Baseline.createSafeFileName newURL (Baseline.url p) +:+ ".png"))
        ∧ Baseline.errorMessage p = None
    | Baseline.error =>
        Baseline.title p = None
        ∧ Baseline.screenshotPath p = None
        ∧ Baseline.errorMessage p ≠ None
        ∧ Baseline.canonical p = Baseline.url p
    end.

(** every URL the baseline crawl knows belongs to the crawled domain *)
Definition inDomainAll (domain : string) (st : Baseline.Crawl) : Prop :=
  ∀ u, u ∈ Baseline.visitedUrls st ∨ u ∈ Baseline.urlsToVisit st → inDomain domain u.

(** every URL the page reporter knows is on the host of the start URL,
    and apart from the start URL none ends with [#] *)
Definition onHostAll (startUrl hostname : string) (st : Reporter.State) : Prop :=
  ∀ u, u ∈ Reporter.visited st ∨ u ∈ Reporter.toVisit st →
       onHost hostname u ∧ (u = startUrl ∨ Js.endsWith u "#" = false).

End WithParser.

(** the stored screenshot of a record is an image on the disk *)
Definition hasSnapshot (d : Baseline.Disk) (p : Baseline.PageInfo) : Prop :=
  ∃ img, Baseline.screenshotPath p ≫= (d !!.) = Some (PngFile img).

Definition errorRecords (ps : list Baseline.PageInfo) : list Baseline.PageInfo :=
  List.filter (fun p => match Baseline.status p with
                        | Baseline.error => true
                        | Baseline.success => false
                        end) ps.

(** the records of a crawl: each has the shape of its status, every
    visited URL has one, no URL has two error records, and the
    screenshot of every success record is on the disk *)
Definition recordsInv (newURL : string -> option string -> option Url.URL)
    (dir ts startUrl domain : string) (st : Baseline.Crawl) : Prop :=
  (∀ p, p ∈ Baseline.pages st → recordShape newURL dir ts startUrl domain p)
  ∧ (∀ u, u ∈ Baseline.visitedUrls st → ∃ p, p ∈ Baseline.pages st ∧ Baseline.url p = u)
  ∧ NoDup (map Baseline.url (errorRecords (Baseline.pages st)))
  ∧ (∀ p, p ∈ Baseline.pages st → Baseline.status p = Baseline.success →
          hasSnapshot (Baseline.disk st) p).

(** the sets and the records of the page reporter agree: the main, sub
    and error sets list the records of that type or status, and no
    record is left pending *)
Definition countsInv (st : Reporter.State) : Prop :=
  map Reporter.url (Report.mainPageDetails (Reporter.pageDetails st)) = Reporter.mainPages st
  ∧ map Reporter.url (Report.subPageDetails (Reporter.pageDetails st)) = Reporter.subPages st
  ∧ map Reporter.url (Report.errorPageDetails (Reporter.pageDetails st))
    = Reporter.errorPages st
  ∧ (∀ page, page ∈ Reporter.pageDetails st → Reporter.status page ≠ Reporter.pending).

(** the image [page.screenshot] wrote during the crawl, if any *)
Definition capturedImage (c : Baseline.Capture) : option Png.PNG :=
  match c with
  | Baseline.Captured _ _ img _ => Some img
  | Baseline.LinksFailed _ _ img _ => Some img
  | Baseline.Failed _ => None
  end.

(** every file a success record names holds what the browser showed
    for a success record of that file name *)
Definition snapshotsOf (browser : nat -> string -> Baseline.Capture)
    (ps : list Baseline.PageInfo) (d : Baseline.Disk) : Prop :=
  ∀ p, p ∈ ps → Baseline.status p = Baseline.success →
       ∃ q i img,
         q ∈ ps ∧ Baseline.status q = Baseline.success
         ∧ Baseline.screenshotPath q = Baseline.screenshotPath p
         ∧ capturedImage (browser i (Baseline.url q)) = Some img
         ∧ Baseline.screenshotPath p ≫= (d !!.) = Some (PngFile img).

(** at comparison time every page renders as it did during the crawl *)
Definition unchanged (browser : nat -> string -> Baseline.Capture)
    (camera : nat -> string -> Baseline.Shot) : Prop :=
  ∀ i j url img, capturedImage (browser i url) = Some img →
                 camera j url = Baseline.ShotTaken img.

(** the images of a site are read back with four bytes per pixel and
    are not empty *)
Definition rendersImages (browser : nat -> string -> Baseline.Capture) : Prop :=
  ∀ i url img, capturedImage (browser i url) = Some img →
               Png.wellFormed img ∧ (0 < Png.width img * Png.height img)%nat.

End Run.

(** ** A site without colliding file names *)

Module Gallery.

Definition pageA : string := "https://h.com/a".
Definition pageB : string := "https://h.com/b".

(** the home page links to [/a] and [/b]; the links of [/b] cannot be
    extracted *)
Definition site (i : nat) (url : string) : Baseline.Capture :=
  if String.eqb url Scenario.home
  then Baseline.Captured "Home" None Scenario.imgHome [pageA; pageB]
  else if String.eqb url pageA
  then Baseline.Captured "A" None Scenario.img1 [Scenario.home]
  else if String.eqb url pageB
  then Baseline.LinksFailed "B" None Scenario.img2 "Execution context was destroyed"
  else Baseline.Failed "net::ERR_ABORTED".

Definition camera (i : nat) (url : string) : Baseline.Shot :=
  match site i url with
  | Baseline.Captured _ _ img _ => Baseline.ShotTaken img
  | Baseline.LinksFailed _ _ img _ => Baseline.ShotTaken img
  | Baseline.Failed message => Baseline.ShotFailed message
  end.

Definition baseline : option Baseline.Disk :=
  Baseline.baseline Url.parse site "baseline" "2024-05-01T10-00-00" Scenario.home ∅ 3.

End Gallery.

(** ** The comparison pass: counters and totals *)

Section ComparisonPass.

Variable newURL : string -> option string -> option Url.URL.
Variable camera : nat -> string -> Baseline.Shot.
Variable countDiff : list N -> list N -> nat -> nat -> nat.
Variable toFixed2 : Q -> string.
Variable tempFolder : string.
Variable d : Baseline.Disk.

Local Abbreviation comparePage :=
  (Baseline.comparePage newURL camera countDiff toFixed2 tempFolder d).

(** The position of a page in the loop is [processedCount]. *)
Lemma comparePage_processed st p :
  Baseline.processedCount (comparePage st p) = S (Baseline.processedCount st).
Proof.
  unfold comparePage, Baseline.comparePage, Baseline.errored.
  repeat case_match; reflexivity.
Qed.

(** One page moves exactly one of the three counters, by one. *)
Lemma comparePage_one_counter st p :
  let st' := comparePage st p in
  let m := Baseline.matchCount st in
  let c := Baseline.changeCount st in
  let e := Baseline.errorCount st in
  (Baseline.matchCount st', Baseline.changeCount st', Baseline.errorCount st')
  ∈ [(S m, c, e); (m, S c, e); (m, c, S e)].
Proof.
  unfold comparePage, Baseline.comparePage, Baseline.errored.
  repeat case_match; simpl; set_solver.
Qed.

(** A page adds its own result to the totals, and an errored page adds
    nothing. *)
Lemma comparePage_totals st p :
  let st' := comparePage st p in
  let r := Spec.diffEngine camera countDiff d (Baseline.processedCount st) p in
  Baseline.totalDiffPixels st' = (Baseline.totalDiffPixels st + Spec.diffOf r)%nat
  ∧ Baseline.totalPixelsCompared st'
    = (Baseline.totalPixelsCompared st + Spec.pixelsOf r)%nat
  ∧ Baseline.successfulComparisons st'
    = (Baseline.successfulComparisons st + if Spec.isCompared r then 1 else 0)%nat
  ∧ Baseline.matchCount st'
    = (Baseline.matchCount st + if Spec.isMatched r then 1 else 0)%nat
  ∧ Baseline.changeCount st'
    = (Baseline.changeCount st + if Spec.isChanged r then 1 else 0)%nat
  ∧ Baseline.errorCount st'
    = (Baseline.errorCount st + if Spec.isCompared r then 0 else 1)%nat.
Proof.
  unfold comparePage, Baseline.comparePage, Baseline.errored, Spec.diffEngine.
  destruct (camera _ _) as [msg|imgB]; simpl; [repeat split; lia|].
  destruct (_ ≫= _) as [[imgA| |]|]; simpl; try (repeat split; lia).
  destruct (Png.pixelmatch _ _ _ _ _ _) as [msg|n]; simpl; [repeat split; lia|].
  destruct (Baseline.belowOnePercent _ _); simpl; repeat split; lia.
Qed.

(** The accumulators after a run of the loop are the sums over the
    results of its pages. *)
Lemma compare_fold ps : ∀ st,
  let st' := fold_left comparePage ps st in
  let rs := Spec.pageResultsFrom camera countDiff d (Baseline.processedCount st) ps in
  Baseline.totalDiffPixels st' = (Baseline.totalDiffPixels st + Spec.sumDiff rs)%nat
  ∧ Baseline.totalPixelsCompared st'
    = (Baseline.totalPixelsCompared st + Spec.sumPixels rs)%nat
  ∧ Baseline.successfulComparisons st'
    = (Baseline.successfulComparisons st + Spec.comparedCount rs)%nat
  ∧ Baseline.matchCount st'
    = (Baseline.matchCount st + length (List.filter Spec.isMatched rs))%nat
  ∧ Baseline.changeCount st'
    = (Baseline.changeCount st + length (List.filter Spec.isChanged rs))%nat
  ∧ Baseline.errorCount st'
    = (Baseline.errorCount st
       + length (List.filter (fun r => negb (Spec.isCompared r)) rs))%nat.
Proof.
  induction ps as [|p ps IH]; intros st; simpl.
  - unfold Spec.sumDiff, Spec.sumPixels, Spec.comparedCount; simpl.
    repeat split; lia.
  - specialize (IH (comparePage st p)).
    rewrite comparePage_processed in IH.
    destruct IH as (IH1 & IH2 & IH3 & IH4 & IH5 & IH6).
    destruct (comparePage_totals st p) as (T1 & T2 & T3 & T4 & T5 & T6).
    rewrite IH1, IH2, IH3, IH4, IH5, IH6, T1, T2, T3, T4, T5, T6.
    unfold Spec.sumDiff, Spec.sumPixels, Spec.comparedCount; simpl.
    set (r := Spec.diffEngine camera countDiff d (Baseline.processedCount st) p).
    destruct r as [n m|]; simpl; [destruct (Baseline.belowOnePercent n m); simpl|];
      repeat split; lia.
Qed.

(** The three classifications partition the results. *)
Lemma results_partition (rs : list Spec.PageResult) :
  (length (List.filter Spec.isMatched rs) + length (List.filter Spec.isChanged rs)
   + length (List.filter (fun r => negb (Spec.isCompared r)) rs))%nat = length rs.
Proof.
  induction rs as [|[n m|] rs IH]; simpl; [reflexivity| |lia].
  destruct (Baseline.belowOnePercent n m); simpl; lia.
Qed.

Lemma pageResultsFrom_length ps : ∀ i,
  length (Spec.pageResultsFrom camera countDiff d i ps) = length ps.
Proof. induction ps as [|p ps IH]; intros i; simpl; [reflexivity|]. by rewrite IH. Qed.

(** C10: in the comparison pass of the baseline tester every
    success-status page of the manifest increments exactly one of
    [matchCount], [changeCount] and [errorCount], and when the loop
    has finished the three counters add up to the number of
    success-status records. *)
Theorem compare_counters_partition (baselinePages : list Baseline.PageInfo) :
  let st := Baseline.compareMenu newURL camera countDiff toFixed2 tempFolder d
              baselinePages in
  (∀ st0 p,
      let st1 := comparePage st0 p in
      (Baseline.matchCount st1, Baseline.changeCount st1, Baseline.errorCount st1)
      ∈ [ (S (Baseline.matchCount st0), Baseline.changeCount st0, Baseline.errorCount st0);
          (Baseline.matchCount st0, S (Baseline.changeCount st0), Baseline.errorCount st0);
          (Baseline.matchCount st0, Baseline.changeCount st0, S (Baseline.errorCount st0)) ])
  ∧ (Baseline.matchCount st + Baseline.changeCount st + Baseline.errorCount st)%nat
    = length (Baseline.successPages baselinePages).
Proof.
  split; [intros st0 p; apply comparePage_one_counter|].
  unfold Baseline.compareMenu.
  destruct (compare_fold (Baseline.successPages baselinePages) Baseline.noComparison)
    as (_ & _ & _ & Hm & Hc & He).
  rewrite Hm, Hc, He. simpl.
  rewrite results_partition. apply pageResultsFrom_length.
Qed.

(** On two pages of one and three pixels, the first fully changed,
    the script reports a quarter of the pixels, and the mean of the
    two page ratios is a half. *)
Lemma weighted_is_not_mean :
  let ps := [Scenario.pageA; Scenario.pageB] in
  let st := Scenario.compareBaseline Scenario.twoCamera Scenario.twoDisk ps in
  let rs := Spec.pageResults Scenario.twoCamera Png.exactCount Scenario.twoDisk ps in
  (Baseline.overallDiff st == 25)%Q
  ∧ Baseline.overallDiffPercentage Js.toFixed2 st = "25.00"
  ∧ (Spec.meanPercent rs == 50)%Q.
Proof. vm_compute. repeat split. Qed.

(** C2: the overall difference of a comparison run is the sum of the
    differing pixel counts of the pages that were compared, divided by
    the sum of [width * height] over the same pages (as a percentage,
    formatted by [toFixed(2)]); the pages whose comparison failed add
    to neither sum; it is not the mean of the per-page ratios. *)
Theorem overall_difference_is_pixel_weighted (baselinePages : list Baseline.PageInfo) :
  let st := Baseline.compareMenu newURL camera countDiff toFixed2 tempFolder d
              baselinePages in
  let rs := Spec.pageResults camera countDiff d baselinePages in
  Baseline.totalDiffPixels st = Spec.sumDiff rs
  ∧ Baseline.totalPixelsCompared st = Spec.sumPixels rs
  ∧ Baseline.successfulComparisons st = Spec.comparedCount rs
  ∧ Baseline.overallDiff st = Spec.weightedPercent rs
  ∧ Baseline.overallDiffPercentage toFixed2 st
    = (if (0 <? Spec.comparedCount rs)%nat
       then toFixed2 (Baseline.percentOf (Spec.sumDiff rs) (Spec.sumPixels rs))
       else "0.00")
  ∧ (let ps := [Scenario.pageA; Scenario.pageB] in
     let st2 := Scenario.compareBaseline Scenario.twoCamera Scenario.twoDisk ps in
     let rs2 := Spec.pageResults Scenario.twoCamera Png.exactCount Scenario.twoDisk ps in
     ¬ (Baseline.overallDiff st2 == Spec.meanPercent rs2)%Q).
Proof.
  intros st rs.
  destruct (compare_fold (Baseline.successPages baselinePages) Baseline.noComparison)
    as (Hd & Hp & Hs & _).
  simpl in Hd, Hp, Hs. fold (Spec.pageResults camera countDiff d baselinePages) in Hd, Hp, Hs.
  fold rs in Hd, Hp, Hs.
  assert (E1 : Baseline.totalDiffPixels st = Spec.sumDiff rs) by exact Hd.
  assert (E2 : Baseline.totalPixelsCompared st = Spec.sumPixels rs) by exact Hp.
  assert (E3 : Baseline.successfulComparisons st = Spec.comparedCount rs) by exact Hs.
  repeat split; try assumption.
  - unfold Baseline.overallDiff, Spec.weightedPercent. by rewrite E1, E2, E3.
  - unfold Baseline.overallDiffPercentage. by rewrite E1, E2, E3.
  - destruct weighted_is_not_mean as (Hw & _ & Hm).
    intros ps st2 rs2 Heq. fold ps st2 rs2 in Hw, Hm.
    rewrite Hw, Hm in Heq. discriminate Heq.
Qed.

(** A page whose stored screenshot is missing is counted as errored by
    the baseline tester, whatever the browser does. *)
Lemma missing_baseline_is_errored (st : Baseline.Comparison) (p : Baseline.PageInfo) :
  Baseline.screenshotPath p ≫= (d !!.) = None →
  let st' := comparePage st p in
  Baseline.errorCount st' = S (Baseline.errorCount st)
  ∧ Baseline.matchCount st' = Baseline.matchCount st
  ∧ Baseline.changeCount st' = Baseline.changeCount st
  ∧ ∃ message,
      Baseline.errorPages st'
      = (Baseline.errorPages st ++ [Baseline.mkErrorPage (Baseline.url p) message])%list.
Proof.
  intros Hfile. unfold Baseline.comparePage. rewrite Hfile.
  destruct (camera _ _); simpl; repeat split; by eexists.
Qed.

(** Every entry of [errorPages] has its line in the report. *)
Lemma report_itemizes_errors website date comparedAt
    (ps : list Baseline.PageInfo) (st : Baseline.Comparison) (e : Baseline.ErrorPage) :
  e ∈ Baseline.errorPages st →
  ∃ i, ("  [" +:+ Js.ofNat (i + 1) +:+ "] " +:+ Baseline.errorUrl e
        +:+ " (Error: " +:+ Baseline.errorText e +:+ ")")
       ∈ Baseline.reportLines toFixed2 website date comparedAt ps st.
Proof.
  intros He. apply list_elem_of_lookup in He as [i Hi]. exists i.
  unfold Baseline.reportLines.
  do 3 (apply elem_of_app; right).
  destruct (Baseline.errorPages st) as [|e0 es] eqn:E; [done|].
  apply list_elem_of_further. unfold Baseline.numbered.
  apply elem_of_lookup_imap. by exists i, e.
Qed.

(** C3 (as amended): when the baseline image and the new screenshot
    of a page have different pixel counts ([width * height]), the
    baseline tester counts the page as errored: neither [matchCount]
    nor [changeCount] moves, the page enters no listing of matched or
    changed pages and adds nothing to the totals of the diff ratio;
    the reduced tester counts it neither as matched nor as changed. *)
Theorem pixel_count_mismatch_is_errored
    (st : Baseline.Comparison) (ust : UiTester.Comparison)
    (p : Baseline.PageInfo) (imgA imgB : Png.PNG) :
  camera (Baseline.processedCount st) (Baseline.url p) = Baseline.ShotTaken imgB →
  camera (UiTester.processed ust) (Baseline.url p) = Baseline.ShotTaken imgB →
  Baseline.screenshotPath p ≫= (d !!.) = Some (PngFile imgA) →
  Png.wellFormed imgA → Png.wellFormed imgB →
  (Png.width imgA * Png.height imgA ≠ Png.width imgB * Png.height imgB)%nat →
  let st' := comparePage st p in
  let ust' := UiTester.comparePage newURL camera countDiff toFixed2 tempFolder d ust p in
  Spec.diffEngine camera countDiff d (Baseline.processedCount st) p = Spec.Errored
  ∧ Baseline.errorCount st' = S (Baseline.errorCount st)
  ∧ (∃ message,
        Baseline.errorPages st'
        = (Baseline.errorPages st ++ [Baseline.mkErrorPage (Baseline.url p) message])%list)
  ∧ Baseline.matchCount st' = Baseline.matchCount st
  ∧ Baseline.changeCount st' = Baseline.changeCount st
  ∧ Baseline.unchangedPages st' = Baseline.unchangedPages st
  ∧ Baseline.changedPages st' = Baseline.changedPages st
  ∧ Baseline.totalDiffPixels st' = Baseline.totalDiffPixels st
  ∧ Baseline.totalPixelsCompared st' = Baseline.totalPixelsCompared st
  ∧ Baseline.successfulComparisons st' = Baseline.successfulComparisons st
  ∧ UiTester.matchCount ust' = UiTester.matchCount ust
  ∧ UiTester.changeCount ust' = UiTester.changeCount ust
  ∧ UiTester.changedPages ust' = UiTester.changedPages ust.
Proof.
  intros Hcam Hucam Hfile HA HB Hne.
  assert (Hpm : Png.pixelmatch countDiff (Png.data imgA) (Png.data imgB)
                  (Png.data (Png.blank (Png.width imgA) (Png.height imgA)))
                  (Png.width imgA) (Png.height imgA)
                = inl "Image sizes do not match.").
  { unfold Png.pixelmatch. red in HA, HB. rewrite HA, HB.
    destruct (Nat.eqb_spec (4 * (Png.width imgA * Png.height imgA))
                (4 * (Png.width imgB * Png.height imgB))) as [E|_]; [lia|reflexivity]. }
  cbv zeta.
  unfold Baseline.comparePage, UiTester.comparePage, Spec.diffEngine.
  rewrite Hcam, Hucam, Hfile, Hpm. simpl.
  repeat split. by eexists.
Qed.

End ComparisonPass.

(** A baseline of two pixels against a screenshot of three. *)
Lemma pixel_count_mismatch_is_errored_witness :
  let st := Scenario.compareBaseline Scenario.longCamera Scenario.tallDisk [Scenario.pageA] in
  Baseline.errorCount st = 1%nat ∧ Baseline.matchCount st = 0%nat
  ∧ Baseline.changeCount st = 0%nat ∧ Baseline.totalPixelsCompared st = 0%nat.
Proof.
  assert (Hne : (1 * 2 ≠ 1 * 3)%nat) by lia.
  pose proof (pixel_count_mismatch_is_errored Url.parse Scenario.longCamera Png.exactCount
                Js.toFixed2 "baseline/run/compare_1" Scenario.tallDisk
                Baseline.noComparison UiTester.noComparison Scenario.pageA
                (Scenario.solid 1 2 Scenario.black) (Scenario.solid 1 3 Scenario.black)
                eq_refl eq_refl eq_refl eq_refl eq_refl Hne)
    as (_ & He & _ & Hm & Hc & _ & _ & _ & Hp & _).
  exact (conj He (conj Hm (conj Hc Hp))).
Defined.

(** C3 fails as stated: a baseline one pixel wide and two high and a new
    screenshot two wide and one high hold the same number of pixels;
    the page is diffed, counted as matched and listed with a ratio. *)
Lemma dimension_mismatch_counted_as_matched :
  let imgA := Scenario.solid 1 2 Scenario.black in
  let imgB := Scenario.solid 2 1 Scenario.black in
  let st := Scenario.compareBaseline Scenario.wideCamera Scenario.tallDisk [Scenario.pageA] in
  Scenario.tallDisk !! "baseline/run/h.com_a.png" = Some (PngFile imgA)
  ∧ Scenario.wideCamera 0 "https://h.com/a" = Baseline.ShotTaken imgB
  ∧ Png.width imgA ≠ Png.width imgB
  ∧ Png.height imgA ≠ Png.height imgB
  ∧ Baseline.errorCount st = 0%nat
  ∧ Baseline.matchCount st = 1%nat
  ∧ Baseline.unchangedPages st
    = [Baseline.mkUnchanged "https://h.com/a" (Some "A") "0.00"].
Proof. vm_compute. repeat split; discriminate. Qed.

(** C4 at a success page whose stored screenshot is missing: the
    baseline tester counts the page as errored and lists it in the
    report; the reduced tester counts nothing, and its report shows one
    page compared, none matched, none changed, and no trace of the
    failure, which went to the console only. *)
Theorem missing_baseline_dropped_by_ui_tester :
  let ps := [Scenario.pageA] in
  let st := Scenario.compareBaseline Scenario.twoCamera Scenario.emptyDisk ps in
  let ust := Scenario.compareUiTester Scenario.twoCamera Scenario.emptyDisk ps in
  Baseline.errorCount st = 1%nat
  ∧ Baseline.errorPages st
    = [Baseline.mkErrorPage "https://h.com/a" "Baseline screenshot not found"]
  ∧ "  [1] https://h.com/a (Error: Baseline screenshot not found)"
    ∈ Baseline.reportLines Js.toFixed2 "h.com" "2024-05-01T10-00-00" "2024-05-02_09-00-00" ps st
  ∧ UiTester.matchCount ust = 0%nat
  ∧ UiTester.changeCount ust = 0%nat
  ∧ UiTester.console ust = ["Baseline screenshot not found for https://h.com/a"]
  ∧ UiTester.reportLines "h.com" "2024-05-01T10-00-00" "2024-05-02_09-00-00" ps ust
    = [ "=== Compare Report ===";
        "Baseline: h.com (2024-05-01T10-00-00)";
        "Compared at: 2024-05-02_09-00-00";
        "Total pages compared: 1";
        "Pages matched: 0";
        "Pages changed: 0" ].
Proof.
  vm_compute. repeat split.
  do 9 apply list_elem_of_further. apply list_elem_of_here.
Qed.

(** ** The normalizer at concrete links *)

(** C5 at two links that differ by their fragment only: written
    relative to the site root they keep their fragments and are queued
    as two entries, next to the entry of the resource itself, while the
    absolute form of the same link loses its fragment; the page
    reporter visits both fragment variants as two pages. *)
Theorem fragment_variants_stay_distinct :
  let base := "https://h.com/" in
  let normalizeUrl := Baseline.normalizeUrl Url.parse in
  normalizeUrl "/a#x" base = Some "https://h.com/a#x"
  ∧ normalizeUrl "/a#y" base = Some "https://h.com/a#y"
  ∧ normalizeUrl "https://h.com/a#x" base = Some "https://h.com/a"
  ∧ normalizeUrl "https://h.com/a#y" base = Some "https://h.com/a"
  ∧ fold_left (Baseline.offer Url.parse "h.com" base [base]) ["/a#x"; "/a#y"; "/a"] []
    = ["https://h.com/a#x"; "https://h.com/a#y"; "https://h.com/a"]
  ∧ option_map Reporter.visited
      (Reporter.generatePageReport Url.parse Scenario.anchors None base 3)
    = Some ["https://h.com/"; "https://h.com/a#x"; "https://h.com/a#y"].
Proof. vm_compute. repeat split. Qed.

(** C6 at a link with the ftp scheme: the normalizer returns it, and
    the crawl queues it when its host is the crawled domain; so does a
    mail link whose scheme is written in capitals pass the normalizer. *)
Theorem ftp_link_is_not_rejected :
  let base := "https://h.com/" in
  let normalizeUrl := Baseline.normalizeUrl Url.parse in
  normalizeUrl "ftp://h.com/files/a.zip" base = Some "ftp://h.com/files/a.zip"
  ∧ Baseline.offer Url.parse "h.com" base [base] [] "ftp://h.com/files/a.zip"
    = ["ftp://h.com/files/a.zip"]
  ∧ normalizeUrl "mailto:x@h.com" base = None
  ∧ normalizeUrl "MAILTO:x@h.com" base = Some "mailto:x@h.com".
Proof. vm_compute. repeat split. Qed.

(** C7 at the link [/a#b]: its normal form still carries the fragment,
    and normalizing that form once more gives another string; the same
    happens with a space in a root-relative link, and the normal form of
    a mail link in capitals is rejected the second time. *)
Theorem normalize_is_not_idempotent :
  let base := "https://h.com/" in
  let normalizeUrl := Baseline.normalizeUrl Url.parse in
  normalizeUrl "/a#b" base = Some "https://h.com/a#b"
  ∧ normalizeUrl "https://h.com/a#b" base = Some "https://h.com/a"
  ∧ normalizeUrl "/a b" base = Some "https://h.com/a b"
  ∧ normalizeUrl "https://h.com/a b" base = Some "https://h.com/a%20b"
  ∧ normalizeUrl "MAILTO:x@h.com" base = Some "mailto:x@h.com"
  ∧ normalizeUrl "mailto:x@h.com" base = None.
Proof. vm_compute. repeat split. Qed.

(** ** Snapshot file names *)

Section FileNames.

Variable keep : ascii -> bool.

Lemma madeOf_replaceOutside s : Spec.madeOf keep (Js.replaceOutside keep s) = true.
Proof.
  unfold Spec.madeOf, Js.replaceOutside.
  induction s as [|c s IH]; [reflexivity|].
  simpl. rewrite IH, andb_true_r.
  destruct (keep c) eqn:E; [by rewrite E|].
  by rewrite orb_true_r.
Qed.

Lemma madeOf_collapse s :
  Spec.madeOf keep s = true → Spec.madeOf keep (Js.collapseUnderscores s) = true.
Proof.
  unfold Spec.madeOf.
  induction s as [|c s IH]; [done|]. simpl.
  intros [Hc Hs]%andb_true_iff. specialize (IH Hs).
  destruct (Js.isChar "_" c); [destruct s as [|c' s']|]; simpl in *;
    [by rewrite Hc | destruct (Js.isChar "_" c'); simpl in *; [done|by rewrite Hc] |
     by rewrite Hc].
Qed.

Lemma madeOf_dropLeading d s :
  Spec.madeOf keep s = true → Spec.madeOf keep (Js.dropLeading d s) = true.
Proof.
  unfold Spec.madeOf. destruct s as [|c s]; [done|]. simpl.
  intros [Hc Hs]%andb_true_iff. destruct (Js.isChar d c); [done|]. simpl.
  by rewrite Hc.
Qed.

Lemma madeOf_dropTrailing d s :
  Spec.madeOf keep s = true → Spec.madeOf keep (Js.dropTrailing d s) = true.
Proof.
  unfold Spec.madeOf.
  induction s as [|c s IH]; [done|]. simpl.
  intros [Hc Hs]%andb_true_iff. specialize (IH Hs).
  destruct s as [|c' s']; [destruct (Js.isChar d c); simpl; [done|by rewrite Hc]|].
  simpl in *. by rewrite Hc.
Qed.

Lemma madeOf_substring0 n : ∀ s,
  Spec.madeOf keep s = true → Spec.madeOf keep (Js.substring0 n s) = true.
Proof.
  unfold Spec.madeOf, Js.substring0.
  induction n as [|n IH]; intros [|c s]; simpl; try done.
  intros [Hc Hs]%andb_true_iff. rewrite Hc. simpl. by apply IH.
Qed.

End FileNames.

Lemma firstChar_collapse s :
  Spec.firstChar (Js.collapseUnderscores s) = Spec.firstChar s.
Proof.
  induction s as [|c s IH]; [done|]. simpl.
  destruct (Js.isChar "_" c) eqn:Ec; [|done].
  destruct s as [|c' s']; [done|].
  destruct (Js.isChar "_" c') eqn:Ec'; [|done].
  rewrite IH. simpl.
  apply Ascii.eqb_eq in Ec, Ec'. by subst.
Qed.

Lemma noUnderscoreRun_collapse s : Spec.noUnderscoreRun (Js.collapseUnderscores s) = true.
Proof.
  induction s as [|c s IH]; [done|]. simpl.
  destruct (Js.isChar "_" c) eqn:Ec.
  - destruct s as [|c' s']; [simpl; by rewrite andb_false_r|].
    destruct (Js.isChar "_" c') eqn:Ec'; [done|].
    cbn [Spec.noUnderscoreRun]. rewrite IH, firstChar_collapse. simpl.
    unfold Spec.isUnderscore. by rewrite Ec', andb_false_r.
  - cbn [Spec.noUnderscoreRun]. rewrite IH.
    unfold Spec.isUnderscore at 1. by rewrite Ec.
Qed.

Lemma noUnderscoreRun_tail c s :
  Spec.noUnderscoreRun (String c s) = true → Spec.noUnderscoreRun s = true.
Proof. simpl. by intros [_ H]%andb_true_iff. Qed.

Lemma noUnderscoreRun_dropLeading d s :
  Spec.noUnderscoreRun s = true → Spec.noUnderscoreRun (Js.dropLeading d s) = true.
Proof.
  destruct s as [|c s]; [done|]. simpl.
  destruct (Js.isChar d c); [by intros [_ H]%andb_true_iff|done].
Qed.

Lemma firstChar_dropTrailing s :
  Spec.isUnderscoreAt (Spec.firstChar s) = false →
  Spec.isUnderscoreAt (Spec.firstChar (Js.dropTrailing "_" s)) = false.
Proof.
  destruct s as [|c [|c' s']]; simpl; try done.
  unfold Spec.isUnderscore. intros H. rewrite H. simpl. exact H.
Qed.

Lemma firstChar_after_dropTrailing c s :
  s ≠ EmptyString →
  Spec.firstChar (Js.dropTrailing c s) = Spec.firstChar s
  ∨ ∃ a, s = String a EmptyString.
Proof. destruct s as [|a [|b s']]; intros Hs; simpl; eauto. Qed.

Lemma noUnderscoreRun_dropTrailing s :
  Spec.noUnderscoreRun s = true → Spec.noUnderscoreRun (Js.dropTrailing "_" s) = true.
Proof.
  induction s as [|c s IH]; [done|].
  intros H. pose proof (noUnderscoreRun_tail _ _ H) as Hs. specialize (IH Hs).
  destruct s as [|c' s']; [simpl; by destruct (Js.isChar "_" c)|].
  change (Js.dropTrailing "_" (String c (String c' s')))
    with (String c (Js.dropTrailing "_" (String c' s'))).
  cbn [Spec.noUnderscoreRun]. rewrite IH, andb_true_r.
  simpl in H. apply andb_true_iff in H as [H _].
  destruct (firstChar_after_dropTrailing "_" (String c' s')) as [->|[a Ha]]; [done|done|].
  injection Ha as -> ->. simpl.
  destruct (Js.isChar "_" a); simpl; [by rewrite andb_false_r|done].
Qed.

Lemma firstChar_dropLeading s :
  Spec.noUnderscoreRun s = true →
  Spec.isUnderscoreAt (Spec.firstChar (Js.dropLeading "_" s)) = false.
Proof.
  destruct s as [|c s]; [done|]. simpl.
  intros [H _]%andb_true_iff.
  destruct (Js.isChar "_" c) eqn:Ec; simpl.
  - unfold Spec.isUnderscore in H at 1. rewrite Ec in H. simpl in H.
    by apply negb_true_iff in H.
  - done.
Qed.

Lemma lastChar_dropTrailing s :
  Spec.noUnderscoreRun s = true →
  Spec.isUnderscoreAt (Spec.lastChar (Js.dropTrailing "_" s)) = false.
Proof.
  induction s as [|c s IH]; [done|].
  intros H. pose proof (noUnderscoreRun_tail _ _ H) as Hs. specialize (IH Hs).
  destruct s as [|c' s']; [simpl; by destruct (Js.isChar "_" c) eqn:E|].
  change (Js.dropTrailing "_" (String c (String c' s')))
    with (String c (Js.dropTrailing "_" (String c' s'))).
  destruct (Js.dropTrailing "_" (String c' s')) as [|a t] eqn:Ed; [|exact IH].
  (* the tail was a single underscore *)
  destruct s' as [|c'' s'']; simpl in Ed; [|discriminate].
  destruct (Js.isChar "_" c') eqn:Ec'; [|discriminate].
  simpl in H. unfold Spec.isUnderscore in H. rewrite Ec' in H. simpl in H.
  rewrite !andb_true_r in H. simpl. unfold Spec.isUnderscore.
  by apply negb_true_iff in H.
Qed.

Lemma firstChar_substring0 n s :
  Spec.firstChar (Js.substring0 n s) = Spec.firstChar s
  ∨ Spec.firstChar (Js.substring0 n s) = None.
Proof. destruct n, s; simpl; auto. Qed.

Lemma noUnderscoreRun_substring0 n : ∀ s,
  Spec.noUnderscoreRun s = true → Spec.noUnderscoreRun (Js.substring0 n s) = true.
Proof.
  induction n as [|n IH]; intros [|c s]; try done.
  intros H. pose proof (noUnderscoreRun_tail _ _ H) as Hs.
  change (Js.substring0 (S n) (String c s)) with (String c (Js.substring0 n s)).
  cbn [Spec.noUnderscoreRun]. rewrite (IH s Hs), andb_true_r.
  simpl in H. apply andb_true_iff in H as [H _].
  destruct (firstChar_substring0 n s) as [-> | ->]; [done|].
  simpl. by rewrite andb_false_r.
Qed.

Lemma length_substring0 n : ∀ s,
  (n ≤ String.length s)%nat → String.length (Js.substring0 n s) = n.
Proof.
  induction n as [|n IH]; intros [|c s]; simpl; try done; try lia.
  intros H. f_equal. apply IH. lia.
Qed.

(** The file name of the page reporter, for any host and path. *)
Lemma reporter_file_name_shape (s : string) :
  let collapsed := Js.trimUnderscore (Js.collapseUnderscores (Js.replaceOutside Js.isAlnum s)) in
  let capped :=
    if (100 <? String.length collapsed)%nat then Js.substring0 100 collapsed else collapsed in
  let r := Js.orElse capped "homepage" in
  Spec.madeOf Js.isAlnum r = true
  ∧ Spec.noUnderscoreRun r = true
  ∧ Spec.isUnderscoreAt (Spec.firstChar r) = false
  ∧ (100 <=? String.length r)%nat || negb (Spec.isUnderscoreAt (Spec.lastChar r)) = true
  ∧ (String.length r ≤ 100)%nat
  ∧ r ≠ "".
Proof.
  intros collapsed capped r.
  assert (Hm : Spec.madeOf Js.isAlnum collapsed = true).
  { apply madeOf_dropTrailing, madeOf_dropLeading, madeOf_collapse, madeOf_replaceOutside. }
  assert (Hn : Spec.noUnderscoreRun collapsed = true).
  { apply noUnderscoreRun_dropTrailing, noUnderscoreRun_dropLeading, noUnderscoreRun_collapse. }
  assert (Hf : Spec.isUnderscoreAt (Spec.firstChar collapsed) = false).
  { apply firstChar_dropTrailing, firstChar_dropLeading, noUnderscoreRun_collapse. }
  assert (Hl : Spec.isUnderscoreAt (Spec.lastChar collapsed) = false).
  { apply lastChar_dropTrailing, noUnderscoreRun_dropLeading, noUnderscoreRun_collapse. }
  assert (Hc : Spec.madeOf Js.isAlnum capped = true
               ∧ Spec.noUnderscoreRun capped = true
               ∧ Spec.isUnderscoreAt (Spec.firstChar capped) = false
               ∧ (100 <=? String.length capped)%nat
                 || negb (Spec.isUnderscoreAt (Spec.lastChar capped)) = true
               ∧ (String.length capped ≤ 100)%nat).
  { unfold capped. destruct (Nat.ltb_spec 100 (String.length collapsed)) as [Hlt|Hge].
    - repeat split.
      + by apply madeOf_substring0.
      + by apply noUnderscoreRun_substring0.
      + destruct (firstChar_substring0 100 collapsed) as [-> | ->]; done.
      + rewrite length_substring0 by lia. done.
      + rewrite length_substring0 by lia. done.
    - repeat split; try done. rewrite Hl. simpl. apply orb_true_r. }
  destruct Hc as (C1 & C2 & C3 & C4 & C5).
  unfold r. destruct capped as [|c t] eqn:E; [vm_compute; repeat split; [lia|done]|].
  simpl. repeat split; done.
Qed.

(** The file name of the two testers, for any host and path. *)
Lemma tester_file_name_shape (s : string) :
  let r :=
    Js.orElse
      (Js.trimUnderscore (Js.collapseUnderscores (Js.replaceOutside Baseline.isSafeChar s)))
      "index" in
  Spec.madeOf Baseline.isSafeChar r = true
  ∧ Spec.noUnderscoreRun r = true
  ∧ Spec.isUnderscoreAt (Spec.firstChar r) = false
  ∧ Spec.isUnderscoreAt (Spec.lastChar r) = false
  ∧ r ≠ "".
Proof.
  intros r. unfold r.
  set (t := Js.trimUnderscore _).
  assert (Hm : Spec.madeOf Baseline.isSafeChar t = true).
  { apply madeOf_dropTrailing, madeOf_dropLeading, madeOf_collapse, madeOf_replaceOutside. }
  assert (Hn : Spec.noUnderscoreRun t = true).
  { apply noUnderscoreRun_dropTrailing, noUnderscoreRun_dropLeading, noUnderscoreRun_collapse. }
  assert (Hf : Spec.isUnderscoreAt (Spec.firstChar t) = false).
  { apply firstChar_dropTrailing, firstChar_dropLeading, noUnderscoreRun_collapse. }
  assert (Hl : Spec.isUnderscoreAt (Spec.lastChar t) = false).
  { apply lastChar_dropTrailing, noUnderscoreRun_dropLeading, noUnderscoreRun_collapse. }
  destruct t as [|c t']; [vm_compute; repeat split; done|].
  simpl. repeat split; done.
Qed.

(** C8 (as amended): the snapshot file name is a function of the host
    name followed by the path of the URL.  In the page reporter every
    character that is not a letter or a digit becomes an underscore,
    runs of underscores are collapsed, an underscore at either end is
    removed, the result is cut to 100 characters and an empty result
    becomes [homepage].  In the baseline tester and in the reduced
    tester the dot and the hyphen are kept as well, there is no length
    cap, and the placeholder is [index].  Two URLs with the same host
    and path get the same file name. *)
Theorem safe_file_name_shape (newURL : string -> option string -> option Url.URL)
    (url url' : string) (o o' : Url.URL) :
  newURL url None = Some o →
  newURL url' None = Some o' →
  Url.hostname o +:+ Url.pathname o = Url.hostname o' +:+ Url.pathname o' →
  let r := Reporter.createSafeFileName newURL url in
  let b := Baseline.createSafeFileName newURL url in
  let collapsed keep :=
    Js.trimUnderscore
      (Js.collapseUnderscores (Js.replaceOutside keep (Url.hostname o +:+ Url.pathname o))) in
  (r = Js.orElse (if (100 <? String.length (collapsed Js.isAlnum))%nat
                  then Js.substring0 100 (collapsed Js.isAlnum)
                  else collapsed Js.isAlnum) "homepage"
   ∧ Spec.madeOf Js.isAlnum r = true
   ∧ Spec.noUnderscoreRun r = true
   ∧ Spec.isUnderscoreAt (Spec.firstChar r) = false
   ∧ (100 <=? String.length r)%nat || negb (Spec.isUnderscoreAt (Spec.lastChar r)) = true
   ∧ (String.length r ≤ 100)%nat
   ∧ r ≠ ""
   ∧ Reporter.createSafeFileName newURL url' = r)
  ∧ (b = Js.orElse (collapsed Baseline.isSafeChar) "index"
     ∧ Spec.madeOf Baseline.isSafeChar b = true
     ∧ Spec.noUnderscoreRun b = true
     ∧ Spec.isUnderscoreAt (Spec.firstChar b) = false
     ∧ Spec.isUnderscoreAt (Spec.lastChar b) = false
     ∧ b ≠ ""
     ∧ Baseline.createSafeFileName newURL url' = b)
  ∧ UiTester.createSafeFileName newURL url = b.
Proof.
  intros Ho Ho' Heq r b collapsed.
  unfold r, b, Reporter.createSafeFileName, Baseline.createSafeFileName,
    UiTester.createSafeFileName.
  rewrite Ho, Ho', <- Heq.
  pose proof (reporter_file_name_shape (Url.hostname o +:+ Url.pathname o))
    as (R1 & R2 & R3 & R4 & R5 & R6).
  pose proof (tester_file_name_shape (Url.hostname o +:+ Url.pathname o))
    as (T1 & T2 & T3 & T4 & T5).
  cbv zeta in R1, R2, R3, R4, R5, R6, T1, T2, T3, T4, T5.
  repeat split; done.
Qed.

(** Two product pages that differ by their query string. *)
Lemma safe_file_name_shape_witness :
  Reporter.createSafeFileName Url.parse Scenario.p1 = "h_com_p"
  ∧ Reporter.createSafeFileName Url.parse Scenario.p2 = "h_com_p"
  ∧ Baseline.createSafeFileName Url.parse Scenario.p1 = "h.com_p"
  ∧ Baseline.createSafeFileName Url.parse Scenario.p2 = "h.com_p"
  ∧ UiTester.createSafeFileName Url.parse Scenario.p1 = "h.com_p".
Proof.
  pose proof (safe_file_name_shape Url.parse Scenario.p1 Scenario.p2
                (Url.mkURL "https" (Some "h.com") None "/p" (Some "x=1") None)
                (Url.mkURL "https" (Some "h.com") None "/p" (Some "x=2") None)
                eq_refl eq_refl eq_refl)
    as ((R & _ & _ & _ & _ & _ & _ & R') & (B & _ & _ & _ & _ & _ & B') & U).
  cbv zeta in R, R', B, B', U.
  rewrite U, B', R'.
  split; [exact R|]. split; [exact R|]. split; [exact B|]. split; [exact B|exact B].
Defined.

(** C8 fails as stated for the two testers: the dots of the host name
    and the hyphens of the path stay in the file name, and a long path
    gives a file name of more than 100 characters. *)
Lemma tester_file_name_keeps_dots :
  let name := UiTester.createSafeFileName Url.parse "https://www.h.com/a-b/c?d" in
  name = "www.h.com_a-b_c"
  ∧ Spec.madeOf Js.isAlnum name = false
  ∧ Baseline.createSafeFileName Url.parse "https://www.h.com/a-b/c?d" = name
  ∧ String.length
      (UiTester.createSafeFileName Url.parse
         ("https://h.com/" +:+ String.concat "/" (repeat "0123456789" 10)))
    = 115%nat.
Proof. vm_compute. repeat split. Qed.

(** ** The frontier *)

Local Open Scope list_scope.

Lemma includes_spec (xs : list string) (x : string) :
  Js.includes xs x = true ↔ x ∈ xs.
Proof.
  unfold Js.includes. rewrite existsb_exists. split.
  - intros (y & Hy & ->%String.eqb_eq). by apply list_elem_of_In.
  - intros H. exists x. split; [by apply list_elem_of_In|apply String.eqb_refl].
Qed.

Lemma includes_false (xs : list string) (x : string) :
  Js.includes xs x = false ↔ x ∉ xs.
Proof. rewrite <- includes_spec. by destruct (Js.includes xs x). Qed.

Lemma setAdd_fresh (xs : list string) (x : string) :
  Js.includes xs x = false → Js.setAdd xs x = xs ++ [x].
Proof. unfold Js.setAdd. by intros ->. Qed.

Lemma NoDup_snoc (xs : list string) (x : string) :
  NoDup xs → x ∉ xs → NoDup (xs ++ [x]).
Proof.
  intros Hxs Hx. apply NoDup_app. repeat split; [done| |apply NoDup_singleton].
  intros y Hy ->%list_elem_of_singleton. done.
Qed.

(** A loop invariant holds after any number of iterations. *)
Lemma iterate_invariant {S : Type} (body : S → Js.Step S) (Inv : S → Prop) :
  (∀ s s', Inv s → body s = Js.Next s' → Inv s') →
  ∀ n s s', Inv s → Js.iterate body n s = Some s' → Inv s'.
Proof.
  intros Hstep. induction n as [|n IH]; intros s s' Hs; simpl.
  - by intros [= <-].
  - destruct (body s) as [s1| |] eqn:E; [|done|done].
    apply IH. by eapply Hstep.
Qed.

Lemma iterate_add {S : Type} (body : S → Js.Step S) (m k : nat) : ∀ s,
  Js.iterate body (m + k) s
  = match Js.iterate body m s with
    | Some s' => Js.iterate body k s'
    | None => None
    end.
Proof.
  induction m as [|m IH]; intros s; simpl; [done|].
  destruct (body s); [apply IH|done|done].
Qed.

(** A relation that every iteration respects holds between a state and
    any later one. *)
Lemma iterate_relation {S : Type} (body : S → Js.Step S) (R : S → S → Prop) :
  (∀ s, R s s) → (∀ s1 s2 s3, R s1 s2 → R s2 s3 → R s1 s3) →
  (∀ s s', body s = Js.Next s' → R s s') →
  ∀ k s s', Js.iterate body k s = Some s' → R s s'.
Proof.
  intros Hrefl Htrans Hstep. induction k as [|k IH]; intros s s'; simpl.
  - intros [= <-]. apply Hrefl.
  - destruct (body s) as [s1| |] eqn:E; [|done|done].
    intros Hk. eapply Htrans; [by apply Hstep|by apply IH].
Qed.

Lemma keeps_refl (visited queue : list string) : Spec.keeps visited queue visited queue.
Proof. split; auto. Qed.

Lemma keeps_trans (v1 q1 v2 q2 v3 q3 : list string) :
  Spec.keeps v1 q1 v2 q2 → Spec.keeps v2 q2 v3 q3 → Spec.keeps v1 q1 v3 q3.
Proof.
  intros [Hv Hq] [Hv' Hq']. split; [auto|].
  intros u [Hu|Hu]%Hq; [left; auto|auto].
Qed.

Section Frontier.

Variable newURL : string -> option string -> option Url.URL.

(** The link loop only queues URLs that are neither visited nor queued. *)
Lemma offer_frontier domain currentUrl (visited queue : list string) link :
  NoDup queue → (∀ u, u ∈ queue → u ∉ visited) →
  let queue' := Baseline.offer newURL domain currentUrl visited queue link in
  NoDup queue' ∧ (∀ u, u ∈ queue' → u ∉ visited).
Proof.
  intros Hq Hv. unfold Baseline.offer.
  destruct (Baseline.normalizeUrl newURL link currentUrl) as [n|]; [|done].
  destruct (Js.nonEmpty n); simpl; [|done].
  destruct (bool_decide _); simpl; [|done].
  destruct (Js.includes visited n) eqn:Ev; simpl; [done|].
  destruct (Js.includes queue n) eqn:Eq; simpl; [done|].
  apply includes_false in Ev, Eq. split.
  - by apply NoDup_snoc.
  - intros u [Hu| ->%list_elem_of_singleton]%elem_of_app; [by apply Hv|done].
Qed.

Lemma offers_frontier domain currentUrl (visited : list string) links :
  ∀ queue, NoDup queue → (∀ u, u ∈ queue → u ∉ visited) →
  let queue' := fold_left (Baseline.offer newURL domain currentUrl visited) links queue in
  NoDup queue' ∧ (∀ u, u ∈ queue' → u ∉ visited).
Proof.
  induction links as [|link links IH]; intros queue Hq Hv; simpl; [done|].
  destruct (offer_frontier domain currentUrl visited queue link Hq Hv) as [Hq' Hv'].
  by apply IH.
Qed.

Lemma errorInfo_record startUrl currentUrl message info :
  Baseline.errorInfo newURL startUrl currentUrl message = Some info →
  Baseline.url info = currentUrl ∧ Baseline.status info = Baseline.error.
Proof.
  unfold Baseline.errorInfo. destruct (newURL currentUrl None); [|done].
  by intros [= <-].
Qed.

Lemma successInfo_record startUrl currentUrl t c shotPath info :
  Baseline.successInfo newURL startUrl currentUrl t c shotPath = Some info →
  Baseline.url info = currentUrl ∧ Baseline.status info = Baseline.success.
Proof.
  unfold Baseline.successInfo. destruct (newURL currentUrl None); [|done].
  by intros [= <-].
Qed.

Lemma successPages_snoc (ps : list Baseline.PageInfo) (p : Baseline.PageInfo) :
  Baseline.successPages (ps ++ [p])
  = Baseline.successPages ps
      ++ match Baseline.status p with Baseline.success => [p] | Baseline.error => [] end.
Proof.
  unfold Baseline.successPages. rewrite List.filter_app. simpl.
  by destruct (Baseline.status p).
Qed.

Lemma successPages_subset (ps : list Baseline.PageInfo) (p : Baseline.PageInfo) :
  p ∈ Baseline.successPages ps → p ∈ ps.
Proof.
  unfold Baseline.successPages. rewrite !list_elem_of_In, filter_In. tauto.
Qed.

(** the records after an iteration that visited [currentUrl] *)
Lemma records_frontier (visited : list string) (ps new : list Baseline.PageInfo)
    (currentUrl : string) :
  (∀ p, p ∈ new → Baseline.url p = currentUrl) →
  NoDup (map Baseline.url (Baseline.successPages new)) →
  currentUrl ∉ visited →
  (∀ p, p ∈ ps → Baseline.url p ∈ visited) →
  NoDup (map Baseline.url (Baseline.successPages ps)) →
  (∀ p, p ∈ ps ++ new → Baseline.url p ∈ visited ++ [currentUrl])
  ∧ NoDup (map Baseline.url (Baseline.successPages (ps ++ new))).
Proof.
  intros Hnew Hnd Hfresh Hps Hsucc. split.
  - intros p [Hp|Hp]%elem_of_app; apply elem_of_app.
    + left. by apply Hps.
    + right. apply list_elem_of_singleton. by apply Hnew.
  - assert (Happ : Baseline.successPages (ps ++ new)
                   = Baseline.successPages ps ++ Baseline.successPages new)
      by apply List.filter_app.
    rewrite Happ, map_app.
    apply NoDup_app. repeat split; [done| |done].
    intros u (p & -> & Hp)%list_elem_of_fmap (q & Hq & Hq')%list_elem_of_fmap.
    apply successPages_subset in Hp, Hq'.
    apply Hfresh. rewrite <- (Hnew q Hq'), <- Hq. by apply Hps.
Qed.

Lemma queue_after_visit (visited rest : list string) (cur : string) :
  NoDup visited → NoDup (cur :: rest) → (∀ u, u ∈ cur :: rest → u ∉ visited) →
  NoDup (visited ++ [cur]) ∧ NoDup rest ∧ (∀ u, u ∈ rest → u ∉ visited ++ [cur]).
Proof.
  intros Hv [Hcur Hrest]%NoDup_cons Hd. repeat split; [|done|].
  - apply NoDup_snoc; [done|]. apply Hd, list_elem_of_here.
  - intros u Hu [Hin| ->%list_elem_of_singleton]%elem_of_app; [|done].
    by apply (Hd u); [apply list_elem_of_further|].
Qed.

(** One iteration of the baseline crawl keeps the frontier in order. *)
Lemma baseline_step_frontier browser dir ts startUrl domain st st' :
  Spec.baselineFrontier st →
  Baseline.step newURL browser dir ts startUrl domain st = Js.Next st' →
  Spec.baselineFrontier st'.
Proof.
  intros (Hv & Hq & Hd & Hp & Hs). unfold Baseline.step.
  destruct (Baseline.urlsToVisit st) as [|cur rest] eqn:Equeue; [done|].
  destruct (Js.includes (Baseline.visitedUrls st) cur) eqn:Einc.
  { intros [= <-]. apply NoDup_cons in Hq as [_ Hq].
    repeat split; simpl; try done.
    intros u Hu. by apply Hd, list_elem_of_further. }
  rewrite (setAdd_fresh _ _ Einc).
  destruct (queue_after_visit _ _ _ Hv Hq Hd) as (Hv' & Hq' & Hd').
  assert (Hfresh : cur ∉ Baseline.visitedUrls st) by (by apply includes_false).
  destruct (browser _ _) as [message|t c img message|t c img links].
  - destruct (Baseline.errorInfo _ _ _ _) as [info|] eqn:Einfo; [|done].
    intros [= <-]. apply errorInfo_record in Einfo as [Hurl Hstatus].
    destruct (records_frontier (Baseline.visitedUrls st) (Baseline.pages st) [info] cur)
      as [Hp' Hs']; try done.
    + by intros p ->%list_elem_of_singleton.
    + unfold Baseline.successPages; simpl. rewrite Hstatus. constructor.
  - destruct (Baseline.successInfo _ _ _ _ _ _) as [info|] eqn:Einfo; [|done].
    destruct (Baseline.errorInfo _ _ _ _) as [info2|] eqn:Einfo2; [|done].
    intros [= <-]. apply errorInfo_record in Einfo2 as [Hurl2 Hstatus2].
    apply successInfo_record in Einfo as [Hurl Hstatus].
    destruct (records_frontier (Baseline.visitedUrls st) (Baseline.pages st)
                [info; info2] cur) as [Hp' Hs']; try done.
    + intros p [->| ->%list_elem_of_singleton]%elem_of_cons; done.
    + unfold Baseline.successPages; simpl. rewrite Hstatus, Hstatus2. simpl.
      apply NoDup_singleton.
    + simpl. rewrite <- app_assoc. simpl. done.
  - destruct (Baseline.successInfo _ _ _ _ _ _) as [info|] eqn:Einfo; [|done].
    intros [= <-]. apply successInfo_record in Einfo as [Hurl Hstatus].
    destruct (records_frontier (Baseline.visitedUrls st) (Baseline.pages st) [info] cur)
      as [Hp' Hs']; try done.
    + by intros p ->%list_elem_of_singleton.
    + unfold Baseline.successPages; simpl. rewrite Hstatus. apply NoDup_singleton.
    + destruct (offers_frontier domain cur (Baseline.visitedUrls st ++ [cur]) links
                  rest Hq' Hd') as [Hq'' Hd''].
      done.
Qed.

Lemma settle_url folder cur v detail :
  Reporter.url (Reporter.settle newURL folder cur v detail) = Reporter.url detail.
Proof. by destruct v. Qed.

(** One iteration of the page reporter keeps its frontier in order. *)
Lemma reporter_step_frontier browser folder hostname st st' :
  Spec.reporterFrontier st →
  Reporter.step newURL browser folder hostname st = Js.Next st' →
  Spec.reporterFrontier st'.
Proof.
  intros (Hv & Hdet). unfold Reporter.step.
  destruct (Reporter.toVisit st) as [|cur rest]; [done|].
  destruct (Js.includes (Reporter.visited st) cur) eqn:Einc; [by intros [= <-]|].
  rewrite (setAdd_fresh _ _ Einc).
  destruct (newURL cur None) as [urlObj|]; [|done].
  intros [= <-]. split; simpl.
  - apply NoDup_snoc; [done|]. by apply includes_false.
  - rewrite map_app, Hdet. simpl. by rewrite settle_url.
Qed.

(** What an iteration of the page reporter appends to the queue was
    not visited. *)
Lemma reporter_step_queue browser folder hostname st st' :
  Reporter.step newURL browser folder hostname st = Js.Next st' →
  ∃ new, Reporter.toVisit st' = tail (Reporter.toVisit st) ++ new
         ∧ ∀ u, u ∈ new → u ∉ Reporter.visited st'.
Proof.
  unfold Reporter.step.
  destruct (Reporter.toVisit st) as [|cur rest]; [done|].
  destruct (Js.includes (Reporter.visited st) cur) eqn:Einc.
  { intros [= <-]. exists []. simpl. rewrite app_nil_r. split; [done|].
    intros u Hu. by apply elem_of_nil in Hu. }
  destruct (newURL cur None) as [urlObj|]; [|done].
  intros [= <-]. eexists. split; [reflexivity|]. simpl.
  intros u Hu. destruct (browser _ _) as [|t c links shot]; [by apply elem_of_nil in Hu|].
  apply list_elem_of_In, filter_In in Hu as [_ Hu].
  apply negb_true_iff in Hu. by apply includes_false.
Qed.

Lemma offers_superset domain currentUrl (visited : list string) links :
  ∀ queue u, u ∈ queue →
  u ∈ fold_left (Baseline.offer newURL domain currentUrl visited) links queue.
Proof.
  induction links as [|link links IH]; intros queue u Hu; simpl; [done|].
  apply IH. unfold Baseline.offer.
  destruct (Baseline.normalizeUrl _ _ _); [|done].
  destruct (_ && _); [|done].
  apply elem_of_app. by left.
Qed.

(** An iteration of the baseline crawl forgets no URL. *)
Lemma baseline_step_keeps browser dir ts startUrl domain st st' :
  Baseline.step newURL browser dir ts startUrl domain st = Js.Next st' →
  Spec.keeps (Baseline.visitedUrls st) (Baseline.urlsToVisit st)
    (Baseline.visitedUrls st') (Baseline.urlsToVisit st').
Proof.
  unfold Baseline.step.
  destruct (Baseline.urlsToVisit st) as [|cur rest]; [done|].
  destruct (Js.includes (Baseline.visitedUrls st) cur) eqn:Einc.
  { intros [= <-]. split; simpl; [done|].
    intros u [->|Hu]%elem_of_cons; [left; by apply includes_spec|by right]. }
  rewrite (setAdd_fresh _ _ Einc).
  assert (Hkeep : ∀ queue' pages' disk',
             (∀ u, u ∈ rest → u ∈ queue') →
             Spec.keeps (Baseline.visitedUrls st) (cur :: rest)
               (Baseline.visitedUrls
                  (Baseline.mkCrawl (Baseline.visitedUrls st ++ [cur]) queue' pages' disk'))
               (Baseline.urlsToVisit
                  (Baseline.mkCrawl (Baseline.visitedUrls st ++ [cur]) queue' pages' disk'))).
  { intros queue' pages' disk' Hrest. split; simpl.
    - intros u Hu. apply elem_of_app. by left.
    - intros u [->|Hu]%elem_of_cons; [left|right; by apply Hrest].
      apply elem_of_app. right. apply list_elem_of_here. }
  destruct (browser _ _) as [message|t c img message|t c img links].
  - destruct (Baseline.errorInfo _ _ _ _); [|done]. intros [= <-]. by apply Hkeep.
  - destruct (Baseline.successInfo _ _ _ _ _ _); [|done].
    destruct (Baseline.errorInfo _ _ _ _); [|done]. intros [= <-]. by apply Hkeep.
  - destruct (Baseline.successInfo _ _ _ _ _ _); [|done]. intros [= <-].
    apply Hkeep. intros u Hu. by apply offers_superset.
Qed.

(** An iteration of the page reporter forgets no URL. *)
Lemma reporter_step_keeps browser folder hostname st st' :
  Reporter.step newURL browser folder hostname st = Js.Next st' →
  Spec.keeps (Reporter.visited st) (Reporter.toVisit st)
    (Reporter.visited st') (Reporter.toVisit st').
Proof.
  unfold Reporter.step.
  destruct (Reporter.toVisit st) as [|cur rest]; [done|].
  destruct (Js.includes (Reporter.visited st) cur) eqn:Einc.
  { intros [= <-]. split; simpl; [done|].
    intros u [->|Hu]%elem_of_cons; [left; by apply includes_spec|by right]. }
  rewrite (setAdd_fresh _ _ Einc).
  destruct (newURL cur None) as [urlObj|]; [|done].
  intros [= <-]. split; simpl.
  - intros u Hu. apply elem_of_app. by left.
  - intros u [->|Hu]%elem_of_cons; [left|right].
    + apply elem_of_app. right. apply list_elem_of_here.
    + apply elem_of_app. by left.
Qed.

(** C1 (as amended): in both crawlers a URL is navigated at most once
    per run, and a URL that is already visited is never added to the
    pending queue.  In the baseline crawl a URL already pending is
    not added either: the queue holds no URL twice and none that was
    visited, and no URL gets two success records.  The page reporter
    filters the discovered links against the visited set only, and
    skips a URL it dequeues a second time; it keeps one record per
    visited URL.  Neither crawler forgets a URL: what was pending at
    some iteration is visited or still pending at any later one, so a
    run that empties its queue has visited everything it had queued. *)
Theorem frontier_visits_once :
  (∀ browser dir ts startUrl disk0 n st,
      Baseline.crawlAndScreenshot newURL browser dir ts startUrl disk0 n = Some st →
      Spec.baselineFrontier st)
  ∧ (∀ browser folder startUrl n st,
        Reporter.generatePageReport newURL browser folder startUrl n = Some st →
        Spec.reporterFrontier st)
  ∧ (∀ browser folder hostname st st',
        Reporter.step newURL browser folder hostname st = Js.Next st' →
        ∃ new, Reporter.toVisit st' = tail (Reporter.toVisit st) ++ new
               ∧ ∀ u, u ∈ new → u ∉ Reporter.visited st')
  ∧ (∀ browser dir ts startUrl disk0 m k st st',
        Baseline.crawlAndScreenshot newURL browser dir ts startUrl disk0 m = Some st →
        Baseline.crawlAndScreenshot newURL browser dir ts startUrl disk0 (m + k) = Some st' →
        Spec.keeps (Baseline.visitedUrls st) (Baseline.urlsToVisit st)
          (Baseline.visitedUrls st') (Baseline.urlsToVisit st'))
  ∧ (∀ browser folder startUrl m k st st',
        Reporter.generatePageReport newURL browser folder startUrl m = Some st →
        Reporter.generatePageReport newURL browser folder startUrl (m + k) = Some st' →
        Spec.keeps (Reporter.visited st) (Reporter.toVisit st)
          (Reporter.visited st') (Reporter.toVisit st')).
Proof.
  split; [|split; [|split; [|split]]]; cycle 3.
  - intros browser dir ts startUrl disk0 m k st st'.
    unfold Baseline.crawlAndScreenshot.
    destruct (Baseline.start newURL startUrl disk0) as [[domain st0]|]; [|done].
    rewrite iterate_add. intros ->.
    apply (iterate_relation _
             (fun s s' => Spec.keeps (Baseline.visitedUrls s) (Baseline.urlsToVisit s)
                            (Baseline.visitedUrls s') (Baseline.urlsToVisit s'))).
    + intros s. apply keeps_refl.
    + intros s1 s2 s3. apply keeps_trans.
    + intros s s'. apply baseline_step_keeps.
  - intros browser folder startUrl m k st st'.
    unfold Reporter.generatePageReport.
    destruct (Reporter.start newURL startUrl) as [[hostname st0]|]; [|done].
    rewrite iterate_add. intros ->.
    apply (iterate_relation _
             (fun s s' => Spec.keeps (Reporter.visited s) (Reporter.toVisit s)
                            (Reporter.visited s') (Reporter.toVisit s'))).
    + intros s. apply keeps_refl.
    + intros s1 s2 s3. apply keeps_trans.
    + intros s s'. apply reporter_step_keeps.
  - intros browser dir ts startUrl disk0 n st.
    unfold Baseline.crawlAndScreenshot, Baseline.start.
    destruct (Baseline.getDomain newURL startUrl) as [domain|]; [|done].
    destruct (Js.nonEmpty domain); [|done].
    apply (iterate_invariant _ Spec.baselineFrontier).
    + intros s s'. apply baseline_step_frontier.
    + repeat split; simpl; try constructor; try apply NoDup_nil_2.
      * apply not_elem_of_nil.
      * intros u _. apply not_elem_of_nil.
      * intros p Hp. by apply elem_of_nil in Hp.
  - intros browser folder startUrl n st.
    unfold Reporter.generatePageReport, Reporter.start.
    destruct (newURL startUrl None) as [u|]; [|done].
    apply (iterate_invariant _ Spec.reporterFrontier).
    + intros s s'. apply reporter_step_frontier.
    + split; [apply NoDup_nil_2|reflexivity].
  - intros browser folder hostname st st'. apply reporter_step_queue.
Qed.

End Frontier.

(** The shop after its three pages, and the blog after two. *)
Lemma frontier_visits_once_witness :
  match Scenario.shopCrawl 3 with
  | Some st => Spec.baselineFrontier st
  | None => False
  end
  ∧ match Scenario.blogCrawl 2 with
    | Some st => Spec.reporterFrontier st
    | None => False
    end.
Proof.
  destruct (frontier_visits_once Url.parse) as (HB & HR & _ & _ & _). split.
  - destruct (Scenario.shopCrawl 3) as [st|] eqn:E.
    + exact (HB _ _ _ _ _ _ _ E).
    + vm_compute in E. discriminate E.
  - destruct (Scenario.blogCrawl 2) as [st|] eqn:E.
    + exact (HR _ _ _ _ _ E).
    + vm_compute in E. discriminate E.
Defined.

(** C1 fails as stated in the page reporter: the home page links to
    [/a] and [/b] and [/a] links to [/b]; after the visit of [/a] the
    pending queue holds [/b] twice.  The second copy is skipped when it
    is dequeued: three pages are visited and recorded. *)
Lemma reporter_queues_pending_url_again :
  option_map Reporter.toVisit (Scenario.blogCrawl 1)
  = Some ["https://h.com/a"; "https://h.com/b"]
  ∧ option_map Reporter.toVisit (Scenario.blogCrawl 2)
    = Some ["https://h.com/b"; "https://h.com/b"]
  ∧ option_map Reporter.visited (Scenario.blogCrawl 4)
    = Some ["https://h.com/"; "https://h.com/a"; "https://h.com/b"]
  ∧ option_map (fun st => length (Reporter.pageDetails st)) (Scenario.blogCrawl 4)
    = Some 3%nat
  ∧ option_map Reporter.toVisit (Scenario.blogCrawl 4) = Some [].
Proof. vm_compute. repeat split. Qed.

(** ** The baseline store *)

(** The manifest read back from [pages.json] is the one that was saved. *)
Lemma manifest_round_trip dir ts domain (st : Baseline.Crawl) :
  Baseline.loadManifest (Baseline.saveManifest dir ts domain st)
    (Baseline.folderPath dir ts domain)
  = Some (Baseline.pages st).
Proof.
  unfold Baseline.loadManifest, Baseline.saveManifest.
  by rewrite lookup_insert_eq.
Qed.

(** C9 at a shop whose two product pages differ by their query string:
    the saved manifest is read back with its three records, but the two
    product records name the same file, which holds the screenshot of
    the second page; the first record no longer leads to the image that
    was captured for it, and a comparison against the unchanged site
    reports that page as changed. *)
Theorem colliding_snapshot_is_overwritten :
  match Scenario.shopBaseline with
  | Some d =>
      match Baseline.loadManifest d Scenario.shopFolder with
      | Some pages =>
          option_map Baseline.pages (Scenario.shopCrawl 3) = Some pages
          ∧ map (fun p => (Baseline.url p, Baseline.screenshotPath p)) pages
            = [ (Scenario.home, Some "baseline/h.com-2024-05-01T10-00-00/h.com.png");
                (Scenario.p1, Some "baseline/h.com-2024-05-01T10-00-00/h.com_p.png");
                (Scenario.p2, Some "baseline/h.com-2024-05-01T10-00-00/h.com_p.png") ]
          ∧ Scenario.shop 1 Scenario.p1
          = Baseline.Captured "One" None Scenario.img1
              [Scenario.p2; Scenario.home; "https://h.com/p?x=1#top"]
          ∧ d !! "baseline/h.com-2024-05-01T10-00-00/h.com_p.png"
            = Some (PngFile Scenario.img2)
          ∧ Scenario.img1 ≠ Scenario.img2
          ∧ Baseline.changedPages (Scenario.compareBaseline Scenario.shopCamera d pages)
            = [ Baseline.mkChanged Scenario.p1 "baseline/run/compare_1/h.com_p_diff.png"
                  "100.00" ]
      | None => False
      end
  | None => False
  end.
Proof. vm_compute. repeat split. discriminate. Qed.

(** ** The examples of the specification *)

(** The start page with two in-domain links and one external link
    leaves two URLs pending. *)
Example two_internal_links_pending :
  option_map Baseline.urlsToVisit (Scenario.shopCrawl 1) = Some [Scenario.p1; Scenario.p2].
Proof. reflexivity. Qed.

(** Depth and type of the site root and of a page two segments deep. *)
Example classifier_examples :
  Baseline.getPathDepth Url.parse "https://site.com/" = 0%nat
  ∧ Baseline.getPathDepth Url.parse "https://site.com/a/b" = 2%nat
  ∧ Reporter.categorizePage Url.parse "https://site.com/" "site.com" = Reporter.main
  ∧ Reporter.categorizePage Url.parse "https://site.com/a/b" "site.com" = Reporter.sub.
Proof. vm_compute. repeat split. Qed.

(** ** The baseline crawl: domain, progress, order and records *)

Lemma iterate_succ {S : Type} (body : S → Js.Step S) (n : nat) (s s' : S) :
  Js.iterate body n s = Some s' →
  Js.iterate body (Datatypes.S n) s
  = match body s' with Js.Next s'' => Some s'' | _ => None end.
Proof.
  intros Hn. rewrite <- Nat.add_1_r, iterate_add, Hn. simpl.
  by destruct (body s').
Qed.

Lemma lastChar_append (s t : string) :
  t ≠ EmptyString → Spec.lastChar (s +:+ t) = Spec.lastChar t.
Proof.
  intros Ht. induction s as [|c s IH]; [done|].
  simpl. destruct (s +:+ t) eqn:E; [|done].
  destruct s; simpl in E; [done|discriminate].
Qed.

Lemma snapshot_is_not_the_manifest (folder name : string) :
  Baseline.pathJoin folder (name +:+ ".png") ≠ Baseline.pathJoin folder "pages.json".
Proof.
  unfold Baseline.pathJoin. intros H.
  apply (inj (String.app folder)), (inj (String.app "/")) in H.
  assert (Hl : Spec.lastChar (name +:+ ".png") = Spec.lastChar "pages.json") by by rewrite H.
  rewrite lastChar_append in Hl by done. discriminate Hl.
Qed.

Section BaselineCrawl.

Variable newURL : string -> option string -> option Url.URL.
Variable browser : nat -> string -> Baseline.Capture.
Variables (dir ts startUrl domain : string).

Local Abbreviation step := (Baseline.step newURL browser dir ts startUrl domain).

Lemma offer_domain currentUrl (visited queue : list string) link :
  (∀ u, u ∈ queue → Run.inDomain newURL domain u) →
  ∀ u, u ∈ Baseline.offer newURL domain currentUrl visited queue link →
       Run.inDomain newURL domain u.
Proof.
  intros Hq u. unfold Baseline.offer.
  destruct (Baseline.normalizeUrl newURL link currentUrl) as [n|]; [|apply Hq].
  destruct (Js.nonEmpty n); simpl; [|apply Hq].
  destruct (bool_decide _) eqn:Edom; simpl; [|apply Hq].
  destruct (negb _ && negb _); [|apply Hq].
  intros [Hu| ->%list_elem_of_singleton]%elem_of_app; [by apply Hq|].
  by apply bool_decide_eq_true in Edom.
Qed.

Lemma offers_domain currentUrl (visited : list string) links : ∀ queue,
  (∀ u, u ∈ queue → Run.inDomain newURL domain u) →
  ∀ u, u ∈ fold_left (Baseline.offer newURL domain currentUrl visited) links queue →
       Run.inDomain newURL domain u.
Proof.
  induction links as [|link links IH]; intros queue Hq; simpl; [done|].
  apply IH. by apply offer_domain.
Qed.

(** The link loop appends to the queue. *)
Lemma offers_append currentUrl (visited : list string) links : ∀ queue,
  ∃ new, fold_left (Baseline.offer newURL domain currentUrl visited) links queue
         = queue ++ new.
Proof.
  induction links as [|link links IH]; intros queue; simpl.
  - exists []. by rewrite app_nil_r.
  - destruct (IH (Baseline.offer newURL domain currentUrl visited queue link)) as [new ->].
    unfold Baseline.offer.
    destruct (Baseline.normalizeUrl _ _ _) as [n|]; [|by exists new].
    destruct (_ && _); [|by exists new].
    exists (n :: new). by rewrite <- app_assoc.
Qed.

Lemma baseline_step_domain st st' :
  Run.inDomainAll newURL domain st → step st = Js.Next st' →
  Run.inDomainAll newURL domain st'.
Proof.
  intros Hinv. unfold Baseline.step.
  destruct (Baseline.urlsToVisit st) as [|cur rest] eqn:Equeue; [done|].
  assert (Hcur : Run.inDomain newURL domain cur)
    by (apply Hinv; right; rewrite Equeue; apply list_elem_of_here).
  assert (Hrest : ∀ u, u ∈ rest → Run.inDomain newURL domain u)
    by (intros u Hu; apply Hinv; right; rewrite Equeue; by apply list_elem_of_further).
  destruct (Js.includes (Baseline.visitedUrls st) cur) eqn:Einc.
  { intros [= <-] u [Hu|Hu]; simpl in Hu; [apply Hinv; by left|by apply Hrest]. }
  rewrite (setAdd_fresh _ _ Einc).
  assert (Hkeep : ∀ queue' pages' disk',
             (∀ u, u ∈ queue' → Run.inDomain newURL domain u) →
             Run.inDomainAll newURL domain
               (Baseline.mkCrawl (Baseline.visitedUrls st ++ [cur]) queue' pages' disk')).
  { intros queue' pages' disk' Hq u [Hu|Hu]; simpl in Hu; [|by apply Hq].
    apply elem_of_app in Hu as [Hu| ->%list_elem_of_singleton]; [|done].
    apply Hinv. by left. }
  destruct (browser _ _) as [message|t c img message|t c img links].
  - destruct (Baseline.errorInfo _ _ _ _); [|done]. intros [= <-]. by apply Hkeep.
  - destruct (Baseline.successInfo _ _ _ _ _ _); [|done].
    destruct (Baseline.errorInfo _ _ _ _); [|done]. intros [= <-]. by apply Hkeep.
  - destruct (Baseline.successInfo _ _ _ _ _ _); [|done]. intros [= <-].
    apply Hkeep. by apply offers_domain.
Qed.

(** A URL of the domain can be parsed, so both records can be built. *)
Lemma inDomain_parses u :
  Run.inDomain newURL domain u → ∃ o, newURL u None = Some o.
Proof.
  unfold Run.inDomain, Baseline.getDomain.
  destruct (newURL u None) as [o|]; [by exists o|done].
Qed.

Lemma baseline_step_continues st :
  Run.inDomainAll newURL domain st → Baseline.urlsToVisit st ≠ [] →
  ∃ st', step st = Js.Next st'.
Proof.
  intros Hinv Hne. unfold Baseline.step.
  destruct (Baseline.urlsToVisit st) as [|cur rest] eqn:Equeue; [done|].
  destruct (inDomain_parses cur) as [o Ho];
    [apply Hinv; right; rewrite Equeue; apply list_elem_of_here|].
  destruct (Js.includes _ _); [by eexists|].
  unfold Baseline.errorInfo, Baseline.successInfo. rewrite Ho.
  destruct (browser _ _); by eexists.
Qed.

End BaselineCrawl.

Lemma start_in_domain newURL startUrl disk0 domain st :
  Baseline.start newURL startUrl disk0 = Some (domain, st) →
  Baseline.getDomain newURL startUrl = Some domain
  ∧ st = Baseline.mkCrawl [] [startUrl] [] disk0.
Proof.
  unfold Baseline.start.
  destruct (Baseline.getDomain newURL startUrl) as [dom|]; [|done].
  destruct (Js.nonEmpty dom); [|done]. by intros [= <- <-].
Qed.

Lemma crawl_in_domain newURL browser dir ts startUrl disk0 domain st0 n st :
  Baseline.start newURL startUrl disk0 = Some (domain, st0) →
  Js.iterate (Baseline.step newURL browser dir ts startUrl domain) n st0 = Some st →
  Run.inDomainAll newURL domain st.
Proof.
  intros [Hdom ->]%start_in_domain.
  apply (iterate_invariant _ (Run.inDomainAll newURL domain)).
  - intros s s'. apply baseline_step_domain.
  - intros u [Hu|Hu]; simpl in Hu; [by apply elem_of_nil in Hu|].
    by apply list_elem_of_singleton in Hu as ->.
Qed.

(** X1: the baseline crawl never leaves the domain of its start URL:
    every URL it has visited or holds in its queue parses, and its host
    name is the host name of the start URL. *)
Theorem crawl_stays_in_domain newURL browser dir ts startUrl disk0 n st u :
  Baseline.crawlAndScreenshot newURL browser dir ts startUrl disk0 n = Some st →
  u ∈ Baseline.visitedUrls st ∨ u ∈ Baseline.urlsToVisit st →
  Baseline.getDomain newURL u = Baseline.getDomain newURL startUrl
  ∧ Baseline.getDomain newURL u ≠ None.
Proof.
  unfold Baseline.crawlAndScreenshot.
  destruct (Baseline.start newURL startUrl disk0) as [[domain st0]|] eqn:Estart; [|done].
  intros Hn Hu. pose proof (crawl_in_domain _ _ _ _ _ _ _ _ _ _ Estart Hn u Hu) as Hin.
  apply start_in_domain in Estart as [Hdom _].
  red in Hin. by rewrite Hin, Hdom.
Qed.

(** The shop after the home page: the second product page is pending. *)
Lemma crawl_stays_in_domain_witness :
  Baseline.getDomain Url.parse Scenario.p2 = Baseline.getDomain Url.parse Scenario.home
  ∧ Baseline.getDomain Url.parse Scenario.p2 ≠ None.
Proof.
  destruct (Scenario.shopCrawl 1) as [st|] eqn:E; [|vm_compute in E; discriminate E].
  apply (crawl_stays_in_domain Url.parse Scenario.shop "baseline" "2024-05-01T10-00-00"
           Scenario.home ∅ 1 st Scenario.p2 E).
  right. vm_compute in E. injection E as <-. simpl.
  apply list_elem_of_further, list_elem_of_here.
Defined.

(** X2: no page makes the baseline crawl fail: as long as its queue is
    not empty the loop runs one more iteration, whatever the browser
    does with the page. *)
Theorem crawl_never_throws newURL browser dir ts startUrl disk0 n st :
  Baseline.crawlAndScreenshot newURL browser dir ts startUrl disk0 n = Some st →
  Baseline.urlsToVisit st ≠ [] →
  ∃ st', Baseline.crawlAndScreenshot newURL browser dir ts startUrl disk0 (S n) = Some st'.
Proof.
  unfold Baseline.crawlAndScreenshot.
  destruct (Baseline.start newURL startUrl disk0) as [[domain st0]|] eqn:Estart; [|done].
  intros Hn Hne. rewrite (iterate_succ _ _ _ _ Hn).
  destruct (baseline_step_continues newURL browser dir ts startUrl domain st) as [st' ->];
    [by eapply crawl_in_domain|done|by exists st'].
Qed.

(** The shop after two pages: the third iteration runs. *)
Lemma crawl_never_throws_witness :
  ∃ st', Scenario.shopCrawl 3 = Some st'.
Proof.
  destruct (Scenario.shopCrawl 2) as [st|] eqn:E; [|vm_compute in E; discriminate E].
  apply (crawl_never_throws Url.parse Scenario.shop "baseline" "2024-05-01T10-00-00"
           Scenario.home ∅ 2 st E).
  vm_compute in E. injection E as <-. discriminate.
Defined.

Lemma crawl_frontier newURL browser dir ts startUrl disk0 domain st0 n st :
  Baseline.start newURL startUrl disk0 = Some (domain, st0) →
  Js.iterate (Baseline.step newURL browser dir ts startUrl domain) n st0 = Some st →
  Spec.baselineFrontier st.
Proof.
  intros [_ ->]%start_in_domain.
  apply (iterate_invariant _ Spec.baselineFrontier).
  - intros s s'. apply baseline_step_frontier.
  - repeat split; simpl; try apply NoDup_nil_2.
    + apply NoDup_singleton.
    + intros u _. apply not_elem_of_nil.
    + intros p Hp. by apply elem_of_nil in Hp.
Qed.

Section CrawlOrder.

Variable newURL : string -> option string -> option Url.URL.
Variable browser : nat -> string -> Baseline.Capture.
Variables (dir ts startUrl domain : string).

(** An iteration only appends to the sequence of the visited URLs
    followed by the pending ones. *)
Lemma baseline_step_extends st st' :
  Spec.baselineFrontier st →
  Baseline.step newURL browser dir ts startUrl domain st = Js.Next st' →
  ∃ new, Baseline.visitedUrls st' ++ Baseline.urlsToVisit st'
         = (Baseline.visitedUrls st ++ Baseline.urlsToVisit st) ++ new.
Proof.
  intros (_ & _ & Hd & _). unfold Baseline.step.
  destruct (Baseline.urlsToVisit st) as [|cur rest] eqn:Equeue; [done|].
  destruct (Js.includes (Baseline.visitedUrls st) cur) eqn:Einc.
  { apply includes_spec in Einc. destruct (Hd cur); [apply list_elem_of_here|done]. }
  rewrite (setAdd_fresh _ _ Einc).
  assert (Hnil : (Baseline.visitedUrls st ++ [cur]) ++ rest
                 = (Baseline.visitedUrls st ++ cur :: rest) ++ []).
  { by rewrite app_nil_r, <- app_assoc. }
  destruct (browser _ _) as [message|t c img message|t c img links].
  - destruct (Baseline.errorInfo _ _ _ _); [|done]. intros [= <-]. by exists [].
  - destruct (Baseline.successInfo _ _ _ _ _ _); [|done].
    destruct (Baseline.errorInfo _ _ _ _); [|done]. intros [= <-]. by exists [].
  - destruct (Baseline.successInfo _ _ _ _ _ _); [|done]. intros [= <-]. simpl.
    destruct (offers_append newURL domain cur (Baseline.visitedUrls st ++ [cur]) links rest)
      as [new ->].
    exists new. by rewrite <- !app_assoc.
Qed.

End CrawlOrder.

(** X3: the baseline crawl is breadth-first: the sequence of the
    visited URLs followed by the pending ones only grows at its end, so
    the pages are navigated in the order in which their URLs were
    discovered. *)
Theorem crawl_order_is_discovery_order newURL browser dir ts startUrl disk0 m k st st' :
  Baseline.crawlAndScreenshot newURL browser dir ts startUrl disk0 m = Some st →
  Baseline.crawlAndScreenshot newURL browser dir ts startUrl disk0 (m + k) = Some st' →
  ∃ new, Baseline.visitedUrls st' ++ Baseline.urlsToVisit st'
         = (Baseline.visitedUrls st ++ Baseline.urlsToVisit st) ++ new.
Proof.
  unfold Baseline.crawlAndScreenshot.
  destruct (Baseline.start newURL startUrl disk0) as [[domain st0]|] eqn:Estart; [|done].
  intros Hm. rewrite iterate_add, Hm. intros Hk.
  pose proof (crawl_frontier _ _ _ _ _ _ _ _ _ _ Estart Hm) as Hf.
  set (R := fun s s' : Baseline.Crawl =>
              Spec.baselineFrontier s →
              Spec.baselineFrontier s'
              ∧ ∃ new, Baseline.visitedUrls s' ++ Baseline.urlsToVisit s'
                       = (Baseline.visitedUrls s ++ Baseline.urlsToVisit s) ++ new).
  assert (Hrefl : ∀ s, R s s).
  { intros s Hs. split; [done|]. exists []. by rewrite app_nil_r. }
  assert (Htrans : ∀ s1 s2 s3, R s1 s2 → R s2 s3 → R s1 s3).
  { intros s1 s2 s3 H12 H23 H1.
    destruct (H12 H1) as [H2 [new E2]]. destruct (H23 H2) as [H3 [new' E3]].
    split; [done|]. exists (new ++ new'). by rewrite E3, E2, <- !app_assoc. }
  assert (Hstep : ∀ s s',
             Baseline.step newURL browser dir ts startUrl domain s = Js.Next s' → R s s').
  { intros s s' Hs Hfs. split.
    - by eapply baseline_step_frontier.
    - by eapply baseline_step_extends. }
  by apply (iterate_relation _ R Hrefl Htrans Hstep k st st' Hk).
Qed.

(** The shop: the order known after the home page is the order of the
    visits. *)
Lemma crawl_order_is_discovery_order_witness :
  ∃ new, [Scenario.home; Scenario.p1; Scenario.p2] ++ []
         = ([Scenario.home] ++ [Scenario.p1; Scenario.p2]) ++ new.
Proof.
  destruct (Scenario.shopCrawl 1) as [st|] eqn:E1; [|vm_compute in E1; discriminate E1].
  destruct (Scenario.shopCrawl (1 + 2)) as [st'|] eqn:E3; [|vm_compute in E3; discriminate E3].
  pose proof (crawl_order_is_discovery_order Url.parse Scenario.shop "baseline"
                "2024-05-01T10-00-00" Scenario.home ∅ 1 2 st st' E1 E3) as H.
  vm_compute in E1, E3. injection E1 as <-. injection E3 as <-. exact H.
Defined.

(** ** The records of the manifest and their screenshots *)

Lemma hasSnapshot_insert (d : Baseline.Disk) (path : string) (img : Png.PNG)
    (p : Baseline.PageInfo) :
  Run.hasSnapshot d p → Run.hasSnapshot (<[path := PngFile img]> d) p.
Proof.
  unfold Run.hasSnapshot. destruct (Baseline.screenshotPath p) as [q|]; simpl.
  - intros [img' Hq]. destruct (decide (path = q)) as [->|Hne].
    + exists img. apply lookup_insert_eq.
    + exists img'. by rewrite lookup_insert_ne.
  - by intros [img' ?].
Qed.

Lemma errorRecords_app (ps qs : list Baseline.PageInfo) :
  Run.errorRecords (ps ++ qs) = Run.errorRecords ps ++ Run.errorRecords qs.
Proof. apply List.filter_app. Qed.

Lemma errorRecords_subset (ps : list Baseline.PageInfo) (p : Baseline.PageInfo) :
  p ∈ Run.errorRecords ps → p ∈ ps.
Proof. unfold Run.errorRecords. rewrite !list_elem_of_In, filter_In. tauto. Qed.

Section Records.

Variable newURL : string -> option string -> option Url.URL.
Variable browser : nat -> string -> Baseline.Capture.
Variables (dir ts startUrl domain : string).

Local Abbreviation shotPathOf cur :=
  (Baseline.pathJoin (Baseline.folderPath dir ts domain)
     (Baseline.createSafeFileName newURL cur +:+ ".png")).

Lemma errorInfo_shape cur message info :
  Baseline.errorInfo newURL startUrl cur message = Some info →
  Run.recordShape newURL dir ts startUrl domain info.
Proof.
  unfold Baseline.errorInfo. destruct (newURL cur None); [|done].
  intros [= <-]. by repeat split.
Qed.

Lemma successInfo_shape cur t c info :
  Baseline.successInfo newURL startUrl cur t c (shotPathOf cur) = Some info →
  Run.recordShape newURL dir ts startUrl domain info.
Proof.
  unfold Baseline.successInfo. destruct (newURL cur None); [|done].
  intros [= <-]. by repeat split.
Qed.

Lemma successInfo_path cur t c path info :
  Baseline.successInfo newURL startUrl cur t c path = Some info →
  Baseline.screenshotPath info = Some path.
Proof.
  unfold Baseline.successInfo. destruct (newURL cur None); [|done]. by intros [= <-].
Qed.

(** the records after an iteration that visited [cur] and pushed [new] *)
Lemma records_extend (visited queue queue' : list string)
    (ps new : list Baseline.PageInfo) (d d' : Baseline.Disk) (cur : string) :
  cur ∉ visited →
  (∀ p, p ∈ ps → Baseline.url p ∈ visited) →
  Run.recordsInv newURL dir ts startUrl domain (Baseline.mkCrawl visited queue ps d) →
  new ≠ [] →
  (∀ p, p ∈ new → Baseline.url p = cur) →
  (∀ p, p ∈ new → Run.recordShape newURL dir ts startUrl domain p) →
  NoDup (map Baseline.url (Run.errorRecords new)) →
  (∀ p, Run.hasSnapshot d p → Run.hasSnapshot d' p) →
  (∀ p, p ∈ new → Baseline.status p = Baseline.success → Run.hasSnapshot d' p) →
  Run.recordsInv newURL dir ts startUrl domain
    (Baseline.mkCrawl (visited ++ [cur]) queue' (ps ++ new) d').
Proof.
  intros Hfresh Hps (Hshape & Hcover & Herr & Hsnap) Hne Hurl Hnshape Hnerr Hd Hnsnap.
  simpl in *. split; [|split; [|split]]; simpl.
  - intros p [Hp|Hp]%elem_of_app; [by apply Hshape|by apply Hnshape].
  - intros u [Hu| ->%list_elem_of_singleton]%elem_of_app.
    + destruct (Hcover u Hu) as (p & Hp & Hpu). exists p. split; [|done].
      apply elem_of_app. by left.
    + destruct new as [|p new']; [done|]. exists p. split.
      * apply elem_of_app. right. apply list_elem_of_here.
      * apply Hurl, list_elem_of_here.
  - rewrite errorRecords_app, map_app. apply NoDup_app. repeat split; [done| |done].
    intros u (p & -> & Hp)%list_elem_of_fmap (q & Hq & Hq')%list_elem_of_fmap.
    apply errorRecords_subset in Hp, Hq'.
    apply Hfresh. rewrite <- (Hurl q Hq'), <- Hq. by apply Hps.
  - intros p [Hp|Hp]%elem_of_app Hs; [by apply Hd, Hsnap|by apply Hnsnap].
Qed.

(** One iteration of the baseline crawl keeps the records in order. *)
Lemma baseline_step_records st st' :
  Spec.baselineFrontier st →
  Run.recordsInv newURL dir ts startUrl domain st →
  Baseline.step newURL browser dir ts startUrl domain st = Js.Next st' →
  Run.recordsInv newURL dir ts startUrl domain st'.
Proof.
  intros (_ & _ & _ & Hps & _) Hinv. unfold Baseline.step.
  destruct (Baseline.urlsToVisit st) as [|cur rest] eqn:Equeue; [done|].
  destruct (Js.includes (Baseline.visitedUrls st) cur) eqn:Einc.
  { intros [= <-]. exact Hinv. }
  rewrite (setAdd_fresh _ _ Einc).
  assert (Hfresh : cur ∉ Baseline.visitedUrls st) by (by apply includes_false).
  assert (Hinv' : Run.recordsInv newURL dir ts startUrl domain
                    (Baseline.mkCrawl (Baseline.visitedUrls st) (Baseline.urlsToVisit st)
                       (Baseline.pages st) (Baseline.disk st))) by exact Hinv.
  destruct (browser _ _) as [message|t c img message|t c img links].
  - destruct (Baseline.errorInfo _ _ _ _) as [info|] eqn:Einfo; [|done].
    intros [= <-]. pose proof (errorInfo_shape _ _ _ Einfo) as Hshape.
    apply errorInfo_record in Einfo as [Hurl Hstatus].
    eapply records_extend; try done.
    + by intros p ->%list_elem_of_singleton.
    + by intros p ->%list_elem_of_singleton.
    + unfold Run.errorRecords; simpl. rewrite Hstatus. apply NoDup_singleton.
    + intros p ->%list_elem_of_singleton. by rewrite Hstatus.
  - destruct (Baseline.successInfo _ _ _ _ _ _) as [info|] eqn:Einfo; [|done].
    destruct (Baseline.errorInfo _ _ _ _) as [info2|] eqn:Einfo2; [|done].
    intros [= <-]. pose proof (errorInfo_shape _ _ _ Einfo2) as Hshape2.
    pose proof (successInfo_shape _ _ _ _ Einfo) as Hshape.
    pose proof (successInfo_path _ _ _ _ _ Einfo) as Hpath.
    apply errorInfo_record in Einfo2 as [Hurl2 Hstatus2].
    apply successInfo_record in Einfo as [Hurl Hstatus].
    rewrite <- app_assoc. simpl.
    eapply (records_extend _ _ _ _ [info; info2]); try done.
    + intros p [->| ->%list_elem_of_singleton]%elem_of_cons; done.
    + intros p [->| ->%list_elem_of_singleton]%elem_of_cons; done.
    + unfold Run.errorRecords; simpl. rewrite Hstatus, Hstatus2. apply NoDup_singleton.
    + intros p. apply hasSnapshot_insert.
    + intros p [->| ->%list_elem_of_singleton]%elem_of_cons Hs.
      * exists img. rewrite Hpath. simpl. apply lookup_insert_eq.
      * by rewrite Hstatus2 in Hs.
  - destruct (Baseline.successInfo _ _ _ _ _ _) as [info|] eqn:Einfo; [|done].
    intros [= <-]. pose proof (successInfo_shape _ _ _ _ Einfo) as Hshape.
    pose proof (successInfo_path _ _ _ _ _ Einfo) as Hpath.
    apply successInfo_record in Einfo as [Hurl Hstatus].
    eapply records_extend; try done.
    + by intros p ->%list_elem_of_singleton.
    + by intros p ->%list_elem_of_singleton.
    + unfold Run.errorRecords; simpl. rewrite Hstatus. apply NoDup_nil_2.
    + intros p. apply hasSnapshot_insert.
    + intros p ->%list_elem_of_singleton _.
      exists img. rewrite Hpath. simpl. apply lookup_insert_eq.
Qed.

End Records.

Lemma crawl_records newURL browser dir ts startUrl disk0 domain st0 n st :
  Baseline.start newURL startUrl disk0 = Some (domain, st0) →
  Js.iterate (Baseline.step newURL browser dir ts startUrl domain) n st0 = Some st →
  Run.recordsInv newURL dir ts startUrl domain st.
Proof.
  intros Hstart Hn.
  assert (Hboth : Spec.baselineFrontier st
                  ∧ Run.recordsInv newURL dir ts startUrl domain st); [|by destruct Hboth].
  pose proof Hstart as [_ ->]%start_in_domain.
  revert Hn.
  apply (iterate_invariant _
           (fun s => Spec.baselineFrontier s
                     ∧ Run.recordsInv newURL dir ts startUrl domain s)).
  - intros s s' [Hf Hr] Hstep. split.
    + by eapply baseline_step_frontier.
    + by eapply baseline_step_records.
  - split.
    + by apply (crawl_frontier newURL browser dir ts startUrl disk0 domain _ 0 _ Hstart).
    + split; [|split; [|split]]; simpl;
        [ intros x Hx; by apply elem_of_nil in Hx
        | intros x Hx; by apply elem_of_nil in Hx
        | apply NoDup_nil_2
        | intros x Hx; by apply elem_of_nil in Hx ].
Qed.

(** X4: the manifest of the baseline crawl misses no navigated page
    and its records are well formed: every visited URL has a record; a
    success record has a title, the path of its screenshot (the folder
    of the run, the safe file name of its URL, [.png]) and no error
    message; an error record has an error message, no title and no
    screenshot; only the records of the start URL are of type main; the
    depth of a record is the path depth of its URL; no URL has two
    error records. *)
Theorem manifest_records_are_complete newURL browser dir ts startUrl disk0 n st domain :
  Baseline.getDomain newURL startUrl = Some domain →
  Baseline.crawlAndScreenshot newURL browser dir ts startUrl disk0 n = Some st →
  (∀ u, u ∈ Baseline.visitedUrls st → ∃ p, p ∈ Baseline.pages st ∧ Baseline.url p = u)
  ∧ (∀ p, p ∈ Baseline.pages st →
          Run.recordShape newURL dir ts startUrl domain p
          ∧ (Baseline.type p = Baseline.main ↔ Baseline.url p = startUrl))
  ∧ NoDup (map Baseline.url (Run.errorRecords (Baseline.pages st))).
Proof.
  unfold Baseline.crawlAndScreenshot. intros Hdom.
  destruct (Baseline.start newURL startUrl disk0) as [[domain' st0]|] eqn:Estart; [|done].
  pose proof Estart as [Hdom' _]%start_in_domain.
  assert (domain' = domain) as -> by congruence.
  intros Hn. destruct (crawl_records _ _ _ _ _ _ _ _ _ _ Estart Hn) as (Hs & Hc & He & _).
  split; [done|]. split; [|done].
  intros p Hp. split; [by apply Hs|].
  destruct (Hs p Hp) as (Ht & _). rewrite Ht. unfold Baseline.pageTypeOf.
  destruct (String.eqb_spec (Baseline.url p) startUrl); done.
Qed.

(** The shop after its three pages. *)
Lemma manifest_records_are_complete_witness :
  match Scenario.shopCrawl 3 with
  | Some st =>
      ∀ u, u ∈ Baseline.visitedUrls st → ∃ p, p ∈ Baseline.pages st ∧ Baseline.url p = u
  | None => False
  end.
Proof.
  destruct (Scenario.shopCrawl 3) as [st|] eqn:E; [|vm_compute in E; discriminate E].
  apply (manifest_records_are_complete Url.parse Scenario.shop "baseline"
           "2024-05-01T10-00-00" Scenario.home ∅ 3 st "h.com" eq_refl E).
Defined.

(** X5: right after a completed baseline the manifest can be read back
    from the folder of the run, and the screenshot file of every success
    record exists and holds an image: no page of a fresh baseline is
    reported with a missing baseline screenshot. *)
Theorem fresh_baseline_has_every_snapshot newURL browser dir ts startUrl disk0 n d domain :
  Baseline.getDomain newURL startUrl = Some domain →
  Baseline.baseline newURL browser dir ts startUrl disk0 n = Some d →
  ∃ pages,
    Baseline.loadManifest d (Baseline.folderPath dir ts domain) = Some pages
    ∧ ∀ p, p ∈ Baseline.successPages pages → Run.hasSnapshot d p.
Proof.
  unfold Baseline.baseline. intros Hdom.
  destruct (Baseline.start newURL startUrl disk0) as [[domain' st0]|] eqn:Estart; [|done].
  pose proof Estart as [Hdom' _]%start_in_domain.
  assert (domain' = domain) as -> by congruence.
  destruct (Js.iterate _ n st0) as [st|] eqn:Hn; [|done].
  destruct (Baseline.urlsToVisit st); [|done]. intros [= <-].
  exists (Baseline.pages st). split; [apply manifest_round_trip|].
  destruct (crawl_records _ _ _ _ _ _ _ _ _ _ Estart Hn) as (Hs & _ & _ & Hsnap).
  intros p Hp. pose proof (successPages_subset _ p Hp) as Hin.
  assert (Hstatus : Baseline.status p = Baseline.success).
  { unfold Baseline.successPages in Hp. apply list_elem_of_In, filter_In in Hp as [_ Hp].
    by destruct (Baseline.status p). }
  destruct (Hsnap p Hin Hstatus) as [img Himg]. exists img.
  destruct (Hs p Hin) as (_ & _ & Hshape). rewrite Hstatus in Hshape.
  destruct Hshape as (_ & Hpath & _). rewrite Hpath in Himg |- *. simpl in *.
  unfold Baseline.saveManifest. rewrite lookup_insert_ne; [done|].
  intros Heq. symmetry in Heq. by apply snapshot_is_not_the_manifest in Heq.
Qed.

(** The baseline of the shop. *)
Lemma fresh_baseline_has_every_snapshot_witness :
  match Scenario.shopBaseline with
  | Some d =>
      ∃ pages,
        Baseline.loadManifest d Scenario.shopFolder = Some pages
        ∧ ∀ p, p ∈ Baseline.successPages pages → Run.hasSnapshot d p
  | None => False
  end.
Proof.
  destruct Scenario.shopBaseline as [d|] eqn:E; [|vm_compute in E; discriminate E].
  apply (fresh_baseline_has_every_snapshot Url.parse Scenario.shop "baseline"
           "2024-05-01T10-00-00" Scenario.home ∅ 3 d "h.com" eq_refl E).
Defined.

(** ** The page reporter: host, progress and counts *)

Section ReporterRun.

Variable newURL : string -> option string -> option Url.URL.
Variable browser : nat -> string -> Reporter.Visit.
Variable folder : option string.
Variables (startUrl hostname : string).

Local Abbreviation rstep := (Reporter.step newURL browser folder hostname).

Lemma reporter_step_host st st' :
  Run.onHostAll newURL startUrl hostname st → rstep st = Js.Next st' →
  Run.onHostAll newURL startUrl hostname st'.
Proof.
  intros Hinv. unfold Reporter.step.
  destruct (Reporter.toVisit st) as [|cur rest] eqn:Equeue; [done|].
  assert (Hcur : Run.onHost newURL hostname cur ∧ (cur = startUrl ∨ Js.endsWith cur "#" = false))
    by (apply Hinv; right; rewrite Equeue; apply list_elem_of_here).
  assert (Hrest : ∀ u, u ∈ rest →
            Run.onHost newURL hostname u ∧ (u = startUrl ∨ Js.endsWith u "#" = false))
    by (intros u Hu; apply Hinv; right; rewrite Equeue; by apply list_elem_of_further).
  destruct (Js.includes (Reporter.visited st) cur) eqn:Einc.
  { intros [= <-] u [Hu|Hu]; simpl in Hu; [apply Hinv; by left|by apply Hrest]. }
  rewrite (setAdd_fresh _ _ Einc).
  destruct (newURL cur None) as [urlObj|]; [|done].
  intros [= <-] u [Hu|Hu]; simpl in Hu.
  - apply elem_of_app in Hu as [Hu| ->%list_elem_of_singleton]; [|done].
    apply Hinv. by left.
  - apply elem_of_app in Hu as [Hu|Hu]; [by apply Hrest|].
    destruct (browser _ _) as [|t c links shot]; [by apply elem_of_nil in Hu|].
    apply list_elem_of_In, filter_In in Hu as [Hu _].
    apply filter_In in Hu as [Hu Hhash]. apply filter_In in Hu as [_ Hint].
    split; [|right; by apply negb_true_iff].
    unfold Reporter.isInternal in Hint.
    destruct (newURL u None) as [o|] eqn:Eo; [|done].
    exists o. split; [done|]. by apply String.eqb_eq.
Qed.

Lemma reporter_step_continues st :
  Run.onHostAll newURL startUrl hostname st → Reporter.toVisit st ≠ [] →
  ∃ st', rstep st = Js.Next st'.
Proof.
  intros Hinv Hne. unfold Reporter.step.
  destruct (Reporter.toVisit st) as [|cur rest] eqn:Equeue; [done|].
  destruct (Hinv cur) as [(o & Ho & _) _]; [right; rewrite Equeue; apply list_elem_of_here|].
  destruct (Js.includes _ _); [by eexists|].
  rewrite Ho. by eexists.
Qed.

End ReporterRun.

Lemma reporter_on_host newURL browser folder startUrl hostname st0 n st :
  Reporter.start newURL startUrl = Some (hostname, st0) →
  Js.iterate (Reporter.step newURL browser folder hostname) n st0 = Some st →
  Run.onHostAll newURL startUrl hostname st.
Proof.
  unfold Reporter.start. destruct (newURL startUrl None) as [o|] eqn:Eo; [|done].
  intros [= <- <-].
  apply (iterate_invariant _ (Run.onHostAll newURL startUrl (Url.hostname o))).
  - intros s s'. apply reporter_step_host.
  - intros u [Hu|Hu]; simpl in Hu; [by apply elem_of_nil in Hu|].
    apply list_elem_of_singleton in Hu as ->. split; [by exists o|by left].
Qed.

(** X6: the page reporter stays on the host of its start URL: every
    URL it has visited or holds in its queue parses and has the host
    name of the start URL, and apart from the start URL none of them
    ends with [#]. *)
Theorem reporter_stays_on_host newURL browser folder startUrl n st u :
  Reporter.generatePageReport newURL browser folder startUrl n = Some st →
  u ∈ Reporter.visited st ∨ u ∈ Reporter.toVisit st →
  (∃ o o0, newURL u None = Some o ∧ newURL startUrl None = Some o0
           ∧ Url.hostname o = Url.hostname o0)
  ∧ (u = startUrl ∨ Js.endsWith u "#" = false).
Proof.
  unfold Reporter.generatePageReport.
  destruct (Reporter.start newURL startUrl) as [[hostname st0]|] eqn:Estart; [|done].
  intros Hn Hu.
  destruct (reporter_on_host _ _ _ _ _ _ _ _ Estart Hn u Hu) as [(o & Ho & Hh) Hhash].
  split; [|done]. unfold Reporter.start in Estart.
  destruct (newURL startUrl None) as [o0|]; [|done].
  injection Estart as <- _. by exists o, o0.
Qed.

(** The blog after the home page: [/b] is pending. *)
Lemma reporter_stays_on_host_witness :
  (∃ o o0, Url.parse "https://h.com/b" None = Some o
           ∧ Url.parse Scenario.home None = Some o0
           ∧ Url.hostname o = Url.hostname o0)
  ∧ ("https://h.com/b" = Scenario.home ∨ Js.endsWith "https://h.com/b" "#" = false).
Proof.
  destruct (Scenario.blogCrawl 1) as [st|] eqn:E; [|vm_compute in E; discriminate E].
  apply (reporter_stays_on_host Url.parse Scenario.blog None Scenario.home 1 st _ E).
  right. vm_compute in E. injection E as <-. simpl.
  apply list_elem_of_further, list_elem_of_here.
Defined.

(** X7: no page makes the page reporter fail: as long as its queue is
    not empty the loop runs one more iteration, whatever the browser
    does with the page. *)
Theorem reporter_never_throws newURL browser folder startUrl n st :
  Reporter.generatePageReport newURL browser folder startUrl n = Some st →
  Reporter.toVisit st ≠ [] →
  ∃ st', Reporter.generatePageReport newURL browser folder startUrl (S n) = Some st'.
Proof.
  unfold Reporter.generatePageReport.
  destruct (Reporter.start newURL startUrl) as [[hostname st0]|] eqn:Estart; [|done].
  intros Hn Hne. rewrite (iterate_succ _ _ _ _ Hn).
  destruct (reporter_step_continues newURL browser folder startUrl hostname st)
    as [st' ->]; [by eapply reporter_on_host|done|by exists st'].
Qed.

(** The blog after two pages: the third iteration runs. *)
Lemma reporter_never_throws_witness :
  ∃ st', Scenario.blogCrawl 3 = Some st'.
Proof.
  destruct (Scenario.blogCrawl 2) as [st|] eqn:E; [|vm_compute in E; discriminate E].
  apply (reporter_never_throws Url.parse Scenario.blog None Scenario.home 2 st E).
  vm_compute in E. injection E as <-. discriminate.
Defined.

Lemma filter_snoc {A : Type} (f : A → bool) (l : list A) (x : A) :
  List.filter f (l ++ [x]) = List.filter f l ++ (if f x then [x] else []).
Proof. rewrite List.filter_app. simpl. by destruct (f x). Qed.

Lemma main_sub_partition (details : list Reporter.PageDetail) :
  (length (Report.mainPageDetails details) + length (Report.subPageDetails details))%nat
  = length details.
Proof.
  unfold Report.mainPageDetails, Report.subPageDetails, Report.isMain, Report.isSub.
  induction details as [|page details IH]; [done|]. simpl.
  destruct (Reporter.type page); simpl; lia.
Qed.

Lemma success_error_partition (details : list Reporter.PageDetail) :
  (∀ page, page ∈ details → Reporter.status page ≠ Reporter.pending) →
  (length (List.filter Report.isSuccess details)
   + length (Report.errorPageDetails details))%nat = length details.
Proof.
  unfold Report.errorPageDetails, Report.isSuccess, Report.isError.
  induction details as [|page details IH]; [done|]. intros Hp. simpl.
  assert (Hpage : Reporter.status page ≠ Reporter.pending) by apply Hp, list_elem_of_here.
  assert (IH' := IH (fun q Hq => Hp q (list_elem_of_further _ _ _ Hq))).
  destruct (Reporter.status page); simpl; [done|lia|lia].
Qed.

Section ReporterCounts.

Variable newURL : string -> option string -> option Url.URL.
Variable browser : nat -> string -> Reporter.Visit.
Variable folder : option string.
Variable hostname : string.

Lemma settle_type cur v detail :
  Reporter.type (Reporter.settle newURL folder cur v detail) = Reporter.type detail.
Proof. by destruct v. Qed.

Lemma settle_status cur v detail :
  Reporter.status (Reporter.settle newURL folder cur v detail)
  = match v with
    | Reporter.Loaded _ _ _ _ => Reporter.success
    | Reporter.LoadFailed _ => Reporter.error
    end.
Proof. by destruct v. Qed.

(** One iteration of the page reporter keeps its sets and its records
    in agreement. *)
Lemma reporter_step_counts st st' :
  Spec.reporterFrontier st → Run.countsInv st →
  Reporter.step newURL browser folder hostname st = Js.Next st' →
  Run.countsInv st'.
Proof.
  intros [Hv Hdet] (Hmain & Hsub & Herr & Hpend). unfold Reporter.step.
  destruct (Reporter.toVisit st) as [|cur rest]; [done|].
  destruct (Js.includes (Reporter.visited st) cur) eqn:Einc; [by intros [= <-]|].
  destruct (newURL cur None) as [urlObj|]; [|done].
  assert (Hfresh : cur ∉ Reporter.visited st) by (by apply includes_false).
  assert (Hsubset : ∀ f, cur ∉ map Reporter.url (List.filter f (Reporter.pageDetails st))).
  { intros f (page & -> & Hpage)%list_elem_of_fmap. apply Hfresh. rewrite <- Hdet.
    apply list_elem_of_fmap. exists page. split; [done|].
    apply list_elem_of_In, filter_In in Hpage as [Hpage _]. by apply list_elem_of_In. }
  assert (Hadd : ∀ f, map Reporter.url (List.filter f (Reporter.pageDetails st)) ++ [cur]
                      = Js.setAdd (map Reporter.url (List.filter f (Reporter.pageDetails st)))
                          cur).
  { intros f. symmetry. apply setAdd_fresh, includes_false, Hsubset. }
  intros [= <-]. unfold Run.countsInv, Report.mainPageDetails, Report.subPageDetails,
    Report.errorPageDetails in *. simpl.
  rewrite !filter_snoc, !map_app.
  unfold Report.isMain at 2, Report.isSub at 2, Report.isError at 2.
  rewrite settle_type, settle_status. cbn [Reporter.type].
  split; [|split; [|split]].
  - rewrite <- Hmain. destruct (Reporter.categorizePage _ _ _); simpl.
    + by rewrite (settle_url newURL folder), <- Hadd.
    + by rewrite app_nil_r.
  - rewrite <- Hsub. destruct (Reporter.categorizePage _ _ _); simpl.
    + by rewrite app_nil_r.
    + by rewrite (settle_url newURL folder), <- Hadd.
  - rewrite <- Herr. destruct (browser _ _); simpl.
    + by rewrite <- Hadd.
    + by rewrite app_nil_r.
  - intros page [Hpage| ->%list_elem_of_singleton]%elem_of_app; [by apply Hpend|].
    rewrite settle_status. by destruct (browser _ _).
Qed.

End ReporterCounts.

(** X8: the numbers the page reporter returns add up: the main and the
    sub pages together are the visited pages, the error pages are among
    them, so the count of successful pages is not cut off at zero; and
    each number is the length of the listing the report prints for it
    (main pages, sub pages, error pages, successful pages, all pages).
    No record is left pending. *)
Theorem reporter_counts_add_up newURL browser folder startUrl n st :
  Reporter.generatePageReport newURL browser folder startUrl n = Some st →
  let r := Report.reportData st in
  (Report.mainPages r + Report.subPages r)%nat = Report.totalPages r
  ∧ (Report.successfulPages r + Report.errorPages r)%nat = Report.totalPages r
  ∧ length (Report.pageDetails r) = Report.totalPages r
  ∧ length (Report.mainPageDetails (Report.pageDetails r)) = Report.mainPages r
  ∧ length (Report.subPageDetails (Report.pageDetails r)) = Report.subPages r
  ∧ length (Report.errorPageDetails (Report.pageDetails r)) = Report.errorPages r
  ∧ length (List.filter Report.isSuccess (Report.pageDetails r)) = Report.successfulPages r
  ∧ (∀ page, page ∈ Report.pageDetails r → Reporter.status page ≠ Reporter.pending).
Proof.
  unfold Reporter.generatePageReport.
  destruct (Reporter.start newURL startUrl) as [[hostname st0]|] eqn:Estart; [|done].
  intros Hn.
  assert (Hboth : Spec.reporterFrontier st ∧ Run.countsInv st).
  { revert Hn. unfold Reporter.start in Estart.
    destruct (newURL startUrl None); [|done]. injection Estart as <- <-.
    apply (iterate_invariant _ (fun s => Spec.reporterFrontier s ∧ Run.countsInv s)).
    - intros s s' [Hf Hc] Hstep. split.
      + by eapply reporter_step_frontier.
      + by eapply reporter_step_counts.
    - split; [split; [apply NoDup_nil_2|done]|].
      split; [done|]. split; [done|]. split; [done|].
      intros page Hpage. by apply elem_of_nil in Hpage. }
  destruct Hboth as [[_ Hdet] (Hmain & Hsub & Herr & Hpend)].
  pose proof (main_sub_partition (Reporter.pageDetails st)) as Hms.
  pose proof (success_error_partition (Reporter.pageDetails st) Hpend) as Hse.
  assert (Hlen : length (Reporter.pageDetails st) = length (Reporter.visited st))
    by (by rewrite <- Hdet, length_map).
  assert (Lm : length (Report.mainPageDetails (Reporter.pageDetails st))
               = length (Reporter.mainPages st)) by (by rewrite <- Hmain, length_map).
  assert (Ls : length (Report.subPageDetails (Reporter.pageDetails st))
               = length (Reporter.subPages st)) by (by rewrite <- Hsub, length_map).
  assert (Le : length (Report.errorPageDetails (Reporter.pageDetails st))
               = length (Reporter.errorPages st)) by (by rewrite <- Herr, length_map).
  simpl. split; [lia|]. split; [lia|]. split; [lia|]. split; [lia|]. split; [lia|].
  split; [lia|]. split; [lia|done].
Qed.

(** The blog after its three pages. *)
Lemma reporter_counts_add_up_witness :
  match Scenario.blogCrawl 4 with
  | Some st =>
      (Report.mainPages (Report.reportData st) + Report.subPages (Report.reportData st))%nat
      = Report.totalPages (Report.reportData st)
  | None => False
  end.
Proof.
  destruct (Scenario.blogCrawl 4) as [st|] eqn:E; [|vm_compute in E; discriminate E].
  apply (reporter_counts_add_up Url.parse Scenario.blog None Scenario.home 4 st E).
Defined.

(** ** Page type and path depth *)

Lemma split_nonempty (sep : ascii → bool) (s : string) : Js.split sep s ≠ [].
Proof.
  destruct s as [|c s]; simpl; [done|].
  destruct (sep c); [done|]. by destruct (Js.split sep s).
Qed.

Lemma split_cons_snoc (sep : ascii → bool) (c : ascii) (s : string) (l : list string) :
  Js.split sep s = l ++ [EmptyString] → l ≠ [] →
  Js.split sep (String c s)
  = match (if sep c then EmptyString :: l
           else match l with
                | seg :: segs => String c seg :: segs
                | [] => []
                end) with
    | l' => l' ++ [EmptyString]
    end.
Proof.
  intros Hs Hl. simpl. rewrite Hs.
  destruct (sep c); [done|]. by destruct l.
Qed.

(** Removing the slash at the end of a path removes an empty last
    segment, or changes nothing. *)
Lemma split_dropTrailing (s : string) :
  Js.split (Js.isChar "/") (Js.dropTrailing "/" s) = Js.split (Js.isChar "/") s
  ∨ Js.split (Js.isChar "/") s
    = Js.split (Js.isChar "/") (Js.dropTrailing "/" s) ++ [EmptyString].
Proof.
  induction s as [|c s IH]; [by left|].
  destruct s as [|c' s'].
  - simpl. destruct (Js.isChar "/" c) eqn:Ec; simpl; [by right|].
    rewrite Ec. by left.
  - change (Js.dropTrailing "/" (String c (String c' s')))
      with (String c (Js.dropTrailing "/" (String c' s'))).
    destruct IH as [IH|IH].
    + left. simpl in *. by rewrite IH.
    + right. rewrite (split_cons_snoc _ c _ _ IH (split_nonempty _ _)).
      cbn [Js.split].
      destruct (Js.isChar "/" c); [done|].
      pose proof (split_nonempty (Js.isChar "/") (Js.dropTrailing "/" (String c' s'))).
      by destruct (Js.split _ (Js.dropTrailing "/" (String c' s'))).
Qed.

Lemma pathSegments_depth (pathname : string) :
  Reporter.pathSegments pathname
  = List.filter Js.nonEmpty (Js.split (Js.isChar "/") pathname).
Proof.
  unfold Reporter.pathSegments.
  destruct (split_dropTrailing pathname) as [-> | ->]; [done|].
  rewrite List.filter_app. simpl. by rewrite app_nil_r.
Qed.

(** X9: the page type of the reporter is a function of the path depth
    of the baseline tester: a page is a sub page exactly when its URL
    has two path segments or more, with or without a slash at the end
    of the path; the depth recorded by the reporter is that depth; a
    URL that does not parse is a main page of depth 0. *)
Theorem page_type_follows_path_depth newURL (url hostname : string) :
  (Reporter.categorizePage newURL url hostname = Reporter.sub
   ↔ (2 ≤ Baseline.getPathDepth newURL url)%nat)
  ∧ match newURL url None with
    | Some o =>
        length (Reporter.pathSegments (Url.pathname o)) = Baseline.getPathDepth newURL url
    | None =>
        Reporter.categorizePage newURL url hostname = Reporter.main
        ∧ Baseline.getPathDepth newURL url = 0%nat
    end.
Proof.
  unfold Reporter.categorizePage, Baseline.getPathDepth.
  destruct (newURL url None) as [o|]; [|split; [split; [done|lia]|done]].
  rewrite pathSegments_depth. split; [|done].
  destruct (Nat.leb_spec (length (List.filter Js.nonEmpty
                                    (Js.split (Js.isChar "/") (Url.pathname o)))) 1);
    split; try done; lia.
Qed.

(** ** The comparison pass: listings, the two testers, equal images *)

Lemma fold_left_invariant {S A : Type} (f : S → A → S) (Inv : S → Prop) (l : list A) :
  (∀ s x, Inv s → Inv (f s x)) → ∀ s, Inv s → Inv (fold_left f l s).
Proof. intros Hf. induction l as [|x l IH]; intros s Hs; simpl; [done|]. by apply IH, Hf. Qed.

Lemma fold_left_related {S T A : Type} (f : S → A → S) (g : T → A → T)
    (R : S → T → Prop) (l : list A) :
  (∀ s t x, R s t → R (f s x) (g t x)) →
  ∀ s t, R s t → R (fold_left f l s) (fold_left g l t).
Proof.
  intros Hfg. induction l as [|x l IH]; intros s t Hst; simpl; [done|]. by apply IH, Hfg.
Qed.

Section ComparisonListings.

Variable newURL : string -> option string -> option Url.URL.
Variable camera : nat -> string -> Baseline.Shot.
Variable countDiff : list N -> list N -> nat -> nat -> nat.
Variable toFixed2 : Q -> string.
Variable tempFolder : string.
Variable d : Baseline.Disk.

Lemma compare_processed_all (ps : list Baseline.PageInfo) : ∀ s,
  Baseline.processedCount
    (fold_left (Baseline.comparePage newURL camera countDiff toFixed2 tempFolder d) ps s)
  = (Baseline.processedCount s + length ps)%nat.
Proof.
  induction ps as [|p ps IH]; intros s; simpl; [lia|].
  rewrite IH, comparePage_processed. lia.
Qed.

Lemma compare_counters_invariant (ps : list Baseline.PageInfo) :
  let st := fold_left (Baseline.comparePage newURL camera countDiff toFixed2 tempFolder d)
              ps Baseline.noComparison in
  Baseline.matchCount st = length (Baseline.unchangedPages st)
  ∧ Baseline.changeCount st = length (Baseline.changedPages st)
  ∧ Baseline.errorCount st = length (Baseline.errorPages st)
  ∧ Baseline.successfulComparisons st
    = (Baseline.matchCount st + Baseline.changeCount st)%nat
  ∧ Baseline.processedCount st
    = (Baseline.matchCount st + Baseline.changeCount st + Baseline.errorCount st)%nat.
Proof.
  cbv zeta.
  apply (fold_left_invariant _
           (fun s => Baseline.matchCount s = length (Baseline.unchangedPages s)
                     ∧ Baseline.changeCount s = length (Baseline.changedPages s)
                     ∧ Baseline.errorCount s = length (Baseline.errorPages s)
                     ∧ Baseline.successfulComparisons s
                       = (Baseline.matchCount s + Baseline.changeCount s)%nat
                     ∧ Baseline.processedCount s
                       = (Baseline.matchCount s + Baseline.changeCount s
                          + Baseline.errorCount s)%nat)); [|done].
  intros s p (Hm & Hc & He & Hs & Hp).
  unfold Baseline.comparePage, Baseline.errored.
  destruct (camera _ _) as [msg|imgB]; simpl; [rewrite length_app; simpl; lia|].
  destruct (_ ≫= _) as [[imgA| |]|]; simpl; try (rewrite length_app; simpl; lia).
  destruct (Png.pixelmatch _ _ _ _ _ _) as [msg|n]; simpl;
    [rewrite length_app; simpl; lia|].
  destruct (Baseline.belowOnePercent _ _); simpl; rewrite length_app; simpl; lia.
Qed.

(** X10: in the report of the baseline tester every counter is the
    length of the listing printed under it: the matched, the changed and
    the errored pages; the successful comparisons are the matched and
    the changed pages together, and every success page of the manifest
    was processed. *)
Theorem compare_listings_match_counters (baselinePages : list Baseline.PageInfo) :
  let st := Baseline.compareMenu newURL camera countDiff toFixed2 tempFolder d
              baselinePages in
  Baseline.matchCount st = length (Baseline.unchangedPages st)
  ∧ Baseline.changeCount st = length (Baseline.changedPages st)
  ∧ Baseline.errorCount st = length (Baseline.errorPages st)
  ∧ Baseline.successfulComparisons st
    = (Baseline.matchCount st + Baseline.changeCount st)%nat
  ∧ Baseline.processedCount st
    = (Baseline.matchCount st + Baseline.changeCount st + Baseline.errorCount st)%nat
  ∧ Baseline.processedCount st = length (Baseline.successPages baselinePages).
Proof.
  intros st.
  pose proof (compare_counters_invariant (Baseline.successPages baselinePages))
    as (Hm & Hc & He & Hs & Hp).
  repeat split; try done.
  unfold st, Baseline.compareMenu.
  by rewrite compare_processed_all, Nat.add_0_l.
Qed.

End ComparisonListings.

Section TwoTesters.

Variable newURL : string -> option string -> option Url.URL.
Variable camera : nat -> string -> Baseline.Shot.
Variable countDiff : list N -> list N -> nat -> nat -> nat.
Variable toFixed2 : Q -> string.
Variable tempFolder : string.
Variable d : Baseline.Disk.

(** X11: the reduced tester classifies like the baseline tester: on
    the same manifest, disk and browser it counts the same pages as
    matched and as changed and lists the same changed pages with the
    same diff files and percentages; the pages the baseline tester
    counts as errored are those for which the reduced tester writes a
    line to the console, one each. *)
Theorem ui_tester_agrees_on_matches (baselinePages : list Baseline.PageInfo) :
  let b := Baseline.compareMenu newURL camera countDiff toFixed2 tempFolder d
             baselinePages in
  let u := UiTester.compareMenu newURL camera countDiff toFixed2 tempFolder d
             baselinePages in
  UiTester.matchCount u = Baseline.matchCount b
  ∧ UiTester.changeCount u = Baseline.changeCount b
  ∧ map (fun c => (UiTester.changedUrl c, UiTester.diff c, UiTester.changedPercent c))
      (UiTester.changedPages u)
    = map (fun c => (Baseline.changedUrl c, Baseline.diff c, Baseline.changedPercent c))
        (Baseline.changedPages b)
  ∧ length (UiTester.console u) = Baseline.errorCount b
  ∧ (UiTester.matchCount u + UiTester.changeCount u + length (UiTester.console u))%nat
    = length (Baseline.successPages baselinePages).
Proof.
  intros b u.
  assert (Hrel : UiTester.matchCount u = Baseline.matchCount b
                 ∧ UiTester.changeCount u = Baseline.changeCount b
                 ∧ map (fun c => (UiTester.changedUrl c, UiTester.diff c,
                                  UiTester.changedPercent c)) (UiTester.changedPages u)
                   = map (fun c => (Baseline.changedUrl c, Baseline.diff c,
                                    Baseline.changedPercent c)) (Baseline.changedPages b)
                 ∧ length (UiTester.console u) = Baseline.errorCount b
                 ∧ UiTester.processed u = Baseline.processedCount b).
  { unfold b, u, Baseline.compareMenu, UiTester.compareMenu.
    change (UiTester.successPages baselinePages) with (Baseline.successPages baselinePages).
    apply (fold_left_related _ _
             (fun s t =>
                UiTester.matchCount t = Baseline.matchCount s
                ∧ UiTester.changeCount t = Baseline.changeCount s
                ∧ map (fun c => (UiTester.changedUrl c, UiTester.diff c,
                                 UiTester.changedPercent c)) (UiTester.changedPages t)
                  = map (fun c => (Baseline.changedUrl c, Baseline.diff c,
                                   Baseline.changedPercent c)) (Baseline.changedPages s)
                ∧ length (UiTester.console t) = Baseline.errorCount s
                ∧ UiTester.processed t = Baseline.processedCount s)); [|done].
    intros s t p (Hm & Hc & Hl & He & Hp).
    unfold Baseline.comparePage, UiTester.comparePage, Baseline.errored, UiTester.logged.
    rewrite Hp.
    destruct (camera _ _) as [msg|imgB]; simpl; [rewrite length_app; simpl; auto with lia|].
    destruct (_ ≫= _) as [[imgA| |]|]; simpl;
      try (rewrite length_app; simpl; auto with lia).
    destruct (Png.pixelmatch _ _ _ _ _ _) as [msg|n]; simpl;
      [rewrite length_app; simpl; auto with lia|].
    destruct (Baseline.belowOnePercent _ _); simpl; [auto with lia|].
    rewrite !map_app, Hl. simpl. auto with lia. }
  destruct Hrel as (Hm & Hc & Hl & He & Hp).
  repeat split; try done.
  rewrite Hm, Hc, He.
  pose proof (compare_counters_invariant newURL camera countDiff toFixed2 tempFolder d
                (Baseline.successPages baselinePages)) as (_ & _ & _ & _ & H1).
  pose proof (compare_processed_all newURL camera countDiff toFixed2 tempFolder d
                (Baseline.successPages baselinePages) Baseline.noComparison) as H2.
  fold (Baseline.compareMenu newURL camera countDiff toFixed2 tempFolder d baselinePages)
    in H1, H2. fold b in H1, H2. simpl in H2. lia.
Qed.

(** X12: a page whose new screenshot is its baseline image, pixel for
    pixel, is counted as matched with no differing pixel, provided the
    image is not empty and the pixel counter finds no difference between
    a buffer and itself. *)
Theorem identical_screenshot_is_matched
    (st : Baseline.Comparison) (p : Baseline.PageInfo) (img : Png.PNG) :
  camera (Baseline.processedCount st) (Baseline.url p) = Baseline.ShotTaken img →
  Baseline.screenshotPath p ≫= (d !!.) = Some (PngFile img) →
  Png.wellFormed img →
  (0 < Png.width img * Png.height img)%nat →
  countDiff (Png.data img) (Png.data img) (Png.width img) (Png.height img) = 0%nat →
  let st' := Baseline.comparePage newURL camera countDiff toFixed2 tempFolder d st p in
  Spec.diffEngine camera countDiff d (Baseline.processedCount st) p
  = Spec.Compared 0 (Png.width img * Png.height img)
  ∧ Baseline.matchCount st' = S (Baseline.matchCount st)
  ∧ Baseline.changeCount st' = Baseline.changeCount st
  ∧ Baseline.errorCount st' = Baseline.errorCount st
  ∧ Baseline.totalDiffPixels st' = Baseline.totalDiffPixels st
  ∧ Baseline.totalPixelsCompared st'
    = (Baseline.totalPixelsCompared st + Png.width img * Png.height img)%nat
  ∧ Baseline.changedPages st' = Baseline.changedPages st.
Proof.
  intros Hcam Hfile Hwf Hpos Hzero.
  assert (Hpm : Png.pixelmatch countDiff (Png.data img) (Png.data img)
                  (Png.data (Png.blank (Png.width img) (Png.height img)))
                  (Png.width img) (Png.height img) = inr 0%nat).
  { unfold Png.pixelmatch. red in Hwf. simpl. rewrite repeat_length, Hwf, Hzero.
    rewrite !Nat.eqb_refl. simpl.
    match goal with
    | |- context [(?a =? ?b)%nat] => destruct (Nat.eqb_spec a b); [done|lia]
    end. }
  cbv zeta. unfold Baseline.comparePage, Spec.diffEngine.
  rewrite Hcam, Hfile, Hpm. simpl.
  assert (Hb : Baseline.belowOnePercent 0 (Png.width img * Png.height img) = true).
  { unfold Baseline.belowOnePercent. apply Nat.ltb_lt. lia. }
  rewrite Hb. simpl. repeat split; lia.
Qed.

End TwoTesters.

(** A one-pixel page whose screenshot has not changed. *)
Lemma identical_screenshot_is_matched_witness :
  let d : Baseline.Disk := {[ "baseline/run/h.com_a.png" := PngFile (Scenario.solid 1 1 Scenario.white) ]} in
  let st := Baseline.comparePage Url.parse Scenario.twoCamera Png.exactCount Js.toFixed2
              "baseline/run/compare_1" d Baseline.noComparison Scenario.pageA in
  Baseline.matchCount st = 1%nat ∧ Baseline.errorCount st = 0%nat.
Proof.
  assert (Hpos : (0 < 1 * 1)%nat) by lia.
  pose proof (identical_screenshot_is_matched Url.parse Scenario.twoCamera Png.exactCount
                Js.toFixed2 "baseline/run/compare_1"
                {[ "baseline/run/h.com_a.png" := PngFile (Scenario.solid 1 1 Scenario.white) ]}
                Baseline.noComparison Scenario.pageA (Scenario.solid 1 1 Scenario.white)
                eq_refl eq_refl eq_refl Hpos eq_refl)
    as (_ & Hm & _ & He & _).
  exact (conj Hm He).
Defined.

(** ** The listing of the baselines *)

Lemma string_app_cons (x : ascii) (a b : string) :
  String x a +:+ b = String x (a +:+ b).
Proof. reflexivity. Qed.

Lemma string_app_assoc (a b c : string) : (a +:+ b) +:+ c = a +:+ (b +:+ c).
Proof. induction a as [|x a IH]; [done|]. by rewrite !string_app_cons, IH. Qed.

Lemma allStr_app (f : ascii → bool) (a b : string) :
  Js.allStr f (a +:+ b) = Js.allStr f a && Js.allStr f b.
Proof.
  induction a as [|x a IH]; [done|].
  rewrite string_app_cons. simpl. by rewrite IH, andb_assoc.
Qed.

Lemma join_cons (sep p : string) (ps : list string) :
  ps ≠ [] → Folders.join sep (p :: ps) = p +:+ sep +:+ Folders.join sep ps.
Proof. by destruct ps. Qed.

Lemma join_cons_char (sep : string) (c : ascii) (seg : string) (segs : list string) :
  Folders.join sep (String c seg :: segs) = String c (Folders.join sep (seg :: segs)).
Proof. by destruct segs. Qed.

Lemma join_snoc (sep : string) (ps : list string) (x : string) :
  ps ≠ [] → Folders.join sep (ps ++ [x]) = Folders.join sep ps +:+ sep +:+ x.
Proof.
  induction ps as [|p ps IH]; [done|]. intros _.
  destruct ps as [|q ps]; [done|].
  change ((p :: q :: ps) ++ [x]) with (p :: ((q :: ps) ++ [x])).
  rewrite join_cons by (by destruct ps). rewrite IH by done.
  rewrite (join_cons sep p (q :: ps)) by done.
  by rewrite !string_app_assoc.
Qed.

(** Joining the parts of a name with dashes gives the name back. *)
Lemma join_split (s : string) : Folders.join "-" (Js.split Folders.isDash s) = s.
Proof.
  induction s as [|c s IH]; [done|]. cbn [Js.split].
  destruct (Folders.isDash c) eqn:Ec.
  - rewrite join_cons by apply split_nonempty. rewrite IH. simpl.
    apply Ascii.eqb_eq in Ec. by subst.
  - pose proof (split_nonempty Folders.isDash s) as Hne.
    destruct (Js.split Folders.isDash s) as [|seg segs]; [done|].
    by rewrite join_cons_char, IH.
Qed.

Lemma containsDash_split (s : string) :
  Folders.containsDash s = (2 <=? length (Js.split Folders.isDash s))%nat.
Proof.
  unfold Folders.containsDash.
  induction s as [|c s IH]; [done|]. cbn [Js.split Js.allStr].
  pose proof (split_nonempty Folders.isDash s) as Hne.
  destruct (Folders.isDash c); simpl.
  - by destruct (Js.split Folders.isDash s).
  - rewrite IH. by destruct (Js.split Folders.isDash s).
Qed.

(** A folder name with a dash is its website, a dash and its date. *)
Lemma folderName_splitFolder (folder : string) :
  Folders.containsDash folder = true →
  Folders.folderName (Folders.splitFolder folder) = folder.
Proof.
  rewrite containsDash_split. intros Hlen%Nat.leb_le.
  unfold Folders.folderName, Folders.splitFolder. simpl.
  pose proof (join_split folder) as Hjoin.
  pose proof (split_nonempty Folders.isDash folder) as Hne.
  rewrite (app_removelast_last EmptyString Hne) in Hjoin at 1.
  rewrite join_snoc in Hjoin; [done|].
  destruct (Js.split Folders.isDash folder) as [|a [|b l]]; simpl in *; [lia|lia|done].
Qed.

Lemma keys_push (o : Folders.Obj) (k v : string) :
  map fst (Folders.push o k v)
  = match Folders.get o k with
    | Some _ => map fst o
    | None => map fst o ++ [k]
    end.
Proof.
  induction o as [|[k' vs] o IH]; [done|]. simpl.
  destruct (String.eqb k' k); simpl; [done|].
  rewrite IH. by destruct (Folders.get o k).
Qed.

Lemma get_None (o : Folders.Obj) (k : string) :
  Folders.get o k = None ↔ k ∉ map fst o.
Proof.
  induction o as [|[k' vs] o IH]; simpl.
  - split; [intros _; apply not_elem_of_nil|done].
  - destruct (String.eqb_spec k' k) as [->|Hne].
    + split; [done|]. intros []. apply list_elem_of_here.
    + rewrite IH, not_elem_of_cons.
      split; [intros H; split; [congruence|done]|by intros [_ H]].
Qed.

Lemma entries_push (o : Folders.Obj) (k v : string) :
  Folders.entries (Folders.push o k v) ≡ₚ Folders.entries o ++ [(k, v)].
Proof.
  induction o as [|[k' vs] o IH]; [done|]. simpl.
  destruct (String.eqb_spec k' k) as [->|Hne]; unfold Folders.entries in *; simpl.
  - rewrite map_app. simpl. rewrite <- !app_assoc.
    apply Permutation_app_head. apply Permutation_app_comm.
  - rewrite IH. by rewrite app_assoc.
Qed.

Lemma filter_complement {A : Type} (f : A → bool) (l : list A) :
  List.filter f l ++ List.filter (fun x => negb (f x)) l ≡ₚ l.
Proof.
  induction l as [|x l IH]; [done|]. simpl.
  destruct (f x); simpl; [by rewrite IH|].
  rewrite <- Permutation_middle. by rewrite IH.
Qed.

Lemma keys_permutation (o : Folders.Obj) : Folders.keys o ≡ₚ map fst o.
Proof.
  unfold Folders.keys. rewrite merge_sort_Permutation. apply filter_complement.
Qed.

Lemma entries_by_key (o : Folders.Obj) :
  NoDup (map fst o) →
  flat_map (fun website =>
              map (fun date => (website, date)) (default [] (Folders.get o website)))
    (map fst o)
  = Folders.entries o.
Proof.
  induction o as [|[k vs] o IH]; [done|].
  intros [Hk Ho]%NoDup_cons. simpl. rewrite String.eqb_refl. simpl.
  unfold Folders.entries at 1. simpl. f_equal. fold (Folders.entries o).
  rewrite <- (IH Ho). clear IH.
  assert (Hall : ∀ l, (∀ x, x ∈ l → x ≠ k) →
            flat_map (fun website =>
                        map (fun date => (website, date))
                          (default [] (if String.eqb k website then Some vs
                                       else Folders.get o website))) l
            = flat_map (fun website =>
                          map (fun date => (website, date))
                            (default [] (Folders.get o website))) l).
  { induction l as [|x l IHl]; [done|]. intros Hl. simpl.
    rewrite IHl by (intros y Hy; apply Hl; by apply list_elem_of_further).
    destruct (String.eqb_spec k x) as [->|_]; [|done].
    destruct (Hl x); [apply list_elem_of_here|done]. }
  apply Hall. intros x Hx ->. done.
Qed.

Lemma options_permutation (o : Folders.Obj) :
  NoDup (map fst o) → Folders.options o ≡ₚ Folders.entries o.
Proof.
  intros Ho. rewrite <- (entries_by_key o Ho). unfold Folders.options.
  by rewrite keys_permutation.
Qed.

Lemma addFolder_thrown (folders : list string) :
  fold_left Folders.addFolder folders None = None.
Proof. induction folders as [|f fs IH]; [done|exact IH]. Qed.

Lemma addFolder_unfold (o0 : Folders.Obj) (folder : string) :
  Folders.addFolder (Some o0) folder
  = if Folders.containsDash folder then
      let pushed :=
        Some (Folders.push o0 (fst (Folders.splitFolder folder))
                (snd (Folders.splitFolder folder))) in
      match Folders.get o0 (fst (Folders.splitFolder folder)) with
      | Some _ => pushed
      | None =>
          if Js.includes Folders.inherited (fst (Folders.splitFolder folder))
          then None else pushed
      end
    else Some o0.
Proof. rewrite containsDash_split. reflexivity. Qed.

Lemma push_keeps_keys_apart (o0 : Folders.Obj) (k v : string) :
  NoDup (map fst o0) → NoDup (map fst (Folders.push o0 k v)).
Proof.
  intros Ho. rewrite keys_push.
  destruct (Folders.get o0 k) eqn:Eget; [done|].
  apply NoDup_app. split; [done|]. split; [|apply NoDup_singleton].
  intros x Hx ->%list_elem_of_singleton. by apply get_None in Eget.
Qed.

(** What the loop of [categorizeFolders] has built after some folders. *)
Lemma categorize_fold (folders : list string) : ∀ o0 o,
  fold_left Folders.addFolder folders (Some o0) = Some o →
  NoDup (map fst o0) →
  NoDup (map fst o)
  ∧ Folders.entries o
    ≡ₚ Folders.entries o0
       ++ map Folders.splitFolder (List.filter Folders.containsDash folders).
Proof.
  induction folders as [|folder folders IH]; intros o0 o.
  - intros [= <-] Ho. split; [done|]. simpl. by rewrite app_nil_r.
  - cbn [fold_left List.filter]. rewrite addFolder_unfold.
    destruct (Folders.containsDash folder); [|apply IH].
    assert (Hstep :
              fold_left Folders.addFolder folders
                (Some (Folders.push o0 (fst (Folders.splitFolder folder))
                         (snd (Folders.splitFolder folder)))) = Some o →
              NoDup (map fst o0) →
              NoDup (map fst o)
              ∧ Folders.entries o
                ≡ₚ Folders.entries o0
                   ++ map Folders.splitFolder
                        (folder :: List.filter Folders.containsDash folders)).
    { intros Hfold Ho.
      destruct (IH _ _ Hfold (push_keeps_keys_apart _ _ _ Ho)) as [Hnd Hperm].
      split; [done|]. rewrite Hperm, entries_push, <- app_assoc.
      cbn [map app]. by rewrite <- surjective_pairing. }
    cbv zeta.
    destruct (Folders.get o0 _); [exact Hstep|].
    destruct (Js.includes Folders.inherited _); [|exact Hstep].
    by rewrite addFolder_thrown.
Qed.

(** X13: the menu of [compareMenu] offers exactly the listed folders
    whose name contains a dash, one option for each: the name rebuilt
    from an option is a listed folder, every listed folder with a dash
    is rebuilt from some option, and there are as many options as such
    folders.  A folder without a dash is never offered. *)
Theorem options_are_the_dashed_folders (folders : list string) (categorized : Folders.Obj) :
  Folders.categorizeFolders folders = Some categorized →
  (∀ selected, selected ∈ Folders.options categorized →
               Folders.folderName selected ∈ folders
               ∧ Folders.containsDash (Folders.folderName selected) = true)
  ∧ (∀ folder, folder ∈ folders → Folders.containsDash folder = true →
               ∃ selected, selected ∈ Folders.options categorized
                           ∧ Folders.folderName selected = folder)
  ∧ length (Folders.options categorized)
    = length (List.filter Folders.containsDash folders).
Proof.
  intros Hcat. destruct (categorize_fold folders [] categorized Hcat) as [Hnd Hperm];
    [apply NoDup_nil_2|].
  simpl in Hperm. rewrite <- (options_permutation _ Hnd) in Hperm.
  split; [|split].
  - intros selected Hsel. rewrite Hperm in Hsel.
    apply list_elem_of_fmap in Hsel as (folder & -> & Hf).
    apply list_elem_of_In, filter_In in Hf as [Hf Hdash].
    rewrite (folderName_splitFolder _ Hdash). split; [by apply list_elem_of_In|done].
  - intros folder Hf Hdash. exists (Folders.splitFolder folder).
    split; [|by apply folderName_splitFolder].
    rewrite Hperm. apply list_elem_of_fmap. exists folder. split; [done|].
    apply list_elem_of_In, filter_In. split; [by apply list_elem_of_In|done].
  - by rewrite Hperm, length_map.
Qed.

(** Three folders, one of them without a dash. *)
Lemma options_are_the_dashed_folders_witness :
  length (Folders.options [("h.com-2024-05-01T10-00", ["07"]); ("b", ["1"])]) = 2%nat.
Proof.
  destruct (options_are_the_dashed_folders ["h.com-2024-05-01T10-00-07"; "notes"; "b-1"]
              [("h.com-2024-05-01T10-00", ["07"]); ("b", ["1"])] eq_refl) as (_ & _ & H).
  exact H.
Defined.

Lemma push_keys_not_inherited (o0 : Folders.Obj) (k v : string) :
  (∀ x, x ∈ map fst o0 → x ∉ Folders.inherited) → k ∉ Folders.inherited →
  ∀ x, x ∈ map fst (Folders.push o0 k v) → x ∉ Folders.inherited.
Proof.
  intros Ho Hk x. rewrite keys_push.
  destruct (Folders.get o0 k); [apply Ho|].
  intros [Hx| ->%list_elem_of_singleton]%elem_of_app; [by apply Ho|done].
Qed.

Lemma categorize_throws (folders : list string) : ∀ o0,
  (∀ x, x ∈ map fst o0 → x ∉ Folders.inherited) →
  fold_left Folders.addFolder folders (Some o0) = None
  ↔ ∃ folder, folder ∈ folders ∧ Folders.containsDash folder = true
              ∧ fst (Folders.splitFolder folder) ∈ Folders.inherited.
Proof.
  induction folders as [|folder folders IH]; intros o0 Ho.
  - split; [done|]. intros (folder & Hf & _). by apply elem_of_nil in Hf.
  - cbn [fold_left]. rewrite addFolder_unfold.
    destruct (Folders.containsDash folder) eqn:Edash.
    + cbv zeta.
      assert (Hgood : fst (Folders.splitFolder folder) ∉ Folders.inherited →
                fold_left Folders.addFolder folders
                  (Some (Folders.push o0 (fst (Folders.splitFolder folder))
                           (snd (Folders.splitFolder folder)))) = None
                ↔ ∃ f, f ∈ folder :: folders ∧ Folders.containsDash f = true
                       ∧ fst (Folders.splitFolder f) ∈ Folders.inherited).
      { intros Hw. rewrite IH by (by apply push_keys_not_inherited). split.
        - intros (f & Hf & Hd & Hi). exists f. split; [by apply list_elem_of_further|done].
        - intros (f & [->|Hf]%elem_of_cons & Hd & Hi); [done|by exists f]. }
      destruct (Folders.get o0 _) eqn:Eget.
      * apply Hgood, Ho. destruct (decide (fst (Folders.splitFolder folder) ∈ map fst o0))
          as [Hin|Hout]; [done|]. apply get_None in Hout. congruence.
      * destruct (Js.includes Folders.inherited _) eqn:Einc.
        -- rewrite addFolder_thrown. split; [|done]. intros _. exists folder.
           split; [apply list_elem_of_here|]. split; [done|by apply includes_spec].
        -- by apply Hgood, includes_false.
    + rewrite (IH o0 Ho). split.
      * intros (f & Hf & Hd & Hi). exists f. split; [by apply list_elem_of_further|done].
      * intros (f & [->|Hf]%elem_of_cons & Hd & Hi); [congruence|by exists f].
Qed.

(** X14: [categorizeFolders] throws exactly when the part before the
    last dash of some listed folder is a name every object inherits
    ([constructor], [toString], [__proto__] and the like): the script
    then calls [push] on the inherited value. *)
Theorem categorize_throws_on_inherited_name (folders : list string) :
  Folders.categorizeFolders folders = None
  ↔ ∃ folder, folder ∈ folders ∧ Folders.containsDash folder = true
              ∧ fst (Folders.splitFolder folder) ∈ Folders.inherited.
Proof.
  apply categorize_throws. intros x Hx. by apply elem_of_nil in Hx.
Qed.

(** ** The folder of a baseline *)

Lemma string_of_uint_digits (u : Decimal.uint) :
  Js.allStr Js.isDigit (NilEmpty.string_of_uint u) = true.
Proof. induction u; simpl; try done. Qed.

Lemma ofNat_digits (n : nat) : Js.allStr Js.isDigit (Js.ofNat n) = true.
Proof. apply string_of_uint_digits. Qed.

Lemma allStr_impl (f g : ascii → bool) (s : string) :
  (∀ c, f c = true → g c = true) → Js.allStr f s = true → Js.allStr g s = true.
Proof.
  intros Hfg. induction s as [|c s IH]; [done|]. simpl.
  intros [Hc Hs]%andb_true_iff. by rewrite (Hfg c Hc), IH.
Qed.

Lemma digits_are_safe (s : string) :
  Js.allStr Js.isDigit s = true → Spec.madeOf Baseline.isSafeChar s = true.
Proof.
  apply allStr_impl. intros c Hc.
  unfold Baseline.isSafeChar, Js.isAlnum. rewrite Hc. by rewrite !orb_true_r.
Qed.

Lemma pad2_digits (n : nat) : Js.allStr Js.isDigit (Folders.pad2 n) = true.
Proof.
  unfold Folders.pad2. destruct (_ <? _)%nat; [|apply ofNat_digits].
  rewrite allStr_app, ofNat_digits. done.
Qed.

Lemma madeOf_app (keep : ascii → bool) (a b : string) :
  Spec.madeOf keep (a +:+ b) = Spec.madeOf keep a && Spec.madeOf keep b.
Proof. apply allStr_app. Qed.

Lemma containsDash_app (a b : string) :
  Folders.containsDash (a +:+ "-" +:+ b) = true.
Proof.
  unfold Folders.containsDash. rewrite !allStr_app. simpl.
  by rewrite andb_false_r.
Qed.

Lemma split_app_dash (a b : string) :
  Js.split Folders.isDash (a +:+ "-" +:+ b)
  = Js.split Folders.isDash a ++ Js.split Folders.isDash b.
Proof.
  induction a as [|c a IH]; [done|].
  rewrite string_app_cons. cbn [Js.split]. rewrite IH.
  destruct (Folders.isDash c); [done|].
  pose proof (split_nonempty Folders.isDash a) as Hne.
  by destruct (Js.split Folders.isDash a).
Qed.

Lemma split_dashless (s : string) :
  Js.allStr (fun c => negb (Folders.isDash c)) s = true → Js.split Folders.isDash s = [s].
Proof.
  induction s as [|c s IH]; [done|]. cbn [Js.allStr Js.split].
  intros [Hc Hs]%andb_true_iff. apply negb_true_iff in Hc. by rewrite Hc, IH.
Qed.

Lemma splitFolder_last_dash (a b : string) :
  Js.allStr (fun c => negb (Folders.isDash c)) b = true →
  Folders.splitFolder (a +:+ "-" +:+ b) = (a, b).
Proof.
  intros Hb. unfold Folders.splitFolder. cbv zeta.
  rewrite split_app_dash, (split_dashless b Hb), removelast_last, last_last.
  by rewrite join_split.
Qed.

Lemma digit_is_no_dash (c : ascii) : Js.isDigit c = true → negb (Folders.isDash c) = true.
Proof.
  intros Hc. apply negb_true_iff. destruct (Folders.isDash c) eqn:E; [|done].
  apply Ascii.eqb_eq in E. by subst.
Qed.

(** X15: the folder [crawlAndScreenshot] creates for a baseline has a
    name made of letters, digits, dots, dashes and underscores only (no
    path separator, whatever the host name), and the name contains a
    dash: the listing of [compareMenu] offers it and rebuilds the same
    name from the option.  The timestamp itself contains dashes, so the
    date of the option is the seconds field alone; the rest of the
    timestamp is read as part of the website. *)
Theorem baseline_folder_is_listed (domain : string) (now : Folders.Date) (dir : string) :
  let name := Folders.baselineFolderName domain now in
  Baseline.folderPath dir (Folders.getLocalTimestamp now) domain = Baseline.pathJoin dir name
  ∧ Spec.madeOf Baseline.isSafeChar name = true
  ∧ Folders.containsDash name = true
  ∧ Folders.folderName (Folders.splitFolder name) = name
  ∧ Folders.splitFolder name
    = (Js.replaceOutside Baseline.isSafeChar domain +:+ "-"
       +:+ Js.ofNat (Folders.fullYear now) +:+ "-" +:+ Folders.pad2 (Folders.month now + 1)
       +:+ "-" +:+ Folders.pad2 (Folders.date now) +:+ "T" +:+ Folders.pad2 (Folders.hours now)
       +:+ "-" +:+ Folders.pad2 (Folders.minutes now),
       Folders.pad2 (Folders.seconds now)).
Proof.
  intros name. split; [done|].
  assert (Hdash : Folders.containsDash name = true) by apply containsDash_app.
  split; [|split; [done|split; [by apply folderName_splitFolder|]]].
  - unfold name, Folders.baselineFolderName, Folders.getLocalTimestamp.
    rewrite !madeOf_app, madeOf_replaceOutside.
    rewrite !(digits_are_safe _ (pad2_digits _)), (digits_are_safe _ (ofNat_digits _)).
    done.
  - rewrite <- (splitFolder_last_dash _ (Folders.pad2 (Folders.seconds now)))
      by apply (allStr_impl _ _ _ digit_is_no_dash), pad2_digits.
    unfold name, Folders.baselineFolderName, Folders.getLocalTimestamp.
    by rewrite !string_app_assoc.
Qed.

(** ** The listings of the report *)

Lemma countDepth_lookup (m : gmap nat nat) (page : Reporter.PageDetail) (d : nat) :
  Report.countDepth m page !! d
  = if decide (Reporter.pathDepth page = d)
    then Some (default 0 (m !! d) + 1)%nat else m !! d.
Proof.
  unfold Report.countDepth. destruct (decide _) as [<-|Hne].
  - by rewrite lookup_insert_eq.
  - by rewrite lookup_insert_ne.
Qed.

Lemma depthStats_count (details : list Reporter.PageDetail) (d : nat) : ∀ m,
  default 0 (fold_left Report.countDepth details m !! d)
  = (default 0 (m !! d)
     + length (List.filter (fun page => Nat.eqb (Reporter.pathDepth page) d) details))%nat.
Proof.
  induction details as [|page details IH]; intros m; simpl; [lia|].
  rewrite IH, countDepth_lookup.
  destruct (decide _) as [->|Hne].
  - rewrite Nat.eqb_refl. simpl. lia.
  - by destruct (Nat.eqb_spec (Reporter.pathDepth page) d).
Qed.

Lemma depthStats_present (details : list Reporter.PageDetail) (d : nat) : ∀ m,
  is_Some (fold_left Report.countDepth details m !! d)
  ↔ is_Some (m !! d)
    ∨ (0 < length (List.filter (fun page => Nat.eqb (Reporter.pathDepth page) d) details))%nat.
Proof.
  induction details as [|page details IH]; intros m; simpl.
  - split; [by left|]. intros [H|H]; [done|lia].
  - rewrite IH, countDepth_lookup.
    destruct (decide _) as [->|Hne].
    + rewrite Nat.eqb_refl. simpl. split; [right; lia|by left].
    + by destruct (Nat.eqb_spec (Reporter.pathDepth page) d).
Qed.

Lemma sum_list_permutation (l k : list nat) : l ≡ₚ k → sum_list l = sum_list k.
Proof. induction 1; simpl; lia. Qed.

Lemma countDepth_total (m : gmap nat nat) (page : Reporter.PageDetail) :
  sum_list (map snd (map_to_list (Report.countDepth m page)))
  = (sum_list (map snd (map_to_list m)) + 1)%nat.
Proof.
  unfold Report.countDepth. set (d := Reporter.pathDepth page).
  destruct (m !! d) as [x|] eqn:E; simpl.
  - rewrite <- insert_delete_eq.
    rewrite (sum_list_permutation _ _
               (Permutation_map snd (map_to_list_insert (delete d m) d (x + 1)%nat
                                            (lookup_delete_eq m d)))).
    rewrite <- (sum_list_permutation _ _
                  (Permutation_map snd (map_to_list_delete m d x E))).
    simpl. lia.
  - rewrite (sum_list_permutation _ _
               (Permutation_map snd (map_to_list_insert m d 1%nat E))).
    simpl. lia.
Qed.

Lemma depthStats_total (details : list Reporter.PageDetail) : ∀ m,
  sum_list (map snd (map_to_list (fold_left Report.countDepth details m)))
  = (sum_list (map snd (map_to_list m)) + length details)%nat.
Proof.
  induction details as [|page details IH]; intros m; simpl; [lia|].
  rewrite IH, countDepth_total. lia.
Qed.

Lemma depthLines_permutation (details : list Reporter.PageDetail) :
  Report.depthLines details ≡ₚ map_to_list (Report.depthStats details).
Proof.
  unfold Report.depthLines. cbv zeta. set (stats := Report.depthStats details).
  rewrite merge_sort_Permutation, map_map.
  erewrite map_ext_in; [by rewrite map_id|].
  intros [d n] Hin. apply list_elem_of_In, elem_of_map_to_list in Hin.
  simpl. by rewrite Hin.
Qed.

Lemma strictly_sorted (l : list nat) :
  StronglySorted Nat.le l → NoDup l → StronglySorted lt l.
Proof.
  induction 1 as [|a l Hl IH Hall]; intros Hnd; [constructor|].
  apply NoDup_cons in Hnd as [Ha Hnd]. constructor; [by apply IH|].
  apply Forall_forall. intros x Hx.
  assert (a ≤ x)%nat by (by eapply Forall_forall in Hall).
  assert (a ≠ x) by (by intros ->). lia.
Qed.

(** X16: the path depth analysis of the report lists the depths in
    strictly ascending order, each depth that occurs once; the number
    beside a depth is the number of pages recorded at that depth, and the
    numbers add up to the number of pages. *)
Theorem depth_analysis_counts_every_page (details : list Reporter.PageDetail) :
  let lines := Report.depthLines details in
  StronglySorted lt (map fst lines)
  ∧ (∀ d n, (d, n) ∈ lines
            ↔ (0 < n)%nat
              ∧ n = length (List.filter (fun page => Nat.eqb (Reporter.pathDepth page) d)
                              details))
  ∧ sum_list (map snd lines) = length details.
Proof.
  intros lines. split; [|split].
  - apply strictly_sorted.
    + unfold lines, Report.depthLines. cbv zeta. rewrite map_map. simpl. rewrite map_id.
      apply (StronglySorted_merge_sort Nat.le).
    + unfold lines. rewrite (Permutation_map fst (depthLines_permutation details)).
      apply NoDup_fst_map_to_list.
  - intros d n. unfold lines. rewrite (depthLines_permutation details), elem_of_map_to_list.
    pose proof (depthStats_count details d ∅) as Hcount.
    pose proof (depthStats_present details d ∅) as Hpresent.
    rewrite lookup_empty in Hcount, Hpresent. simpl in Hcount.
    fold (Report.depthStats details) in Hcount, Hpresent. split.
    + intros E. rewrite E in Hcount, Hpresent. simpl in Hcount.
      destruct Hpresent as [[[x Hx]|Hpos] _]; [by exists n|done|]. lia.
    + intros [Hpos ->]. destruct Hpresent as [_ [x Hx]]; [by right|].
      rewrite Hx in Hcount |- *. simpl in Hcount. by rewrite Hcount.
  - unfold lines.
    rewrite (sum_list_permutation _ _ (Permutation_map snd (depthLines_permutation details))).
    unfold Report.depthStats. rewrite depthStats_total, map_to_list_empty. done.
Qed.

Lemma filter_negb_length {A} (f : A → bool) (l : list A) :
  (length (List.filter f l) + length (List.filter (fun x => negb (f x)) l))%nat = length l.
Proof. induction l as [|a l IH]; simpl; [done|]. destruct (f a); simpl; lia. Qed.

(** X17: the canonical URL analysis of the report splits the successful
    pages into those with and those without a canonical tag; the pages
    whose canonical URL differs from their own are among those with a tag;
    at most ten pages without a tag are listed, they are the first ones,
    and the line [... and n more pages] announces exactly the pages left
    out, and only when there are some. *)
Theorem canonical_analysis_accounts_for_all (details : list Reporter.PageDetail) :
  let a := Report.canonicalAnalysis details in
  (length (Report.pagesWithCanonical a) + length (Report.pagesWithoutCanonical a))%nat
  = length (Report.allSuccessfulPages a)
  ∧ (∀ page, page ∈ Report.pagesWithDifferentCanonical a →
             page ∈ Report.pagesWithCanonical a ∧ Reporter.canonical page ≠ Some (Reporter.url page))
  ∧ (length (Report.listedWithout a) ≤ 10)%nat
  ∧ Report.listedWithout a `prefix_of` Report.pagesWithoutCanonical a
  ∧ (length (Report.listedWithout a) + default 0%nat (Report.moreWithout a))%nat
    = length (Report.pagesWithoutCanonical a)
  ∧ Report.moreWithout a ≠ Some 0%nat.
Proof.
  intros a. unfold a, Report.canonicalAnalysis. cbv zeta. simpl.
  set (successful := List.filter Report.isSuccess details).
  set (without := List.filter (fun page => negb (Report.hasCanonical page)) successful).
  split; [apply filter_negb_length|].
  split; [|split; [|split; [|split]]].
  - intros page [Hin Hdiff]%list_elem_of_In%filter_In. split.
    + apply list_elem_of_In, filter_In. split; [done|].
      unfold Report.hasDifferentCanonical, Report.hasCanonical in *.
      destruct (Reporter.canonical page); [|done]. by apply andb_true_iff in Hdiff as [? _].
    + unfold Report.hasDifferentCanonical in Hdiff. intros E. rewrite E in Hdiff.
      by rewrite String.eqb_refl, andb_false_r in Hdiff.
  - rewrite length_take. lia.
  - apply prefix_take.
  - rewrite length_take. destruct (Nat.ltb_spec 10 (length without)); cbn [from_option id]; lia.
  - destruct (Nat.ltb_spec 10 (length without)); [|done]. intros [= E]. lia.
Qed.

Lemma string_length_app (a b : string) :
  String.length (a +:+ b) = (String.length a + String.length b)%nat.
Proof. induction a as [|c a IH]; [done|]. rewrite string_app_cons. simpl. by rewrite IH. Qed.

Lemma substring0_prefix (n : nat) : ∀ s, Js.startsWith s (Js.substring0 n s) = true.
Proof.
  unfold Js.startsWith, Js.substring0.
  induction n as [|n IH]; intros [|c s]; simpl; try done.
  destruct (ascii_dec c c); [apply IH|done].
Qed.

Lemma startsWith_refl (s : string) : Js.startsWith s s = true.
Proof.
  unfold Js.startsWith. induction s as [|c s IH]; simpl; [done|].
  by destruct (ascii_dec c c).
Qed.

Lemma string_app_empty (s : string) : s +:+ "" = s.
Proof. induction s as [|c s IH]; [done|]. by rewrite string_app_cons, IH. Qed.

(** X18: the URL in the progress line of the page reporter is never
    longer than 50 characters: a URL of up to 50 characters is shown as
    it is, and only such a URL; a longer one is shown as a beginning of
    it followed by three dots, 50 characters in all.  The frame shown is
    always one of the ten of the animation. *)
Theorem progress_line_url_is_short (currentUrl : string) (currentFrame : nat) :
  String.length (Progress.shortUrl currentUrl) = Nat.min (String.length currentUrl) 50
  ∧ (Progress.shortUrl currentUrl = currentUrl ↔ (String.length currentUrl ≤ 50)%nat)
  ∧ (∃ shown, Js.startsWith currentUrl shown = true
              ∧ Progress.shortUrl currentUrl
                = shown +:+ (if (50 <? String.length currentUrl)%nat then "..." else ""))
  ∧ (Progress.frameIndex currentFrame < 10)%nat.
Proof.
  unfold Progress.shortUrl, Progress.frameIndex.
  destruct (Nat.ltb_spec 50 (String.length currentUrl)) as [Hlong|Hshort].
  - assert (Hlen : String.length (Js.substring0 47 currentUrl +:+ "...") = 50%nat).
    { rewrite string_length_app, length_substring0 by lia. done. }
    split; [rewrite Hlen; lia|]. split; [|split].
    + split; [|lia]. intros E. rewrite E in Hlen. lia.
    + exists (Js.substring0 47 currentUrl). split; [apply substring0_prefix|done].
    + apply Nat.mod_upper_bound. lia.
  - split; [lia|]. split; [done|]. split.
    + exists currentUrl. rewrite string_app_empty. split; [|done].
      apply startsWith_refl.
    + apply Nat.mod_upper_bound. lia.
Qed.

(** ** A baseline compared with the unchanged site *)

Section Snapshots.

Variable newURL : string -> option string -> option Url.URL.
Variable browser : nat -> string -> Baseline.Capture.
Variables dir ts startUrl domain : string.

Lemma snapshots_shot (ps : list Baseline.PageInfo) (d : Baseline.Disk)
    (info : Baseline.PageInfo) (path : string) (i : nat) (img : Png.PNG) :
  Run.snapshotsOf browser ps d →
  Baseline.status info = Baseline.success →
  Baseline.screenshotPath info = Some path →
  Run.capturedImage (browser i (Baseline.url info)) = Some img →
  Run.snapshotsOf browser (ps ++ [info]) (<[path := PngFile img]> d).
Proof.
  intros Hinv Hstatus Hpath Himg p Hp Hs.
  assert (Hnew : ∀ p', Baseline.screenshotPath p' = Some path →
            ∃ q j im, q ∈ ps ++ [info] ∧ Baseline.status q = Baseline.success
              ∧ Baseline.screenshotPath q = Baseline.screenshotPath p'
              ∧ Run.capturedImage (browser j (Baseline.url q)) = Some im
              ∧ Baseline.screenshotPath p' ≫= (<[path := PngFile img]> d !!.)
                = Some (PngFile im)).
  { intros p' E. exists info, i, img.
    split; [apply elem_of_app; right; apply list_elem_of_here|].
    split; [done|]. split; [congruence|]. split; [done|].
    rewrite E. simpl. by rewrite lookup_insert_eq. }
  apply elem_of_app in Hp as [Hp| ->%list_elem_of_singleton]; [|by apply Hnew].
  destruct (decide (Baseline.screenshotPath p = Some path)) as [E|Hne]; [by apply Hnew|].
  destruct (Hinv p Hp Hs) as (q & j & im & Hq & Hqs & Hqp & Hcap & Hlook).
  exists q, j, im. split; [apply elem_of_app; by left|].
  split; [done|]. split; [done|]. split; [done|].
  destruct (Baseline.screenshotPath p) as [path'|]; [|done]. simpl in *.
  rewrite lookup_insert_ne; [done|congruence].
Qed.

Lemma snapshots_error (ps : list Baseline.PageInfo) (d : Baseline.Disk)
    (info : Baseline.PageInfo) :
  Run.snapshotsOf browser ps d →
  Baseline.status info = Baseline.error →
  Run.snapshotsOf browser (ps ++ [info]) d.
Proof.
  intros Hinv Hstatus p [Hp| ->%list_elem_of_singleton]%elem_of_app Hs; [|congruence].
  destruct (Hinv p Hp Hs) as (q & j & im & Hq & Hrest).
  exists q, j, im. split; [apply elem_of_app; by left|done].
Qed.

Lemma baseline_step_snapshots st st' :
  Run.snapshotsOf browser (Baseline.pages st) (Baseline.disk st) →
  Baseline.step newURL browser dir ts startUrl domain st = Js.Next st' →
  Run.snapshotsOf browser (Baseline.pages st') (Baseline.disk st').
Proof.
  intros Hinv. unfold Baseline.step.
  destruct (Baseline.urlsToVisit st) as [|cur rest]; [done|].
  destruct (Js.includes (Baseline.visitedUrls st) cur); [by intros [= <-]|].
  destruct (browser (length (Baseline.visitedUrls st)) cur)
    as [message|t c img message|t c img links] eqn:Ebrowser.
  - destruct (Baseline.errorInfo _ _ _ _) as [info|] eqn:Einfo; [|done].
    intros [= <-]. simpl. apply errorInfo_record in Einfo as [_ Hstatus].
    by apply snapshots_error.
  - destruct (Baseline.successInfo _ _ _ _ _ _) as [info|] eqn:Einfo; [|done].
    destruct (Baseline.errorInfo _ _ _ _) as [info'|] eqn:Einfo'; [|done].
    intros [= <-]. simpl. apply errorInfo_record in Einfo' as [_ Hstatus'].
    apply snapshots_error; [|done].
    pose proof (successInfo_path _ _ _ _ _ _ _ Einfo) as Hpath.
    apply successInfo_record in Einfo as [Hurl Hstatus].
    apply (snapshots_shot _ _ _ _ (length (Baseline.visitedUrls st))); try done.
    by rewrite Hurl, Ebrowser.
  - destruct (Baseline.successInfo _ _ _ _ _ _) as [info|] eqn:Einfo; [|done].
    intros [= <-]. simpl.
    pose proof (successInfo_path _ _ _ _ _ _ _ Einfo) as Hpath.
    apply successInfo_record in Einfo as [Hurl Hstatus].
    apply (snapshots_shot _ _ _ _ (length (Baseline.visitedUrls st))); try done.
    by rewrite Hurl, Ebrowser.
Qed.

End Snapshots.

Lemma NoDup_map_inj {A B : Type} (f : A → B) (l : list A) (x y : A) :
  NoDup (map f l) → x ∈ l → y ∈ l → f x = f y → x = y.
Proof.
  induction l as [|a l IH]; simpl; [by intros _ ?%elem_of_nil|].
  intros [Ha Hl]%NoDup_cons [->|Hx]%elem_of_cons [->|Hy]%elem_of_cons E; [done| | |by apply IH].
  - exfalso. apply Ha. rewrite E. apply list_elem_of_fmap. by exists y.
  - exfalso. apply Ha. rewrite <- E. apply list_elem_of_fmap. by exists x.
Qed.

Lemma successPages_status (ps : list Baseline.PageInfo) (p : Baseline.PageInfo) :
  p ∈ Baseline.successPages ps ↔ p ∈ ps ∧ Baseline.status p = Baseline.success.
Proof.
  unfold Baseline.successPages. rewrite !list_elem_of_In, filter_In.
  split; intros [Hin Hs]; (split; [done|]); by destruct (Baseline.status p).
Qed.

Section Unchanged.

Variable newURL : string -> option string -> option Url.URL.
Variable camera : nat -> string -> Baseline.Shot.
Variable countDiff : list N -> list N -> nat -> nat -> nat.
Variable toFixed2 : Q -> string.
Variable tempFolder : string.
Variable d : Baseline.Disk.

(** the page is rendered as its baseline image *)
Local Abbreviation sameAsBaseline p :=
  (∃ img, (∀ j, camera j (Baseline.url p) = Baseline.ShotTaken img)
          ∧ Baseline.screenshotPath p ≫= (d !!.) = Some (PngFile img)
          ∧ Png.wellFormed img
          ∧ (0 < Png.width img * Png.height img)%nat
          ∧ countDiff (Png.data img) (Png.data img) (Png.width img) (Png.height img)
            = 0%nat).

Lemma comparePage_same (st : Baseline.Comparison) (p : Baseline.PageInfo) :
  sameAsBaseline p →
  let st' := Baseline.comparePage newURL camera countDiff toFixed2 tempFolder d st p in
  Baseline.matchCount st' = S (Baseline.matchCount st)
  ∧ Baseline.changeCount st' = Baseline.changeCount st
  ∧ Baseline.errorCount st' = Baseline.errorCount st
  ∧ Baseline.totalDiffPixels st' = Baseline.totalDiffPixels st
  ∧ Baseline.changedPages st' = Baseline.changedPages st
  ∧ Baseline.errorPages st' = Baseline.errorPages st.
Proof.
  intros (img & Hcam & Hfile & Hwf & Hpos & Hzero).
  assert (Hpm : Png.pixelmatch countDiff (Png.data img) (Png.data img)
                  (Png.data (Png.blank (Png.width img) (Png.height img)))
                  (Png.width img) (Png.height img) = inr 0%nat).
  { unfold Png.pixelmatch. red in Hwf. simpl. rewrite repeat_length, Hwf, Hzero.
    rewrite !Nat.eqb_refl. simpl.
    match goal with
    | |- context [(?a =? ?b)%nat] => destruct (Nat.eqb_spec a b); [done|lia]
    end. }
  cbv zeta. unfold Baseline.comparePage.
  rewrite Hcam, Hfile, Hpm. simpl.
  assert (Hb : Baseline.belowOnePercent 0 (Png.width img * Png.height img) = true).
  { unfold Baseline.belowOnePercent. apply Nat.ltb_lt. lia. }
  rewrite Hb. simpl. repeat split; lia.
Qed.

Lemma compare_all_same (ps : list Baseline.PageInfo) : ∀ st,
  (∀ p, p ∈ ps → sameAsBaseline p) →
  let st' := fold_left (Baseline.comparePage newURL camera countDiff toFixed2 tempFolder d)
               ps st in
  Baseline.matchCount st' = (Baseline.matchCount st + length ps)%nat
  ∧ Baseline.changeCount st' = Baseline.changeCount st
  ∧ Baseline.errorCount st' = Baseline.errorCount st
  ∧ Baseline.totalDiffPixels st' = Baseline.totalDiffPixels st
  ∧ Baseline.changedPages st' = Baseline.changedPages st
  ∧ Baseline.errorPages st' = Baseline.errorPages st.
Proof.
  induction ps as [|p ps IH]; intros st Hall; cbv zeta; cbn [fold_left length].
  - repeat split; lia.
  - destruct (comparePage_same st p (Hall p (list_elem_of_here _ _)))
      as (H1 & H2 & H3 & H4 & H5 & H6).
    destruct (IH (Baseline.comparePage newURL camera countDiff toFixed2 tempFolder d st p)
                (fun q Hq => Hall q (list_elem_of_further _ _ _ Hq)))
      as (I1 & I2 & I3 & I4 & I5 & I6).
    rewrite I1, I2, I3, I4, I5, I6, H1, H2, H3, H4, H5, H6. repeat split; lia.
Qed.

End Unchanged.

Lemma countUnequal_same (n : nat) : ∀ a, (length a ≤ n)%nat → Png.countUnequal a a = 0%nat.
Proof.
  induction n as [|n IH]; intros a Hlen.
  - destruct a; [done|simpl in Hlen; lia].
  - destruct a as [|r [|g [|b [|x a]]]]; try reflexivity.
    cbn [Png.countUnequal]. rewrite !N.eqb_refl. cbn [andb].
    rewrite IH; [done|]. simpl in Hlen. lia.
Qed.

(** X19: a baseline compared with the site as it was crawled: when no
    two success records of the manifest name the same screenshot file,
    every page renders as it did during the crawl, the images are not
    empty and the pixel counter finds no difference between a buffer and
    itself, then every success page is counted as matched, none as
    changed or errored, and no differing pixel is reported. *)
Theorem unchanged_site_is_all_matched
    newURL browser camera countDiff toFixed2 tempFolder dir ts startUrl disk0 n d domain pages :
  Baseline.getDomain newURL startUrl = Some domain →
  Baseline.baseline newURL browser dir ts startUrl disk0 n = Some d →
  Baseline.loadManifest d (Baseline.folderPath dir ts domain) = Some pages →
  NoDup (map Baseline.screenshotPath (Baseline.successPages pages)) →
  Run.unchanged browser camera →
  Run.rendersImages browser →
  (∀ img, countDiff (Png.data img) (Png.data img) (Png.width img) (Png.height img) = 0%nat) →
  let c := Baseline.compareMenu newURL camera countDiff toFixed2 tempFolder d pages in
  Baseline.matchCount c = length (Baseline.successPages pages)
  ∧ Baseline.changeCount c = 0%nat
  ∧ Baseline.errorCount c = 0%nat
  ∧ Baseline.totalDiffPixels c = 0%nat
  ∧ Baseline.changedPages c = []
  ∧ Baseline.errorPages c = [].
Proof.
  unfold Baseline.baseline. intros Hdom Hbase Hload Hnodup Hsame Himgs Hzero.
  destruct (Baseline.start newURL startUrl disk0) as [[domain' st0]|] eqn:Estart; [|done].
  pose proof Estart as [Hdom' Hst0]%start_in_domain.
  assert (domain' = domain) as -> by congruence.
  destruct (Js.iterate _ n st0) as [st|] eqn:Hn; [|done].
  destruct (Baseline.urlsToVisit st); [|done]. injection Hbase as <-.
  rewrite manifest_round_trip in Hload. injection Hload as <-.
  destruct (crawl_records _ _ _ _ _ _ _ _ _ _ Estart Hn) as (Hshape & _ & _ & _).
  assert (Hsnap : Run.snapshotsOf browser (Baseline.pages st) (Baseline.disk st)).
  { revert Hn. subst st0.
    apply (iterate_invariant _
             (fun s => Run.snapshotsOf browser (Baseline.pages s) (Baseline.disk s))).
    - intros s s'. apply baseline_step_snapshots.
    - intros p Hp. by apply elem_of_nil in Hp. }
  cbv zeta. unfold Baseline.compareMenu.
  apply (compare_all_same newURL camera countDiff toFixed2 tempFolder
           (Baseline.saveManifest dir ts domain st)
           (Baseline.successPages (Baseline.pages st)) Baseline.noComparison).
  intros p [Hp Hstatus]%successPages_status.
  destruct (Hsnap p Hp Hstatus) as (q & i & img & Hq & Hqs & Hqp & Hcap & Hlook).
  assert (q = p) as ->.
  { apply (NoDup_map_inj Baseline.screenshotPath _ q p Hnodup); [| |done];
      by apply successPages_status. }
  exists img. split; [intros j; by apply (Hsame i)|].
  destruct (Himgs _ _ _ Hcap) as [Hwf Hpos].
  split; [|done].
  destruct (Hshape p Hp) as (_ & _ & Hrecord). rewrite Hstatus in Hrecord.
  destruct Hrecord as (_ & Hpath & _). rewrite Hpath in Hlook |- *. simpl in *.
  unfold Baseline.saveManifest. rewrite lookup_insert_ne; [done|].
  intros Heq. symmetry in Heq. by apply snapshot_is_not_the_manifest in Heq.
Qed.

(** The gallery: three pages, three screenshot files. *)
Lemma unchanged_site_is_all_matched_witness :
  match Gallery.baseline with
  | Some d =>
      match Baseline.loadManifest d Scenario.shopFolder with
      | Some pages =>
          let c := Scenario.compareBaseline Gallery.camera d pages in
          Baseline.matchCount c = length (Baseline.successPages pages)
          ∧ Baseline.changeCount c = 0%nat
          ∧ Baseline.errorCount c = 0%nat
      | None => False
      end
  | None => False
  end.
Proof.
  destruct Gallery.baseline as [d|] eqn:E; [|vm_compute in E; discriminate E].
  destruct (Baseline.loadManifest d Scenario.shopFolder) as [pages|] eqn:L.
  - assert (Hnodup : NoDup (map Baseline.screenshotPath (Baseline.successPages pages))).
    { pose proof E as E'. vm_compute in E'. injection E' as <-.
      vm_compute in L. injection L as <-.
      apply (bool_decide_unpack _). vm_compute. exact I. }
    assert (Hsame : Run.unchanged Gallery.site Gallery.camera).
    { intros i j url img. unfold Gallery.camera, Gallery.site.
      repeat destruct (String.eqb url _); simpl; congruence. }
    assert (Himgs : Run.rendersImages Gallery.site).
    { intros i url img. unfold Gallery.site.
      repeat destruct (String.eqb url _); simpl; intros [= <-]; try done;
        (split; [reflexivity|vm_compute; lia]). }
    assert (Hzero : ∀ img, Png.exactCount (Png.data img) (Png.data img) (Png.width img)
                             (Png.height img) = 0%nat).
    { intros img. by apply (countUnequal_same (length (Png.data img))). }
    pose proof (unchanged_site_is_all_matched Url.parse Gallery.site Gallery.camera
                  Png.exactCount Js.toFixed2 "baseline/run/compare_1" "baseline"
                  "2024-05-01T10-00-00" Scenario.home ∅ 3 d "h.com" pages
                  eq_refl E L Hnodup Hsame Himgs Hzero) as (Hm & Hc & He & _).
    exact (conj Hm (conj Hc He)).
  - pose proof E as E'. vm_compute in E'. injection E' as <-.
    vm_compute in L. discriminate L.
Defined.
